(** * OpenSSL upgrade agent: a shallow embedding of
      [openssl_agent_all_unix_and_windows.py] and the properties of its
      orchestration.

    The agent is one Python class, [OpenSSLAgent], whose methods probe the
    host ([shutil.which], [subprocess.run], the filesystem, standard input)
    and append to an audit log.  The embedding keeps that shape:

    - a method is a computation in the monad [M]: it threads a [State]
      (the filesystem as the agent sees it, the chronological trace of
      everything the agent did, the artifact list) and ends either with a
      value or with a Python exception;
    - the host is a record of oracles ([Host]): what [which] finds, how a
      started process ends, what the operator types, whether a copy
      succeeds.  Every oracle may depend on the trace so far, so a host may
      answer the same question differently at different moments of a run;
    - strings are sequences of 8-bit characters (code points below 256);
      timestamps and the text printed on the terminal are left out. *)

From Stdlib Require Import ZArith String Ascii List Bool Lia DecimalString
  Sorted.
From stdpp Require Import base decidable gmap strings.
Import ListNotations.

Local Open Scope string_scope.
Local Open Scope Z_scope.

(** ** Python string operations *)

Module PyStr.

(** [str.isspace] on code points below 256: TAB..CR, FS..US, space, NEL and
    the no-break space.  [str.split()], [str.strip()] and the regular
    expression class [\s] all use this set. *)
Definition is_space (c : ascii) : bool :=
  let n := nat_of_ascii c in
  ((9 <=? n) && (n <=? 13) || (28 <=? n) && (n <=? 32)
   || (n =? 133) || (n =? 160))%nat.

(** Line boundaries of [str.splitlines]. *)
Definition is_linebreak (c : ascii) : bool :=
  let n := nat_of_ascii c in
  ((10 <=? n) && (n <=? 13) || (28 <=? n) && (n <=? 30) || (n =? 133))%nat.

(** [needle in hay]. *)
Fixpoint contains (needle hay : string) : bool :=
  String.prefix needle hay
  || match hay with
     | EmptyString => false
     | String _ rest => contains needle rest
     end.

(** [s.startswith(p)]. *)
Definition startswith (p s : string) : bool := String.prefix p s.

(** [s.split(sep)] for a one-character separator: never the empty list. *)
Fixpoint split_on (sep : ascii) (s : string) : list string :=
  match s with
  | EmptyString => [EmptyString]
  | String c rest =>
      if Ascii.eqb c sep then EmptyString :: split_on sep rest
      else match split_on sep rest with
           | [] => [String c EmptyString]
           | w :: ws => String c w :: ws
           end
  end.

Fixpoint lstrip (s : string) : string :=
  match s with
  | EmptyString => EmptyString
  | String c rest => if is_space c then lstrip rest else s
  end.

(** Strip from the right: a character is dropped when it is white and
    everything after it was dropped. *)
Fixpoint rstrip (s : string) : string :=
  match s with
  | EmptyString => EmptyString
  | String c rest =>
      match rstrip rest with
      | EmptyString => if is_space c then EmptyString else String c EmptyString
      | r => String c r
      end
  end.

(** [s.strip()]. *)
Definition strip (s : string) : string := rstrip (lstrip s).

(** [s.split()]: maximal runs of non-white characters. [cur] is the word
    being read, reversed into place by appending. *)
Fixpoint words_from (cur : string) (s : string) : list string :=
  match s with
  | EmptyString => if String.eqb cur EmptyString then [] else [cur]
  | String c rest =>
      if is_space c
      then (if String.eqb cur EmptyString then words_from EmptyString rest
            else cur :: words_from EmptyString rest)
      else words_from (cur ++ String c EmptyString) rest
  end.

Definition split (s : string) : list string := words_from EmptyString s.

(** [s.splitlines()]: CR LF counts as one boundary; no empty last line. *)
Fixpoint lines_from (cur : string) (s : string) : list string :=
  match s with
  | EmptyString => if String.eqb cur EmptyString then [] else [cur]
  | String c rest =>
      if is_linebreak c
      then match rest with
           | String c' rest' =>
               if (Ascii.eqb c "013" && Ascii.eqb c' "010")%bool
               then cur :: lines_from EmptyString rest'
               else cur :: lines_from EmptyString rest
           | EmptyString => [cur]
           end
      else lines_from (cur ++ String c EmptyString) rest
  end.

Definition splitlines (s : string) : list string := lines_from EmptyString s.

(** [s.lower()] on code points below 256. *)
Definition lower_char (c : ascii) : ascii :=
  let n := nat_of_ascii c in
  if ((65 <=? n) && (n <=? 90)
      || (192 <=? n) && (n <=? 222) && negb (n =? 215))%nat
  then ascii_of_nat (n + 32) else c.

Fixpoint lower (s : string) : string :=
  match s with
  | EmptyString => EmptyString
  | String c rest => String (lower_char c) (lower rest)
  end.

(** [s.replace(a, b)] for single characters. *)
Fixpoint replace_char (a b : ascii) (s : string) : string :=
  match s with
  | EmptyString => EmptyString
  | String c rest =>
      String (if Ascii.eqb c a then b else c) (replace_char a b rest)
  end.

(** [sep.join(xs)]. *)
Definition join (sep : string) (xs : list string) : string :=
  String.concat sep xs.

(** [xs.index(x)]: the first position of [x]; [None] stands for the
    [ValueError] Python raises when [x] is missing. *)
Fixpoint index_of (x : string) (xs : list string) : option nat :=
  match xs with
  | [] => None
  | y :: ys => if String.eqb y x then Some O
               else option_map S (index_of x ys)
  end.

(** [x in xs] for a list of strings. *)
Definition mem (x : string) (xs : list string) : bool :=
  existsb (String.eqb x) xs.

(** Maximal run of characters satisfying [p] at the head of [s], and the
    rest. *)
Fixpoint span (p : ascii -> bool) (s : string) : string * string :=
  match s with
  | EmptyString => (EmptyString, EmptyString)
  | String c rest =>
      if p c then let '(a, b) := span p rest in (String c a, b)
      else (EmptyString, s)
  end.

(** The regular expression [=>\s+(\S+)\s+\(] anchored right after an
    occurrence of [=>]: each of the three runs is forced to be maximal (a
    white run must stop where the non-white group starts, the group where
    white space resumes, and the last run before the parenthesis), so the
    match needs no backtracking. *)
Definition arrow_tail (s : string) : option string :=
  let '(w1, r1) := span is_space s in
  if String.eqb w1 EmptyString then None else
  let '(g, r2) := span (fun c => negb (is_space c)) r1 in
  if String.eqb g EmptyString then None else
  let '(w2, r3) := span is_space r2 in
  if String.eqb w2 EmptyString then None else
  match r3 with
  | String "(" _ => Some g
  | _ => None
  end.

(** [re.search(r'=>\s+(\S+)\s+\(', line)], returning group 1: the leftmost
    occurrence of [=>] at which the rest of the pattern matches. *)
Fixpoint search_arrow (s : string) : option string :=
  match s with
  | EmptyString => None
  | String c rest =>
      match (if Ascii.eqb c "=" then
               match rest with
               | String ">" tail => arrow_tail tail
               | _ => None
               end
             else None) with
      | Some g => Some g
      | None => search_arrow rest
      end
  end.

(** [sorted(xs)] on strings: insertion into a list ordered by code
    points. *)
Fixpoint insert_sorted (x : string) (xs : list string) : list string :=
  match xs with
  | [] => [x]
  | y :: ys => if String.leb x y then x :: xs else y :: insert_sorted x ys
  end.

Definition sorted (xs : list string) : list string :=
  fold_right insert_sorted [] xs.

End PyStr.


(** ** Data model *)

(** The dict [run_cmd] returns (its [ts] field is left out). *)
Record CommandResult := mkResult {
  cr_cmd : string;
  cr_exit : Z;
  cr_stdout : string;
  cr_stderr : string
}.

Inductive StrategyKind := PackageManager | SideInstall.

(** [strategy['reason']]: either the formatted list of detected managers
    or the fixed text of the fallback. *)
Inductive Reason :=
| ManagersFound (pms : list string)
| NoKnownManager.

Record Strategy := mkStrategy { st_type : StrategyKind; st_reason : Reason }.

Inductive BuildStatus := StatusOk | StatusError.

(** The dict [side_install_from_source] returns: the key ['prefix'] is
    present or not. *)
Record BuildResult := mkBuild {
  br_status : BuildStatus;
  br_prefix : option string;
  br_steps : list CommandResult
}.

Record SmokeCheck := mkCheck { sc_name : string; sc_ok : bool }.

Inductive Verdict := Pass | Fail | NoChecks.

Record SmokeResults := mkSmoke { sr_status : Verdict; sr_checks : list SmokeCheck }.

(** What [decide_and_execute] returns. *)
Inductive RunResult :=
| DryRun (s : Strategy)
| Aborted
| Done (success : bool).

(** The [stdout] field of a log entry: text, or the value whose
    serialisation ([json.dumps], an f-string) the source writes there. *)
Inductive Payload :=
| Text (s : string)
| JsonStrategy (s : Strategy)
| PlannedStrategy (s : Strategy)
| JsonBuild (r : BuildResult)
| JsonSmoke (r : SmokeResults).

(** A dict handed to [log_step]. *)
Record Entry := mkEntry {
  en_step : option string;
  en_cmd : string;
  en_exit : Z;
  en_stdout : Payload;
  en_stderr : string
}.

Definition entry_of (r : CommandResult) : Entry :=
  mkEntry None (cr_cmd r) (cr_exit r) (Text (cr_stdout r)) (cr_stderr r).

Definition step_entry (step cmd : string) (code : Z) (out : Payload) (err : string) : Entry :=
  mkEntry (Some step) cmd code out err.

(** How [shutil.copy2] ended: done; failed before the destination was
    created; failed after it was created. *)
Inductive CopyOutcome := CopyDone | CopyFailed | CopyBroken.

(** How a call that hands nothing back ended: it went through, or it
    raised an exception [e], of which [str(e)] is kept. *)
Inductive Attempt := Worked | Raised (msg : string).

(** How [with open(path, 'w') as f: f.write(...)] ended: done; [open]
    raised, so no file was created; the file was opened, so it exists, and
    the write raised. *)
Inductive WriteOutcome :=
| WriteDone
| WriteRefused (msg : string)
| WriteBroken (msg : string).

(** What [generate_readme] writes, as data. *)
Record Report := mkReport {
  rp_strategy : Strategy;
  rp_success : option bool;
  rp_artifacts : list string
}.

(** Everything the agent does to the host, in the order it does it. *)
Inductive Event :=
| EvRun (argv : list string) (cwd : option string) (r : CommandResult)
| EvLog (e : Entry)
| EvSnapshot (path content : string)
| EvPrompt (items : list string)
| EvInput (line : option string)
| EvMkdir (path : string)
| EvCopy (src dst : string) (o : CopyOutcome)
| EvWrite (path content : string)
| EvArchive (tarball dir : string) (ok : bool)
| EvMkdtemp (dir : option string)
| EvUrlopen (url dst : string) (ok : bool)
| EvReadme (path : string) (r : Report).

(** The state of a run: the paths that exist, the trace (oldest event
    first) and [self.artifacts]. *)
Record State := mkState {
  fs : gset string;
  trace : list Event;
  artifacts : list string
}.

(** How [subprocess.run] ended: the process ran (exit code, output, and
    the filesystem it left); it could not be started; or it ran, leaving
    [fs'], and the call raised afterwards (output that cannot be decoded
    under [text=True]).  [msg] is [str(e)]. *)
Inductive ProcOutcome :=
| Started (code : Z) (out err : string) (fs' : gset string)
| NotStarted (msg : string)
| Lost (msg : string) (fs' : gset string).

(** The host.  Each oracle sees the whole state of the run. *)
Record Host := mkHost {
  h_nt : bool;                                   (* os.name == 'nt' *)
  h_which : State -> string -> option string;    (* shutil.which *)
  h_exec : State -> list string -> option string -> ProcOutcome;
  h_input : State -> option string;              (* input(); None = EOF *)
  h_copy : State -> string -> string -> CopyOutcome;
  h_glob : State -> string -> option (list string);
  h_mkdir : State -> string -> Attempt;          (* Path.mkdir(parents, exist_ok) *)
  h_sha256 : State -> string -> option string;   (* sha256_of_file; None: it raised *)
  h_write : State -> string -> WriteOutcome;     (* open(path,'w') and write *)
  h_archive : State -> string -> string -> Attempt; (* tarfile.open and add *)
  h_isdir : State -> string -> bool;             (* os.path.isdir *)
  h_mkdtemp : State -> option string;            (* None: it raised *)
  h_urlopen : State -> string -> string -> Attempt; (* urlopen(url), saved to dst *)
  h_srcdir : State -> string -> option string;   (* first openssl-* entry *)
  h_path_str : string -> string;                 (* str(pathlib.Path(p)) *)
  h_os_join : string -> string -> string;        (* os.path.join(a, b) *)
  h_cpu_count : option nat;                      (* os.cpu_count() *)
  h_systemroot : option string                   (* %SystemRoot% *)
}.

Record Args := mkArgs {
  app_path : option string;
  target_version : string;
  dry_run : bool;
  health_url : option string;
  force : bool
}.

(** The fields [__init__] sets: [log_dir] and [backup_dir] already end in
    the run identifier. *)
Record Agent := mkAgent {
  args : Args;
  platform : string;
  log_dir : string;
  backup_dir_parent : string;
  run_id : string
}.

(** [__init__]'s normalisation of [platform.system().lower()], given
    [platform.platform()]. *)
Definition normalize_platform (system descr : string) : string :=
  let p := PyStr.lower system in
  if String.eqb p "sunos" then "sunos"
  else if String.eqb p "hp-ux" || PyStr.contains "hp-ux" (PyStr.lower descr)
  then "hp-ux"
  else p.

(** Python's exceptions, as far as the agent can meet them. *)
Inductive Exn :=
| OSError (what : string)
| StopIteration
| IndexError.

Inductive Outcome (A : Type) :=
| Ret (a : A)
| Raise (e : Exn).
Arguments Ret {A} a.
Arguments Raise {A} e.

(** ** The monad of agent methods *)

Definition M (A : Type) : Type := State -> Outcome A * State.

Definition ret {A} (a : A) : M A := fun s => (Ret a, s).

Definition raise {A} (e : Exn) : M A := fun s => (Raise e, s).

Definition bind {A B} (m : M A) (k : A -> M B) : M B :=
  fun s => match m s with
           | (Ret a, s') => k a s'
           | (Raise e, s') => (Raise e, s')
           end.

Notation "'let!' x ':=' m 'in' k" := (bind m (fun x => k))
  (at level 10, x name, m at level 100, k at level 200).
Notation "m '>>' k" := (bind m (fun _ => k))
  (at level 100, k at level 200, right associativity).

(** Read the state. *)
Definition gets {A} (f : State -> A) : M A := fun s => (Ret (f s), s).

(** Append one event to the trace. *)
Definition emit (e : Event) : M unit :=
  fun s => (Ret tt, mkState (fs s) (trace s ++ [e]) (artifacts s)).

(** A path comes into existence. *)
Definition touch (p : string) : M unit :=
  fun s => (Ret tt, mkState ({[p]} ∪ fs s) (trace s) (artifacts s)).

Definition add_artifact (p : string) : M unit :=
  fun s => (Ret tt, mkState (fs s) (trace s) (artifacts s ++ [p])).

(** [for x in xs: body]. *)
Fixpoint for_each {A} (xs : list A) (body : A -> M unit) : M unit :=
  match xs with
  | [] => ret tt
  | x :: rest => body x >> for_each rest body
  end.

(** Truthiness of an optional string ([None] and [''] are false). *)
Definition truthy (o : option string) : bool :=
  match o with
  | Some s => negb (String.eqb s "")
  | None => false
  end.

(** An optional argument that counts as given. *)
Definition given (o : option string) : option string :=
  if truthy o then o else None.

Definition nl : string := String "010" EmptyString.

(** [pathlib]'s [/] on two relative-safe parts. *)
Definition path_join (dir name : string) : string := dir ++ "/" ++ name.

(** [pathlib.Path(p).name]: the last component, empty components and [.]
    apart; on Windows a backslash separates too. *)
Definition path_name (nt : bool) (p : string) : string :=
  let p' := if nt then PyStr.replace_char "\" "/" p else p in
  let parts := List.filter (fun c => negb (String.eqb c "" || String.eqb c "."))
                      (PyStr.split_on "/" p') in
  List.last parts "".

(** [str(n)] for a natural number. *)
Definition str_of_nat (n : nat) : string :=
  NilEmpty.string_of_uint (Nat.to_uint n).

(** ** The agent's methods *)

Section AgentMethods.

Variable H : Host.
Variable A : Agent.

Definition backup_dir : string := path_join (backup_dir_parent A) (run_id A).
Definition pre_dir : string := path_join (log_dir A) "pre".
Definition post_dir : string := path_join (log_dir A) "post".
Definition jsonl_path : string := path_join (log_dir A) "agent-run.jsonl".
Definition commands_log : string := path_join (log_dir A) "commands.log".
Definition readme_path : string := path_join (log_dir A) "README.md".

(** *** Probes and primitive effects *)

(** [shutil.which(name)]. *)
Definition which (name : string) : M (option string) :=
  gets (fun s => h_which H s name).

(** Truthiness of what [shutil.which] returns. *)
Definition found (o : option string) : bool :=
  match o with Some _ => true | None => false end.

(** [Path.exists()] and [os.path.exists]. *)
Definition path_exists (p : string) : M bool :=
  gets (fun s => bool_decide (p ∈ fs s)).

(** The command line [run_cmd] starts: [sudo] is put in front when asked
    for, except on Windows. *)
Definition with_sudo (sudo : bool) (cmd : list string) : list string :=
  if sudo && negb (h_nt H) then "sudo" :: cmd else cmd.

(** [run_cmd]: never raises; whatever [subprocess.run] raises, before or
    after the process ran, is reported with exit code 255. *)
Definition run_cmd (cmd : list string) (cwd : option string) (sudo : bool)
  : M CommandResult :=
  fun s =>
    let cmd' := with_sudo sudo cmd in
    match h_exec H s cmd' cwd with
    | Started code out err fs' =>
        let r := mkResult (PyStr.join " " cmd') code
                          (PyStr.strip out) (PyStr.strip err) in
        (Ret r, mkState fs' (trace s ++ [EvRun cmd' cwd r]) (artifacts s))
    | NotStarted msg =>
        let r := mkResult (PyStr.join " " cmd') 255 "" msg in
        (Ret r, mkState (fs s) (trace s ++ [EvRun cmd' cwd r]) (artifacts s))
    | Lost msg fs' =>
        let r := mkResult (PyStr.join " " cmd') 255 "" msg in
        (Ret r, mkState fs' (trace s ++ [EvRun cmd' cwd r]) (artifacts s))
    end.

(** [log_step]: one line in each of the two log files. *)
Definition log_step (e : Entry) : M unit :=
  emit (EvLog e) >> touch jsonl_path >> touch commands_log.

Inductive When := Pre | Post.

(** [log_snapshot_file]. *)
Definition log_snapshot_file (when : When) (name content : string) : M unit :=
  let path := path_join (match when with Pre => pre_dir | Post => post_dir end)
                        name in
  emit (EvSnapshot path content) >> touch path >> add_artifact path.

(** [open(path, 'w').write(content)] where the source expects no failure. *)
Definition write_file (path content : string) : M unit :=
  emit (EvWrite path content) >> touch path.

(** [shutil.copy2], its exception turned into a value for the caller to
    act on. *)
Definition copy2 (src dst : string) : M CopyOutcome :=
  let! o := gets (fun s => h_copy H s src dst) in
  emit (EvCopy src dst o) >>
  match o with
  | CopyFailed => ret o
  | _ => touch dst >> ret o
  end.

(** [xs[i]]. *)
Definition item {X} (xs : list X) (i : nat) : M X :=
  match nth_error xs i with
  | Some x => ret x
  | None => raise IndexError
  end.

(** A loop that carries a value. *)
Fixpoint foldM {X B} (f : B -> X -> M B) (xs : list X) (b : B) : M B :=
  match xs with
  | [] => ret b
  | x :: rest => let! b' := f b x in foldM f rest b'
  end.

(** The pattern "run, log, snapshot, return" of the detection methods. *)
Definition inspect (cmd : list string) (snapshot : string) : M Entry :=
  let! r := run_cmd cmd None false in
  log_step (entry_of r) >>
  log_snapshot_file Pre snapshot (cr_stdout r ++ nl ++ cr_stderr r) >>
  ret (entry_of r).

(** *** Detection *)

Definition detect_openssl_cli : M Entry :=
  let! w := which "openssl" in
  if found w then inspect ["openssl"; "version"; "-a"] "openssl-version.txt"
  else
    let entry := step_entry "detect-openssl-cli" "openssl not found" 254
                            (Text "") "openssl not in PATH" in
    log_step entry >> ret entry.

Definition pm_candidates : list string :=
  ["apt"; "dnf"; "yum"; "apk"; "zypper"; "brew"; "pkg"; "pkgutil";
   "swinstall"; "pkgadd"; "installp"; "rpm"; "dpkg"; "choco"; "winget"].

(** The loop only reads the host, so it is a filter over the candidates
    in their order. *)
Definition detect_package_managers : M (list string) :=
  let! pm := gets (fun s => List.filter (fun p => found (h_which H s p))
                                   pm_candidates) in
  log_step (step_entry "detect-package-managers" "detected" 0
                       (Text (PyStr.join "," pm)) "") >>
  ret pm.

Definition unix_families : list string :=
  ["linux"; "darwin"; "sunos"; "aix"; "hp-ux"].

(** The tools are handed [str(app)], the path as [pathlib] writes it;
    the message of a missing application has [app_path] as it was given. *)
Definition detect_application_linking (app_path : string) : M Entry :=
  let app := h_path_str H app_path in
  let! there := path_exists app in
  if negb there then
    let entry := step_entry "detect-app" ("app not found: " ++ app_path) 254
                            (Text "") "app not found" in
    log_step entry >> ret entry
  else
    let p := platform A in
    let unix := PyStr.mem p unix_families in
    let! ldd := which "ldd" in
    let! otool := which "otool" in
    let! dump := which "dump" in
    let! chatr := which "chatr" in
    if unix && found ldd then inspect ["ldd"; app] "ldd-app.txt"
    else if unix && String.eqb p "darwin" && found otool
    then inspect ["otool"; "-L"; app] "otool-app.txt"
    else if unix && String.eqb p "aix" && found dump
    then inspect ["dump"; "-H"; app] "dump-app.txt"
    else if unix && String.eqb p "hp-ux" && found chatr
    then inspect ["chatr"; app] "chatr-app.txt"
    else if String.eqb p "windows"
    then inspect ["powershell"; "-Command";
                  "Get-Process -FileVersionInfo (Get-Item '" ++ app
                  ++ "').VersionInfo | Out-String"]
                 "windows-app-info.txt"
    else
      let entry := step_entry "detect-app" "no-linking-tool-found" 253
                              (Text "") "linker inspection tools not found" in
      log_step entry >> ret entry.

(** *** Backup *)

(** [os.path.join] of two parts, by the rules of the host's path
    flavour. *)
Definition os_join (dir name : string) : string := h_os_join H dir name.

(** The patterns of the library files; on Windows the one pattern is
    [os.path.join(SystemRoot, 'System32', 'libssl*')], parts joined from the
    left. *)
Definition lib_globs : list string :=
  if String.eqb (platform A) "windows"
  then [os_join (os_join (match h_systemroot H with
                          | Some r => r
                          | None => "C:\Windows"
                          end) "System32") "libssl*"]
  else ["/usr/lib*/libssl*"; "/usr/local/lib*/libssl*"; "/opt/lib*/libssl*";
        "/usr/lib*/libcrypto*"; "/usr/local/lib*/libcrypto*"].

(** The destination a library path is copied to. *)
Definition lib_dest (p_str : string) : string :=
  path_join backup_dir ("lib_" ++ path_name (h_nt H) p_str).

(** Body of the inner loop: skip when the destination exists, and carry on
    when the copy raises. *)
Definition backup_lib (saved : list string) (p_str : string)
  : M (list string) :=
  let dest := lib_dest p_str in
  let! there := path_exists dest in
  if there then ret saved
  else
    let! o := copy2 p_str dest in
    match o with
    | CopyDone => ret (saved ++ [dest])%list
    | _ => ret saved
    end.

(** Body of the outer loop: a [glob] that raises is skipped. *)
Definition backup_pattern (saved : list string) (pattern : string)
  : M (list string) :=
  let! g := gets (fun s => h_glob H s pattern) in
  match g with
  | Some paths => foldM backup_lib paths saved
  | None => ret saved
  end.

Definition openssl_binary_dest : string := path_join backup_dir "openssl_binary".
Definition backup_tarball : string := backup_dir ++ ".tar.gz".

Definition checksum_path : string := path_join backup_dir "openssl_binary.sha256".

(** The checksum file of the saved tool binary: it is opened for writing
    first, then the digest is computed and written.  Nothing here is
    inside a [try]. *)
Definition write_checksum (target : string) : M unit :=
  let! w := gets (fun s => h_write H s checksum_path) in
  match w with
  | WriteRefused _ => raise (OSError "open")
  | WriteDone =>
      touch checksum_path >>
      let! sum := gets (fun s => h_sha256 H s target) in
      match sum with
      | Some digest => emit (EvWrite checksum_path digest)
      | None => raise (OSError "sha256")
      end
  | WriteBroken _ =>
      touch checksum_path >>
      let! sum := gets (fun s => h_sha256 H s target) in
      match sum with
      | Some _ => raise (OSError "write")
      | None => raise (OSError "sha256")
      end
  end.

(** The tool binary, when there is one: the copy and the checksum. *)
Definition backup_tool (openssl_path : option string) : M (list string) :=
  match openssl_path with
  | Some src =>
      let target := openssl_binary_dest in
      let! o := copy2 src target in
      match o with
      | CopyDone => write_checksum target >> ret [target]
      | _ => raise (OSError "copy2")
      end
  | None => ret []
  end.

(** The archive of the backup directory; a failure is logged with the
    text of the exception. *)
Definition archive_backup : M unit :=
  let! a := gets (fun s => h_archive H s backup_tarball backup_dir) in
  match a with
  | Worked =>
      emit (EvArchive backup_tarball backup_dir true) >>
      touch backup_tarball >>
      log_step (step_entry "backup" ("created " ++ backup_tarball) 0 (Text "") "") >>
      add_artifact backup_tarball
  | Raised msg =>
      emit (EvArchive backup_tarball backup_dir false) >>
      log_step (step_entry "backup" "tar-failed" 1 (Text "") msg)
  end.

Definition prepare_backup : M (list string) :=
  let! made := gets (fun s => h_mkdir H s backup_dir) in
  match made with
  | Raised _ => raise (OSError "mkdir")
  | Worked =>
      emit (EvMkdir backup_dir) >> touch backup_dir >>
      let! openssl_path := which "openssl" in
      let! saved := backup_tool openssl_path in
      let! saved := foldM backup_pattern lib_globs saved in
      archive_backup >>
      ret saved
  end.

(** *** Side-install from source *)

(** Step 0: the build tools that are not on the host. *)
Definition missing_tools (s : State) : list string :=
  let has t := found (h_which H s t) in
  (if String.eqb (platform A) "windows" then
     (if negb (has "perl") then ["perl"] else []) ++
     (if negb (has "cl" || has "gcc") then ["C compiler (cl or gcc)"] else [])
   else
     (if negb (has "make") && negb (has "gmake") then ["make"] else []) ++
     (if negb (has "perl") then ["perl"] else []) ++
     (if negb (has "gcc" || has "cc" || has "clang")
      then ["C compiler"] else []))%list.

(** [return result] on a failure path: the status is still ['error'] and
    no ['prefix'] key was set. *)
Definition failed (steps : list CommandResult) : BuildResult :=
  mkBuild StatusError None steps.

(** The primary and the alternative configure command. *)
Definition cfg_cmd (prefix : string) : list string :=
  if PyStr.mem (platform A) ["aix"; "hp-ux"; "sunos"]
  then ["./Configure"; "--prefix=" ++ prefix; "shared"]
  else ["./config"; "--prefix=" ++ prefix; "shared"].

Definition alt_cmd (prefix : string) : list string :=
  ["./Configure"; "linux-x86_64"; "--prefix=" ++ prefix; "shared"].

(** [make -j N], with [gmake] when [shutil.which] found it. *)
Definition make_cmd (gmake : option string) : list string :=
  [if found gmake then "gmake" else "make"; "-j";
   str_of_nat (Nat.max 1 (match h_cpu_count H with
                          | Some n => n
                          | None => 1%nat
                          end))].

Definition test_cmd : list string := ["make"; "test"].

Definition install_cmd (prefix : string) : list string :=
  ["make"; "install"; "PREFIX=" ++ prefix].

(** Step 7: register the library path where [/etc/ld.so.conf.d] exists;
    a failure to write is recorded and does not change the status. *)
Definition si_register (version prefix : string)
  (steps : list CommandResult) : M BuildResult :=
  let! isdir := gets (fun s => h_isdir H s "/etc/ld.so.conf.d") in
  let! steps' :=
    if isdir then
      let conf_path := "/etc/ld.so.conf.d/openssl-" ++ version ++ ".conf" in
      let! w := gets (fun s => h_write H s conf_path) in
      match w with
      | WriteDone =>
          let e := mkResult ("write " ++ conf_path) 0 "" "" in
          write_file conf_path (os_join prefix "lib" ++ nl) >>
          log_step (entry_of e) >>
          let! ldconfig := which "ldconfig" in
          if found ldconfig then
            let! r := run_cmd ["ldconfig"] None true in
            log_step (entry_of r) >> ret (steps ++ [e; r])%list
          else ret (steps ++ [e])%list
      | WriteRefused msg =>
          let e := mkResult "write-ldconf-failed" 1 "" msg in
          log_step (entry_of e) >> ret (steps ++ [e])%list
      | WriteBroken msg =>
          let e := mkResult "write-ldconf-failed" 1 "" msg in
          touch conf_path >> log_step (entry_of e) >> ret (steps ++ [e])%list
      end
    else ret steps in
  ret (mkBuild StatusOk (Some prefix) steps').

(** Step 6: [make install]. *)
Definition si_install (version prefix srcdir : string)
  (steps : list CommandResult) : M BuildResult :=
  let! r := run_cmd (install_cmd prefix) (Some srcdir) false in
  log_step (entry_of r) >>
  if cr_exit r =? 0 then si_register version prefix (steps ++ [r])
  else ret (failed (steps ++ [r])).

(** Step 5: [make test], whose exit code is not looked at. *)
Definition si_test (version prefix srcdir : string)
  (steps : list CommandResult) : M BuildResult :=
  let! r := run_cmd test_cmd (Some srcdir) false in
  log_step (entry_of r) >>
  si_install version prefix srcdir (steps ++ [r]).

(** Step 4: [make]. *)
Definition si_make (version prefix srcdir : string)
  (steps : list CommandResult) : M BuildResult :=
  let! gmake := which "gmake" in
  let! r := run_cmd (make_cmd gmake) (Some srcdir) false in
  log_step (entry_of r) >>
  if cr_exit r =? 0 then si_test version prefix srcdir (steps ++ [r])
  else ret (failed (steps ++ [r])).

(** Step 3: configure, then the alternative when the first exit code is
    not zero. *)
Definition si_configure (version prefix srcdir : string)
  (steps : list CommandResult) : M BuildResult :=
  let! r := run_cmd (cfg_cmd prefix) (Some srcdir) false in
  log_step (entry_of r) >>
  if cr_exit r =? 0 then si_make version prefix srcdir (steps ++ [r])
  else
    let! r2 := run_cmd (alt_cmd prefix) (Some srcdir) false in
    log_step (entry_of r2) >>
    if cr_exit r2 =? 0 then si_make version prefix srcdir (steps ++ [r; r2])
    else ret (failed (steps ++ [r; r2])).

(** Step 2: extract, then [next(...glob('openssl-*'))], which raises
    [StopIteration] when nothing matches. *)
Definition si_extract (version prefix workdir tarball : string)
  (steps : list CommandResult) : M BuildResult :=
  let! r := run_cmd ["tar"; "xzf"; os_join workdir tarball; "-C"; workdir]
                    None false in
  log_step (entry_of r) >>
  if cr_exit r =? 0 then
    let! d := gets (fun s => h_srcdir H s workdir) in
    match d with
    | Some srcdir => si_configure version prefix srcdir (steps ++ [r])
    | None => raise StopIteration
    end
  else ret (failed (steps ++ [r])).

(** Step 1: download with curl, then with urllib when curl failed. *)
Definition si_download (version prefix workdir : string) : M BuildResult :=
  let tarball := "openssl-" ++ version ++ ".tar.gz" in
  let url := "https://www.openssl.org/source/" ++ tarball in
  let! r := run_cmd ["bash"; "-lc";
                     "curl -fL " ++ url ++ " -o " ++ workdir ++ "/" ++ tarball]
                    None false in
  log_step (entry_of r) >>
  if cr_exit r =? 0 then si_extract version prefix workdir tarball [r]
  else
    let dst := os_join workdir tarball in
    let! a := gets (fun s => h_urlopen H s url dst) in
    match a with
    | Worked =>
        let e := mkResult "urllib-download" 0
                          ("downloaded to " ++ workdir ++ "/" ++ tarball) "" in
        emit (EvUrlopen url dst true) >>
        touch dst >> log_step (entry_of e) >>
        si_extract version prefix workdir tarball [r; e]
    | Raised msg =>
        let e := mkResult "download-failed" 1 "" msg in
        emit (EvUrlopen url dst false) >>
        log_step (entry_of e) >> ret (failed [r; e])
    end.

Definition side_install_from_source (version : string)
  (prefix : option string) : M BuildResult :=
  let prefix := match prefix with
                | Some p => p
                | None => "/opt/openssl-" ++ version
                end in
  let! tmp := gets (h_mkdtemp H) in
  emit (EvMkdtemp tmp) >>
  match tmp with
  | None => raise (OSError "mkdtemp")
  | Some workdir =>
      touch workdir >>
      let! missing := gets missing_tools in
      match missing with
      | [] => si_download version prefix workdir
      | _ =>
          let e := mkResult "check-build-tools" 1 ""
                     ("Missing build tools: " ++ PyStr.join ", " missing) in
          log_step (entry_of e) >> ret (failed [e])
      end
  end.

(** *** Dependency management *)

(** [parts[idx+1]] for the first [idx] with [parts[idx] == marker], under
    the guard [idx + 1 < len(parts)]; a missing marker is the [ValueError]
    the source catches. *)
Definition after_marker (marker : string) (parts : list string)
  : M (option string) :=
  match PyStr.index_of marker parts with
  | Some idx =>
      if (idx + 1 <? length parts)%nat
      then let! x := item parts (idx + 1) in ret (Some x)
      else ret None
  | None => ret None
  end.

(** The loop over the lines [lslpp -w] printed. *)
Fixpoint lslpp_owner (lib_path : string) (lines : list string)
  : M (option string) :=
  match lines with
  | [] => ret None
  | line :: rest =>
      if PyStr.contains lib_path line then
        let parts := PyStr.split line in
        if (2 <=? length parts)%nat
        then let! x := item parts 1 in ret (Some x)
        else lslpp_owner lib_path rest
      else lslpp_owner lib_path rest
  end.

Definition resolve_package_owner (lib_path : string) : M (option string) :=
  let p := platform A in
  if String.eqb p "linux" then
    let! dpkg := which "dpkg" in
    if found dpkg then
      let! r := run_cmd ["dpkg"; "-S"; lib_path] None false in
      if (cr_exit r =? 0) && PyStr.contains ":" (cr_stdout r)
      then let! x := item (PyStr.split_on ":" (cr_stdout r)) 0 in
           ret (Some (PyStr.strip x))
      else ret None
    else
      let! rpm := which "rpm" in
      if found rpm then
        let! r := run_cmd ["rpm"; "-qf"; lib_path] None false in
        if cr_exit r =? 0 then ret (Some (PyStr.strip (cr_stdout r)))
        else ret None
      else ret None
  else if String.eqb p "darwin" then
    if PyStr.contains "Cellar" lib_path
    then after_marker "Cellar" (PyStr.split_on "/" lib_path)
    else ret None
  else if String.eqb p "aix" then
    let! r := run_cmd ["lslpp"; "-w"; lib_path] None false in
    lslpp_owner lib_path (PyStr.splitlines (cr_stdout r))
  else if String.eqb p "sunos" then
    let! pkg := which "pkg" in
    if found pkg then
      let! r := run_cmd ["pkg"; "search"; "-l"; "-H"; "-o"; "pkg.name"; lib_path]
                        None false in
      if (cr_exit r =? 0)
         && negb (String.eqb (PyStr.strip (cr_stdout r)) "")
      then let! x := item (PyStr.split (PyStr.strip (cr_stdout r))) 0 in
           ret (Some x)
      else ret None
    else
      let! pkgchk := which "pkgchk" in
      if found pkgchk
      then run_cmd ["pkgchk"; "-l"; "-p"; lib_path] None false >> ret None
      else ret None
  else if String.eqb p "windows" then
    if PyStr.contains "chocolatey" (PyStr.lower lib_path)
       && PyStr.contains "lib" (PyStr.lower lib_path)
    then after_marker "lib"
           (PyStr.split_on "/" (PyStr.replace_char "\" "/" lib_path))
    else ret None
  else ret None.

(** [confirm_upgrade]: announce the items; proceed at once under
    [--force], otherwise on the answer [y]. *)
Definition confirm_upgrade (items : list string) : M bool :=
  emit (EvPrompt items) >>
  if force (args A) then ret true
  else
    let! line := gets (h_input H) in
    emit (EvInput line) >>
    match line with
    | None => ret false
    | Some l => ret (String.eqb (PyStr.lower (PyStr.strip l)) "y")
    end.

(** [self.log_step(run_cmd(cmd, sudo=...))]. *)
Definition run_logged (cmd : list string) (sudo : bool) : M unit :=
  let! r := run_cmd cmd None sudo in log_step (entry_of r).

(** Paths the pattern finds in [ldd] output, line by line. *)
Definition ldd_paths (out : string) : list string :=
  omap PyStr.search_arrow (PyStr.splitlines out).

(** The loop over [otool -L] output. *)
Definition otool_line (libs : list string) (line : string)
  : M (list string) :=
  let line := PyStr.strip line in
  if PyStr.startswith "/" line then
    let! path := item (PyStr.split line) 0 in
    let! there := path_exists path in
    ret (if there then libs ++ [path] else libs)%list
  else ret libs.

(** Step 1 of [upgrade_application_dependencies]: the libraries. *)
Definition identify_libraries (app : string) : M (list string) :=
  let p := platform A in
  if PyStr.mem p ["linux"; "sunos"] then
    let! r := run_cmd ["ldd"; app] None false in
    if cr_exit r =? 0
    then gets (fun s => List.filter (fun path => bool_decide (path ∈ fs s))
                               (ldd_paths (cr_stdout r)))
    else ret []
  else if String.eqb p "darwin" then
    let! r := run_cmd ["otool"; "-L"; app] None false in
    if cr_exit r =? 0
    then foldM otool_line (PyStr.splitlines (cr_stdout r)) []
    else ret []
  else if String.eqb p "aix" then
    let! ldd := which "ldd" in
    if found ldd then
      let! r := run_cmd ["ldd"; app] None false in
      ret (ldd_paths (cr_stdout r))
    else ret []
  else if String.eqb p "hp-ux" then
    let! chatr := which "chatr" in
    if found chatr then run_cmd ["chatr"; app] None false >> ret []
    else ret []
  else if String.eqb p "windows" then
    let! dumpbin := which "dumpbin" in
    if found dumpbin
    then run_cmd ["dumpbin"; "/DEPENDENTS"; app] None false >> ret []
    else ret []
  else ret [].

(** Step 2: the set of owning packages. *)
Definition resolve_packages (libs : list string) : M (gset string) :=
  foldM (fun (packages : gset string) lib =>
           let! pkg := resolve_package_owner lib in
           ret (match given pkg with
                | Some name => {[name]} ∪ packages
                | None => packages
                end))
        libs ∅.

Definition openssl_terms : list string := ["openssl"; "libssl"; "libcrypto"].

(** Step 3: leave OpenSSL's own packages out, and sort. *)
Definition packages_to_upgrade (packages : gset string) : list string :=
  PyStr.sorted
    (List.filter (fun p => negb (existsb (fun x => PyStr.contains x p) openssl_terms))
            (elements packages)).

(** Step 4: the platform's upgrade command for the named packages. *)
Definition upgrade_packages (pkgs : list string) : M unit :=
  let p := platform A in
  if String.eqb p "linux" then
    let! apt := which "apt" in
    let! yum := which "yum" in
    let! dnf := which "dnf" in
    let! apk := which "apk" in
    if found apt
    then run_logged (["apt"; "install"; "--only-upgrade"; "-y"] ++ pkgs)%list true
    else if found yum then run_logged (["yum"; "update"; "-y"] ++ pkgs)%list true
    else if found dnf then run_logged (["dnf"; "update"; "-y"] ++ pkgs)%list true
    else if found apk then run_logged (["apk"; "add"; "--upgrade"] ++ pkgs)%list true
    else ret tt
  else if String.eqb p "darwin" then
    let! brew := which "brew" in
    if found brew then run_logged (["brew"; "upgrade"] ++ pkgs)%list false
    else ret tt
  else if String.eqb p "windows" then
    let! choco := which "choco" in
    if found choco then run_logged (["choco"; "upgrade"; "-y"] ++ pkgs)%list false
    else ret tt
  else if String.eqb p "sunos" then
    let! pkg := which "pkg" in
    if found pkg then run_logged (["pkg"; "update"] ++ pkgs)%list true
    else ret tt
  else if String.eqb p "aix" then
    let! yum := which "yum" in
    if found yum then run_logged (["yum"; "update"; "-y"] ++ pkgs)%list true
    else ret tt
  else ret tt.

Definition upgrade_application_dependencies (app : string) : M unit :=
  log_step (step_entry "dep-check" "checking-dependencies" 0 (Text "") "") >>
  let! libs := identify_libraries app in
  let! packages := resolve_packages libs in
  let pkgs := packages_to_upgrade packages in
  match pkgs with
  | [] => ret tt
  | _ =>
      let! ok := confirm_upgrade pkgs in
      if ok then upgrade_packages pkgs else ret tt
  end.

(** *** Smoke tests and report *)

(** The final status of [run_smoke_tests], from the list of checks. *)
Definition smoke_status (checks : list SmokeCheck) : Verdict :=
  if forallb sc_ok checks && negb (match checks with [] => true | _ => false end)
  then Pass
  else match checks with
       | [] => NoChecks
       | _ => Fail
       end.

(** Body of the loop over the binaries to check. *)
Definition check_binary (checks : list SmokeCheck) (bin_path : string)
  : M (list SmokeCheck) :=
  let! r := run_cmd [bin_path; "version"; "-a"] None false in
  log_step (entry_of r) >>
  log_snapshot_file Post
    ("openssl-version-" ++ path_name (h_nt H) bin_path ++ ".txt")
    (cr_stdout r ++ nl ++ cr_stderr r) >>
  ret (checks ++ [mkCheck ("openssl-version-" ++ bin_path)
                          (PyStr.contains (target_version (args A))
                                          (cr_stdout r))])%list.

Definition side_install_bin : string :=
  "/opt/openssl-" ++ target_version (args A) ++ "/bin/openssl".

Definition run_smoke_tests : M SmokeResults :=
  let! w := which "openssl" in
  let! side := path_exists side_install_bin in
  let bins_to_check :=
    ((match w with Some p => [p] | None => [] end)
     ++ (if side then [side_install_bin] else []))%list in
  let! checks := foldM check_binary bins_to_check [] in
  let! w' := which "openssl" in
  let! checks :=
    match given (health_url (args A)) with
    | Some host =>
        if found w' then
          let! r := run_cmd ["bash"; "-lc";
                             "echo | openssl s_client -connect " ++ host
                             ++ ":443 -servername " ++ host ++ " -brief"]
                            None false in
          log_step (entry_of r) >>
          ret (checks ++ [mkCheck "openssl-s_client" (cr_exit r =? 0)])%list
        else ret checks
    | None => ret checks
    end in
  let! curl := which "curl" in
  let! checks :=
    match given (health_url (args A)) with
    | Some url =>
        if found curl then
          let! r := run_cmd ["curl"; "--fail"; "--silent"; "--show-error"; url]
                            None false in
          log_step (entry_of r) >>
          ret (checks ++ [mkCheck "http-health" (cr_exit r =? 0)])%list
        else ret checks
    | None => ret checks
    end in
  let results := mkSmoke (smoke_status checks) checks in
  log_step (step_entry "smoke-tests" "completed" 0 (JsonSmoke results) "") >>
  ret results.

Definition generate_readme (strategy : Strategy) (success : option bool)
  : M unit :=
  let! arts := gets artifacts in
  emit (EvReadme readme_path (mkReport strategy success arts)) >>
  touch readme_path >>
  log_step (step_entry "generate-readme" ("write " ++ readme_path) 0
                       (Text "") "") >>
  add_artifact readme_path.

(** *** Orchestration *)

Definition first_class : list string :=
  ["apt"; "dnf"; "yum"; "apk"; "zypper"; "brew"; "pkg"].

(** Step 5 of [decide_and_execute]. *)
Definition choose_strategy (pms : list string) : Strategy :=
  if existsb (fun pm => PyStr.mem pm pms) first_class
  then mkStrategy PackageManager (ManagersFound pms)
  else mkStrategy SideInstall NoKnownManager.

(** The one item the operator is asked about before a source build. *)
Definition source_build_item : string :=
  "OpenSSL " ++ target_version (args A) ++ " (source build)".

(** The source build as step 7 runs it, in both places where it does:
    confirm, build, log the result.  [false] stands for the early
    [return {'status': 'aborted', ...}]. *)
Definition source_build : M bool :=
  let tv := target_version (args A) in
  let! ok := confirm_upgrade [source_build_item] in
  if negb ok then ret false
  else
    let! res := side_install_from_source tv None in
    log_step (step_entry "side-install-result" "side-install"
                (match br_status res with StatusOk => 0 | StatusError => 1 end)
                (JsonBuild res) "") >>
    ret true.

(** A package-manager branch of step 7: confirm, then two logged
    commands. *)
Definition pm_upgrade (items : list string) (c1 c2 : list string) : M bool :=
  let! ok := confirm_upgrade items in
  if negb ok then ret false
  else run_logged c1 false >> run_logged c2 false >> ret true.

(** Step 7 of [decide_and_execute]. *)
Definition perform_upgrade (strategy : Strategy) (pms : list string)
  : M bool :=
  match st_type strategy with
  | PackageManager =>
      let! pm := item pms 0 in
      if String.eqb pm "apt" then
        pm_upgrade ["openssl"; "libssl-dev"]
          ["apt"; "update"; "-y"]
          ["apt"; "install"; "--only-upgrade"; "-y"; "openssl"; "libssl-dev"]
      else if PyStr.mem pm ["dnf"; "yum"] then
        pm_upgrade ["openssl"] [pm; "makecache"] [pm; "update"; "-y"; "openssl"]
      else if String.eqb pm "apk" then
        pm_upgrade ["openssl"] ["apk"; "update"]
          ["apk"; "add"; "--upgrade"; "openssl"]
      else if String.eqb pm "brew" then
        let! major := item (PyStr.split_on "." (target_version (args A))) 0 in
        let pkg := "openssl@" ++ major in
        pm_upgrade [pkg] ["brew"; "update"] ["brew"; "upgrade"; pkg]
      else source_build
  | SideInstall => source_build
  end.

(** Steps 8 to 10. *)
Definition post_checks (strategy : Strategy) : M RunResult :=
  detect_openssl_cli >>
  match given (app_path (args A)) with
  | Some app => detect_application_linking app >> ret tt
  | None => ret tt
  end >>
  let! smoke := run_smoke_tests in
  let success := match sr_status smoke with Pass => true | _ => false end in
  generate_readme strategy (Some success) >>
  ret (Done success).

(** Steps 5 to 10, from the detected package managers on. *)
Definition execute_strategy (pms : list string) : M RunResult :=
  let strategy := choose_strategy pms in
  log_step (step_entry "strategy" "chosen" 0 (JsonStrategy strategy) "") >>
  if dry_run (args A) then
    log_step (step_entry "dry-run" "planned-actions" 0
                         (PlannedStrategy strategy) "") >>
    generate_readme strategy None >>
    ret (DryRun strategy)
  else
    let! proceed := perform_upgrade strategy pms in
    if proceed then post_checks strategy else ret Aborted.

Definition decide_and_execute : M RunResult :=
  log_step (step_entry "start" "decide_and_execute" 0
                       (Text ("platform=" ++ platform A)) "") >>
  detect_openssl_cli >>
  let! pms := detect_package_managers in
  match given (app_path (args A)) with
  | Some app =>
      detect_application_linking app >>
      upgrade_application_dependencies app
  | None => ret tt
  end >>
  prepare_backup >>
  execute_strategy pms.

End AgentMethods.


(** ** The command line *)

(** What [main] prints once the run is over. *)
Inductive Message :=
| RunComplete (dir : string)
| DryRunOnly
| SeemsSuccessful
| CheckLogs.

(** The closing line: [res.get('status') == 'dry-run'] is tested first,
    then [res.get('success') is True]. *)
Definition closing_message (res : RunResult) : Message :=
  match res with
  | DryRun _ => DryRunOnly
  | Done true => SeemsSuccessful
  | _ => CheckLogs
  end.

(** [main], from the constructed agent on. *)
Definition main (H : Host) (A : Agent) : M (list Message) :=
  let! res := decide_and_execute H A in
  ret [RunComplete (log_dir A); closing_message res].
(** ** Reasoning about computations

    Three judgements cover what follows.  [ends m Q] is the precise one:
    from every state, [m] appends some events [tr] to the trace and ends
    with an outcome [o] such that [Q o tr].  [emits P m] only says that
    every appended event satisfies [P]; it composes without looking at
    values, which suits the long methods.  [returns m Q] says that every
    value [m] ends with satisfies [Q]. *)

Definition ends {X} (m : M X) (Q : Outcome X -> list Event -> Prop) : Prop :=
  forall s, exists tr,
    trace (snd (m s)) = (trace s ++ tr)%list /\ Q (fst (m s)) tr.

(** The same from one state [s], when what the host answers in [s]
    matters. *)
Definition ends_at {X} (m : M X) (s : State)
  (Q : Outcome X -> list Event -> Prop) : Prop :=
  exists tr, trace (snd (m s)) = (trace s ++ tr)%list /\ Q (fst (m s)) tr.

Definition emits {X} (P : Event -> Prop) (m : M X) : Prop :=
  forall s, exists tr,
    trace (snd (m s)) = (trace s ++ tr)%list /\ Forall P tr.

Definition returns {X} (m : M X) (Q : X -> Prop) : Prop :=
  forall s a, fst (m s) = Ret a -> Q a.

(** A postcondition for [ends] that asks for a value. *)
Definition value {X} (Q : X -> list Event -> Prop)
  : Outcome X -> list Event -> Prop :=
  fun o tr => match o with
              | Ret a => Q a tr
              | Raise _ => False
              end.

(** The events a computation appended, given the states around it. *)
Definition new_events (s s' : State) : list Event :=
  drop (length (trace s)) (trace s').

(** An event that is no process at all, or a process whose command line
    passes [q]. *)
Definition on_runs (q : list string -> bool) (e : Event) : Prop :=
  match e with
  | EvRun argv _ _ => q argv = true
  | _ => True
  end.

(** Equality of command lines. *)
Fixpoint argv_eqb (a b : list string) : bool :=
  match a, b with
  | [], [] => true
  | x :: a', y :: b' => String.eqb x y && argv_eqb a' b'
  | _, _ => false
  end.

(** Whether an event runs exactly the command [argv]. *)
Definition is_run (argv : list string) (e : Event) : bool :=
  match e with
  | EvRun a _ _ => argv_eqb a argv
  | _ => false
  end.

(** The build, test and install commands of the pipeline all start
    [make] or [gmake]. *)
Definition is_build_cmd (argv : list string) : bool :=
  match argv with
  | tool :: _ => PyStr.mem tool ["make"; "gmake"]
  | [] => false
  end.

Definition not_build_cmd (argv : list string) : bool :=
  negb (is_build_cmd argv).

(** How often [argv] was run in a trace. *)
Definition count_runs (argv : list string) (tr : list Event) : nat :=
  length (List.filter (is_run argv) tr).

(** How many processes a trace ran. *)
Definition count_processes (tr : list Event) : nat :=
  length (List.filter (fun e => match e with EvRun _ _ _ => true | _ => false end) tr).


(** ** Vocabulary for owner resolution *)

(** Some path segment equal to [marker] is followed by another segment. *)
Definition segment_after (marker : string) (parts : list string) : Prop :=
  exists pre x post, parts = (pre ++ marker :: x :: post)%list.

(** The path heuristics: a Homebrew cellar on darwin, a Chocolatey
    package tree on windows. *)
Definition heuristic_matches (platform lib_path : string) : Prop :=
  (platform = "darwin"
   /\ segment_after "Cellar" (PyStr.split_on "/" lib_path))
  \/ (platform = "windows"
      /\ PyStr.contains "chocolatey" (PyStr.lower lib_path) = true
      /\ segment_after "lib"
           (PyStr.split_on "/" (PyStr.replace_char "\" "/" lib_path))).

(** A row of [lslpp -w] output that names the path and has a second
    column. *)
Definition lslpp_row (lib_path line : string) : bool :=
  PyStr.contains lib_path line && (2 <=? length (PyStr.split line))%nat.

(** Whether the result [r] of the database query [argv] names an owner of
    [lib_path]: [dpkg -S] prints [package: path], [rpm -qf] succeeds,
    [lslpp -w] lists a row for the path, [pkg search] prints a name. *)
Definition db_hit (lib_path : string) (argv : list string)
  (r : CommandResult) : bool :=
  match argv with
  | tool :: _ =>
      if String.eqb tool "dpkg"
      then (cr_exit r =? 0) && PyStr.contains ":" (cr_stdout r)
      else if String.eqb tool "rpm" then cr_exit r =? 0
      else if String.eqb tool "lslpp"
      then existsb (lslpp_row lib_path) (PyStr.splitlines (cr_stdout r))
      else if String.eqb tool "pkg"
      then (cr_exit r =? 0)
           && negb (String.eqb (PyStr.strip (cr_stdout r)) "")
      else false
  | [] => false
  end.

(** The event of a process that could not be started, as [run_cmd]
    records it. *)
Definition not_started (e : Event) : Prop :=
  match e with
  | EvRun _ _ r => cr_exit r = 255 /\ cr_stdout r = ""
  | _ => True
  end.

(** An event that is no database answer for [lib_path]. *)
Definition no_hit (lib_path : string) (e : Event) : Prop :=
  match e with
  | EvRun argv _ r => db_hit lib_path argv r = false
  | _ => True
  end.

(** ** Vocabulary for the configure stage *)

(** An event that is neither configure command. *)
Definition past_configure (cfg alt : list string) (e : Event) : Prop :=
  is_run cfg e = false /\ is_run alt e = false.

(** An event that is neither configure command nor a build command. *)
Definition before_configure (cfg alt : list string) (e : Event) : Prop :=
  past_configure cfg alt e /\ on_runs not_build_cmd e.

(** The traces of the configure stage and what follows it: the primary
    command and its log entry; then, after a failure, the alternative and
    its log entry; then, unless that failed too, events that are no
    configure command.  When both fail nothing follows and the outcome is
    an error result. *)
Definition configure_shape (cfg alt : list string)
  (o : Outcome BuildResult) (tr : list Event) : Prop :=
  exists cwd r l rest,
    tr = EvRun cfg cwd r :: EvLog l :: rest
    /\ ((cr_exit r = 0 /\ Forall (past_configure cfg alt) rest)
        \/ (cr_exit r <> 0
            /\ exists cwd2 r2 l2 rest2,
                 rest = EvRun alt cwd2 r2 :: EvLog l2 :: rest2
                 /\ ((cr_exit r2 = 0
                      /\ Forall (past_configure cfg alt) rest2)
                     \/ (cr_exit r2 <> 0 /\ rest2 = []
                         /\ exists res, o = Ret res
                                        /\ br_status res = StatusError)))).

(** What a run of the pipeline with trace [tr] and outcome [o] must
    satisfy: once the primary configure command [cfg] has failed, the
    alternative [alt] was run exactly once; and once that has failed too,
    the pipeline returned an error result and ran no build command. *)
Definition configure_fallback_holds (cfg alt : list string)
  (o : Outcome BuildResult) (tr : list Event) : Prop :=
  forall cwd r,
    In (EvRun cfg cwd r) tr ->
    cr_exit r <> 0 ->
    count_runs alt tr = 1%nat
    /\ forall cwd2 r2,
         In (EvRun alt cwd2 r2) tr ->
         cr_exit r2 <> 0 ->
         (exists res, o = Ret res /\ br_status res = StatusError)
         /\ Forall (on_runs not_build_cmd) tr.

(** ** Vocabulary for the backup *)

(** What a call of [prepare_backup] handed back as [saved]. *)
Definition saved_of (o : Outcome (list string)) : list string :=
  match o with
  | Ret saved => saved
  | Raise _ => []
  end.

(** The entries of a [saved] list other than the tool binary's. *)
Definition lib_entries (tool_dest : string) (saved : list string)
  : list string :=
  List.filter (fun d => negb (String.eqb d tool_dest)) saved.

(** The destinations, other than the tool binary's, that the copies of a
    trace brought into existence. *)
Definition created_lib_copies (tool_dest : string) (tr : list Event)
  : list string :=
  flat_map (fun e => match e with
                     | EvCopy _ dst CopyFailed => []
                     | EvCopy _ dst _ =>
                         if String.eqb dst tool_dest then [] else [dst]
                     | _ => []
                     end) tr.

(** A list of distinct paths that came into existence between [s] and
    [s']. *)
Definition fresh (s s' : State) (paths : list string) : Prop :=
  NoDup paths /\ forall d, In d paths -> d ∈ fs s' /\ d ∉ fs s.

(** Every copy in the trace went to the tool binary's destination or to a
    path outside [known]. *)
Definition copies_avoid (tool_dest : string) (known : gset string)
  (tr : list Event) : Prop :=
  forall src dst o, In (EvCopy src dst o) tr -> dst = tool_dest \/ dst ∉ known.

(** The destinations of the copies that succeeded, in order. *)
Definition done_copies (tr : list Event) : list string :=
  flat_map (fun e => match e with
                     | EvCopy _ dst CopyDone => [dst]
                     | _ => []
                     end) tr.

(** A computation under which the filesystem only grows, and whose copies
    to library destinations each create a path that did not exist. *)
Definition grows_fresh (tool_dest : string) {X} (m : M X) : Prop :=
  forall s, exists tr,
    trace (snd (m s)) = (trace s ++ tr)%list
    /\ fs s ⊆ fs (snd (m s))
    /\ fresh s (snd (m s)) (created_lib_copies tool_dest tr)
    /\ copies_avoid tool_dest (fs s) tr.

(** An event that is no copy. *)
Definition no_copy (e : Event) : Prop :=
  match e with
  | EvCopy _ _ _ => False
  | _ => True
  end.

(** An event that, if it is a copy, goes to one of the two kinds of
    destination the backup derives. *)
Definition copy_to_derived (tool_dest : string) (lib_dest : string -> string)
  (e : Event) : Prop :=
  match e with
  | EvCopy _ dst _ => dst = tool_dest \/ exists p, dst = lib_dest p
  | _ => True
  end.

(** ** Vocabulary for the orchestration *)

(** The managers step 7 of [decide_and_execute] has a branch for. *)
Definition handled_managers : list string :=
  ["apt"; "dnf"; "yum"; "apk"; "brew"].

(** A package-manager command as the upgrade steps write them: a
    first-class manager followed by one of the sub-commands that refresh,
    install or upgrade. *)
Definition is_pm_command (argv : list string) : bool :=
  match argv with
  | pm :: sub :: _ =>
      PyStr.mem sub ["update"; "install"; "makecache"; "add"; "upgrade"]
      && PyStr.mem pm ["apt"; "dnf"; "yum"; "apk"; "zypper"; "brew"; "pkg";
                       "choco"]
  | _ => false
  end.

(** The same behind [sudo]. *)
Definition is_upgrade_cmd (argv : list string) : bool :=
  is_pm_command argv
  || (is_pm_command (tl argv) && String.eqb (hd "" argv) "sudo").

Definition not_upgrade_cmd (argv : list string) : bool :=
  negb (is_upgrade_cmd argv).

(** An event of the backup: its directory, a copy, the archive. *)
Definition is_backup_event (e : Event) : bool :=
  match e with
  | EvMkdir _ | EvCopy _ _ _ | EvArchive _ _ _ => true
  | _ => false
  end.

(** An event that runs a package-manager upgrade command. *)
Definition is_upgrade_event (e : Event) : bool :=
  match e with
  | EvRun argv _ _ => is_upgrade_cmd argv
  | _ => false
  end.

(** An event that writes the report. *)
Definition is_report_event (e : Event) : bool :=
  match e with
  | EvReadme _ _ => true
  | _ => false
  end.

(** The position in a trace of the first event that satisfies [p]. *)
Fixpoint position (p : Event -> bool) (tr : list Event) : option nat :=
  match tr with
  | [] => None
  | e :: rest => if p e then Some O else option_map S (position p rest)
  end.

(** What one stretch of the library loops of [prepare_backup] does between
    two states: it appends [new] to [saved] and [tr] to the trace; the
    filesystem only grows; the new entries and the destinations created
    are library destinations that are distinct and did not exist before;
    and every copy went to a path that did not exist before. *)
Definition lib_step (H : Host) (A : Agent) (s : State) (saved : list string)
  (o : Outcome (list string)) (s' : State) : Prop :=
  exists new tr,
    o = Ret (saved ++ new)%list
    /\ trace s' = (trace s ++ tr)%list
    /\ fs s ⊆ fs s'
    /\ fresh s s' new
    /\ Forall (fun d => exists p, d = lib_dest H A p) new
    /\ fresh s s' (created_lib_copies (openssl_binary_dest A) tr)
    /\ copies_avoid (openssl_binary_dest A) (fs s) tr.

(** The outcome of a loop that started with [saved] and made the copies
    of [tr]. *)
Definition extends_saved (saved : list string)
  (o : Outcome (list string)) (tr : list Event) : Prop :=
  o = Ret (saved ++ done_copies tr)%list.

(** A configure or build command of the source pipeline. *)
Definition is_source_build_cmd (argv : list string) : bool :=
  match argv with
  | tool :: _ => PyStr.mem tool ["./config"; "./Configure"; "make"; "gmake"]
  | [] => false
  end.

(** A command that changes the host: a package-manager upgrade or a
    step of the source build. *)
Definition is_mutating_cmd (argv : list string) : bool :=
  is_upgrade_cmd argv || is_source_build_cmd argv.

Definition not_mutating_cmd (argv : list string) : bool :=
  negb (is_mutating_cmd argv).

Definition is_mutating_event (e : Event) : bool :=
  match e with
  | EvRun argv _ _ => is_mutating_cmd argv
  | _ => false
  end.

(** The event that ends the backup: the archive was written, or the
    attempt was recorded as failed. *)
Definition is_archive_event (e : Event) : bool :=
  match e with
  | EvArchive _ _ _ => true
  | _ => false
  end.

(** A trace in which the backup's archive event comes before the first
    mutating command, if there is one. *)
Definition archive_first (tr : list Event) : Prop :=
  forall i, position is_mutating_event tr = Some i ->
            exists j, position is_archive_event tr = Some j /\ (j < i)%nat.

(** An operator who never answers [y]. *)
Definition declines (H : Host) : Prop :=
  forall s, match h_input H s with
            | Some line =>
                String.eqb (PyStr.lower (PyStr.strip line)) "y" = false
            | None => True
            end.

(** What a dry run without an app path must end with: if it returns, the
    status is [dry-run] and the report was written. *)
Definition dry_run_outcome (o : Outcome RunResult) (tr : list Event) : Prop :=
  forall r, o = Ret r ->
    (exists pms, r = DryRun (choose_strategy pms))
    /\ Exists (fun e => is_report_event e = true) tr.

(** What a step ends with when the operator declined: the value [v], and
    no process was started. *)
Definition stops_with {X} (v : X) (o : Outcome X) (tr : list Event) : Prop :=
  o = Ret v /\ count_processes tr = 0%nat.

(** ** Vocabulary for a confirmed source build *)

(** An operator who lets the upgrade go ahead: [--force], or the answer
    [y] at every prompt. *)
Definition confirms (H : Host) (A : Agent) : Prop :=
  force (args A) = true
  \/ forall s, exists line,
       h_input H s = Some line
       /\ String.eqb (PyStr.lower (PyStr.strip line)) "y" = true.

(** The entry step 7 logs for the result of the source build. *)
Definition build_entry (build : BuildResult) : Entry :=
  step_entry "side-install-result" "side-install"
             (match br_status build with StatusOk => 0 | StatusError => 1 end)
             (JsonBuild build) "".

(** An event that reads the operator's answer. *)
Definition is_answer (e : Event) : Prop :=
  match e with
  | EvInput _ => True
  | _ => False
  end.

(** What a confirmed source build leaves in the trace [tr] of step 7 and
    what follows it: the prompt for the source build, at most one answer,
    and then at once the pipeline, which begins by creating its working
    directory.  A run that returns has logged the result of the build and
    gone on to the post-checks, so its status is [done]; a run that
    raises does so from the pipeline. *)
Definition source_build_ran (A : Agent) (chosen : Entry)
  (o : Outcome RunResult) (tr : list Event) : Prop :=
  (exists answer dir rest,
     tr = (EvLog chosen :: EvPrompt [source_build_item A] :: answer
           ++ EvMkdtemp dir :: rest)%list
     /\ Forall is_answer answer /\ (length answer <= 1)%nat)
  /\ match o with
     | Ret res =>
         (exists success, res = Done success)
         /\ exists build, In (EvLog (build_entry build)) tr
     | Raise e => e = OSError "mkdtemp" \/ e = StopIteration
     end.

(** What the source build ends with once the operator has confirmed. *)
Definition build_started (o : Outcome bool) (tr : list Event) : Prop :=
  (exists dir rest, tr = EvMkdtemp dir :: rest)
  /\ match o with
     | Ret proceed =>
         proceed = true /\ exists build, In (EvLog (build_entry build)) tr
     | Raise e => e = OSError "mkdtemp" \/ e = StopIteration
     end.

(** ** Vocabulary for single methods *)

(** The entries a trace wrote to the log, in order. *)
Definition logged (tr : list Event) : list Entry :=
  flat_map (fun e => match e with EvLog l => [l] | _ => [] end) tr.

(** The command lines a trace started, in order. *)
Definition commands (tr : list Event) : list (list string) :=
  flat_map (fun e => match e with EvRun argv _ _ => [argv] | _ => [] end) tr.

(** What a detection method ends with: it returns the one entry it
    logged, and what it started is [cmds]. *)
Definition probed (cmds : list (list string)) (exits : list Z)
  (o : Outcome Entry) (tr : list Event) : Prop :=
  exists e, o = Ret e /\ logged tr = [e] /\ commands tr = cmds
            /\ (cmds = [] -> In (en_exit e) exits).

(** The processes a trace ran, each with its result, in order. *)
Definition results (tr : list Event) : list (list string * CommandResult) :=
  flat_map (fun e => match e with EvRun argv _ r => [(argv, r)] | _ => [] end)
           tr.

(** The step recorded when build tools are missing. *)
Definition tools_step (missing : list string) : CommandResult :=
  mkResult "check-build-tools" 1 ""
           ("Missing build tools: " ++ PyStr.join ", " missing).

(** ** Vocabulary for the failures of the source build *)

(** The commands of the pipeline whose failure ends the build: the
    extraction, the alternative configure command, [make -j N] and the
    install command.  (The download has a fallback, the primary configure
    command has the alternative, and the exit code of [make test] is not
    looked at.) *)
Definition fatal_step (H : Host) (prefix : string) (argv : list string)
  : Prop :=
  hd "" argv = "tar"
  \/ argv = alt_cmd prefix
  \/ (exists gmake, argv = make_cmd H gmake)
  \/ argv = install_cmd prefix.

(** The state in which the pipeline looks for its build tools: the
    working directory [workdir] has just been created. *)
Definition in_workdir (s : State) (workdir : string) : State :=
  mkState ({[workdir]} ∪ fs s) (trace s ++ [EvMkdtemp (Some workdir)])
          (artifacts s).

(** [raises_only P m]: every exception [m] ends with satisfies [P]. *)
Definition raises_only {X} (P : Exn -> Prop) (m : M X) : Prop :=
  forall s e, fst (m s) = Raise e -> P e.

(** The exceptions [prepare_backup] can end with, by the call that
    raised: the backup directory could not be created; the copy of the
    tool binary failed; its checksum file could not be opened; the saved
    binary could not be read back for the digest; the digest could not be
    written. *)
Definition backup_failure (e : Exn) : Prop :=
  e = OSError "mkdir" \/ e = OSError "copy2" \/ e = OSError "open"
  \/ e = OSError "sha256" \/ e = OSError "write".

(** The exceptions that can end a run: a failure of the backup, the
    working directory of the build could not be created, or the extracted
    archive held no source directory.  (The embedding takes the writes to
    the agent's own log, snapshot and report files to succeed.) *)
Definition backup_or_build_failure (e : Exn) : Prop :=
  backup_failure e \/ e = OSError "mkdtemp" \/ e = StopIteration.

(** The archive attempts of a trace, each with its success, in order. *)
Definition archived (tr : list Event) : list bool :=
  flat_map (fun e => match e with EvArchive _ _ ok => [ok] | _ => [] end) tr.

(** An event that is a copy. *)
Definition is_copy (e : Event) : Prop :=
  match e with
  | EvCopy _ _ _ => True
  | _ => False
  end.

(** Whether an attempt went through. *)
Definition worked (a : Attempt) : bool :=
  match a with Worked => true | Raised _ => false end.

(** The log entry that closes the backup, [a] being how the archive
    ended: a failure is logged with the text of its exception. *)
Definition backup_entry (tarball : string) (a : Attempt) : Entry :=
  match a with
  | Worked => step_entry "backup" ("created " ++ tarball) 0 (Text "") ""
  | Raised msg => step_entry "backup" "tar-failed" 1 (Text "") msg
  end.

(** How a run ends when nothing was upgraded: it was a dry run or the
    operator declined, or the backup failed. *)
Definition nothing_upgraded (o : Outcome RunResult) : Prop :=
  match o with
  | Ret r => r = Aborted \/ exists strategy, r = DryRun strategy
  | Raise e => backup_failure e
  end.

(** The entry [run_smoke_tests] logs last. *)
Definition smoke_entry (results : SmokeResults) : Entry :=
  step_entry "smoke-tests" "completed" 0 (JsonSmoke results) "".

(** What the log holds when the smoke tests passed: their entry, with at
    least one check and every check passed. *)
Definition passed_checks (tr : list Event) : Prop :=
  exists results,
    In (EvLog (smoke_entry results)) tr
    /\ sr_status results = Pass
    /\ sr_checks results <> []
    /\ Forall (fun c => sc_ok c = true) (sr_checks results).

(** How the result of a run relates to the flag and to the checks. *)
Definition run_verdict (A : Agent) (o : Outcome RunResult)
  (tr : list Event) : Prop :=
  match o with
  | Ret r =>
      ((exists strategy, r = DryRun strategy) <-> dry_run (args A) = true)
      /\ (r = Done true -> passed_checks tr)
  | Raise _ => True
  end.

(** The reports a trace wrote, in order. *)
Definition reports (tr : list Event) : list Report :=
  flat_map (fun e => match e with EvReadme _ r => [r] | _ => [] end) tr.

(** An event that writes no report. *)
Definition no_report (e : Event) : Prop :=
  match e with
  | EvReadme _ _ => False
  | _ => True
  end.

(** The reports a run has written when it ends: one, with the strategy
    and the verdict of the result, after a dry run or a completed upgrade;
    none when the operator declined or the run raised. *)
Definition report_matches (o : Outcome RunResult) (tr : list Event) : Prop :=
  match o with
  | Ret (DryRun strategy) =>
      exists arts, reports tr = [mkReport strategy None arts]
  | Ret (Done success) =>
      exists strategy arts,
        reports tr = [mkReport strategy (Some success) arts]
  | Ret Aborted => reports tr = []
  | Raise _ => reports tr = []
  end.

(** The snapshot files a trace wrote, in order. *)
Definition snapshot_paths (tr : list Event) : list string :=
  flat_map (fun e => match e with EvSnapshot p _ => [p] | _ => [] end) tr.

(** The item lists a trace announced to the operator, in order. *)
Definition prompts (tr : list Event) : list (list string) :=
  flat_map (fun e => match e with EvPrompt items => [items] | _ => [] end) tr.

(** An event that neither asks the operator nor upgrades a package. *)
Definition inspection_only (e : Event) : Prop :=
  match e with
  | EvRun argv _ _ => is_upgrade_cmd argv = false
  | EvPrompt _ => False
  | _ => True
  end.

(** The upgrade commands among the commands of a trace. *)
Definition upgrade_commands (tr : list Event) : list (list string) :=
  List.filter is_upgrade_cmd (commands tr).

(** No upgrade command comes before the first prompt. *)
Fixpoint asked_first (tr : list Event) : Prop :=
  match tr with
  | [] => True
  | EvPrompt _ :: _ => True
  | EvRun argv _ _ :: rest => is_upgrade_cmd argv = false /\ asked_first rest
  | _ :: rest => asked_first rest
  end.

(** What the dependency step did with the package list [pkgs]: nothing
    (no prompt, no upgrade); or it announced [pkgs] and upgraded nothing;
    or it announced [pkgs] and ran one upgrade command, which ends with
    [pkgs].  In each case no upgrade command came before the prompt. *)
Definition upgraded_as_announced (pkgs : list string) (tr : list Event)
  : Prop :=
  asked_first tr
  /\ ((prompts tr = [] /\ upgrade_commands tr = [])
      \/ (pkgs <> [] /\ prompts tr = [pkgs]
          /\ (upgrade_commands tr = []
              \/ exists argv, upgrade_commands tr = [argv]
                              /\ suffix pkgs argv))).

(** Whether [tr] ran the command [argv] with exit code 0. *)
Definition ran_with_success (argv : list string) (tr : list Event) : Prop :=
  exists r, In (argv, r) (results tr) /\ cr_exit r = 0.

(** An event that does not read the operator's answer. *)
Definition no_input (e : Event) : Prop :=
  match e with
  | EvInput _ => False
  | _ => True
  end.

(** ** Vocabulary for the artifact list *)

(** The paths an event adds to [self.artifacts]: a snapshot file, the
    tarball of a successful archive, the report. *)
Definition artifact_of (e : Event) : list string :=
  match e with
  | EvSnapshot p _ => [p]
  | EvArchive tarball _ true => [tarball]
  | EvReadme p _ => [p]
  | _ => []
  end.

Definition artifact_events (tr : list Event) : list string :=
  flat_map artifact_of tr.

(** Every report written in [tr] lists exactly the artifacts that were
    recorded before it, [base] being those recorded before [tr]. *)
Fixpoint listed (base : list string) (tr : list Event) : Prop :=
  match tr with
  | [] => True
  | e :: rest =>
      match e with
      | EvReadme _ r => rp_artifacts r = base
      | _ => True
      end
      /\ listed (base ++ artifact_of e) rest
  end.

(** A computation that keeps the artifact list in step with the trace. *)
Definition accounts {X} (m : M X) : Prop :=
  forall s, exists tr,
    trace (snd (m s)) = (trace s ++ tr)%list
    /\ artifacts (snd (m s)) = (artifacts s ++ artifact_events tr)%list
    /\ listed (artifacts s) tr.

(** An event that adds no artifact and writes no report. *)
Definition plain (e : Event) : Prop := artifact_of e = [].

(** A string without white space. *)
Definition no_space (s : string) : bool :=
  forallb (fun c => negb (PyStr.is_space c)) (list_ascii_of_string s).

(** What the pattern of the dependency step can extract from the lines
    of [out]: a non-empty run of characters that are not white space,
    taken from a line that holds an arrow. *)
Definition arrow_target (out path : string) : Prop :=
  path <> "" /\ no_space path = true
  /\ exists line, In line (PyStr.splitlines out)
                  /\ PyStr.contains "=>" line = true
                  /\ PyStr.search_arrow line = Some path.

(** How often a trace wrote the snapshot file [p]. *)
Definition snapshot_writes (p : string) (tr : list Event) : nat :=
  length (List.filter (String.eqb p) (snapshot_paths tr)).

(** An event that does not write the snapshot file [p]. *)
Definition not_to (p : string) (e : Event) : Prop :=
  match e with
  | EvSnapshot q _ => q <> p
  | _ => True
  end.

(** The file [detect_openssl_cli] writes the version output to. *)
Definition version_snapshot (A : Agent) : string :=
  path_join (pre_dir A) "openssl-version.txt".

(** How often a run has written [pre/openssl-version.txt] when it ends,
    [n] writes having been made before [tr]: twice when it completes,
    once when it stops before the upgrade. *)
Definition version_snapshot_writes (A : Agent) (n : nat)
  (o : Outcome RunResult) (tr : list Event) : Prop :=
  match o with
  | Ret (Done _) => (snapshot_writes (version_snapshot A) tr + n = 2)%nat
  | _ => (snapshot_writes (version_snapshot A) tr + n = 1)%nat
  end.

(** The copies of a trace that did not go through. *)
Definition failed_copies (tr : list Event) : list (string * string) :=
  flat_map (fun e => match e with
                     | EvCopy _ _ CopyDone => []
                     | EvCopy src dst _ => [(src, dst)]
                     | _ => []
                     end) tr.

(** The files a trace wrote, other than logs, snapshots and reports. *)
Definition written (tr : list Event) : list string :=
  flat_map (fun e => match e with EvWrite p _ => [p] | _ => [] end) tr.

(** What a call of [prepare_backup] ends with: no process was started;
    after a return, one archive attempt and its log entry, which carries
    the text of the exception when the archive failed; after an exception,
    neither.  The exception is that of the directory exactly when the
    call did nothing at all, and that of the tool copy exactly when that
    copy is the last thing the call did; the three others come from the
    checksum file, which then was not written. *)
Definition backup_outcome (A : Agent) (o : Outcome (list string))
  (tr : list Event) : Prop :=
  commands tr = []
  /\ match o with
     | Ret saved =>
         exists a, archived tr = [worked a]
                   /\ logged tr = [backup_entry (backup_tarball A) a]
     | Raise e =>
         backup_failure e /\ archived tr = [] /\ logged tr = []
         /\ written tr = []
         /\ (e = OSError "mkdir" <-> tr = [])
         /\ (e = OSError "copy2"
             <-> exists src, failed_copies tr = [(src, openssl_binary_dest A)])
     end.

(** An event that is no archive attempt. *)
Definition not_archive (e : Event) : Prop :=
  match e with
  | EvArchive _ _ _ => False
  | _ => True
  end.

(** The archive attempts of a run when it ends: one if it returns, at
    most one if it raises. *)
Definition archived_once (o : Outcome RunResult) (tr : list Event) : Prop :=
  match o with
  | Ret _ => length (archived tr) = 1%nat
  | Raise _ => (length (archived tr) <= 1)%nat
  end.

Definition not_source_build_cmd (argv : list string) : bool :=
  negb (is_source_build_cmd argv).

(** ** Vocabulary for the audit trail *)

(** Every command of [tr] that changes the host is followed at once by
    the log entry of its result. *)
Fixpoint mutations_logged (tr : list Event) : Prop :=
  match tr with
  | [] => True
  | EvRun argv _ r :: rest =>
      (is_mutating_cmd argv = true ->
       hd_error rest = Some (EvLog (entry_of r)))
      /\ mutations_logged rest
  | _ :: rest => mutations_logged rest
  end.

(** A trace that does not end in a mutating command. *)
Definition settled (tr : list Event) : Prop :=
  match List.last tr (EvPrompt []) with
  | EvRun argv _ _ => is_mutating_cmd argv = false
  | _ => True
  end.

(** A computation that logs every mutating command it runs. *)
Definition logs_mutations {X} (m : M X) : Prop :=
  forall s, exists tr,
    trace (snd (m s)) = (trace s ++ tr)%list
    /\ mutations_logged tr /\ settled tr.

(** An event that is no process. *)
Definition no_process (e : Event) : Prop :=
  match e with
  | EvRun _ _ _ => False
  | _ => True
  end.
(** ** Scenarios

    Concrete hosts and agents, used to run the embedding. *)

Definition empty_state : State := mkState ∅ [] [].

Definition agent_on (platform : string) (a : Args) : Agent :=
  mkAgent a platform "/tmp/openssl-agent-logs/20240101T000000Z"
          "/tmp/openssl-agent-backups" "20240101T000000Z".

Definition upgrade_to_308 : Args :=
  {| app_path := None; target_version := "3.0.8"; dry_run := false;
     health_url := None; force := true |}.

(** The path flavours.  [str(pathlib.PurePosixPath(p))] drops empty and
    [.] components; one leading slash, or three and more, is the root [/],
    exactly two are kept; the empty path is written [.]. *)
Definition posix_path_str (p : string) : string :=
  let parts := List.filter (fun c => negb (String.eqb c "" || String.eqb c "."))
                           (PyStr.split_on "/" p) in
  let root := if PyStr.startswith "//" p && negb (PyStr.startswith "///" p)
              then "//"
              else if PyStr.startswith "/" p then "/" else "" in
  let norm := root ++ PyStr.join "/" parts in
  if String.eqb norm "" then "." else norm.

(** Whether the last character of [a] is one of [seps]. *)
Definition ends_in (seps : list string) (a : string) : bool :=
  PyStr.mem (String.substring (String.length a - 1)%nat 1 a) seps.

(** [posixpath.join(a, b)]. *)
Definition posix_join (a b : string) : string :=
  if PyStr.startswith "/" b then b
  else if String.eqb a "" || ends_in ["/"] a then a ++ b
  else a ++ "/" ++ b.

(** The Windows flavour, for paths that name a drive and a directory
    under it and a second part that is a plain name: slashes are written
    as backslashes, and a backslash joins two parts. *)
Definition nt_path_str (p : string) : string := PyStr.replace_char "/" "\" p.

Definition nt_join (a b : string) : string :=
  if ends_in ["\"; "/"] a then a ++ b else a ++ "\" ++ b.

(** Tools under [/usr/bin], by name. *)
Definition usr_bin (names : list string) (name : string) : option string :=
  if PyStr.mem name names then Some ("/usr/bin/" ++ name) else None.

(** A host on which nothing is installed and nothing can be started. *)
Definition bare_host : Host :=
  {| h_nt := false;
     h_which := fun _ _ => None;
     h_exec := fun _ _ _ => NotStarted "No such file or directory";
     h_input := fun _ => None;
     h_copy := fun _ _ _ => CopyFailed;
     h_glob := fun _ _ => Some [];
     h_mkdir := fun _ _ => Worked;
     h_sha256 := fun _ _ => Some "";
     h_archive := fun _ _ _ => Worked;
     h_isdir := fun _ _ => false;
     h_mkdtemp := fun _ => Some "/tmp3k2xq9";
     h_urlopen := fun _ _ _ => Raised "<urlopen error timed out>";
     h_srcdir := fun _ _ => None;
     h_write := fun _ _ => WriteRefused "[Errno 13] Permission denied";
     h_path_str := posix_path_str;
     h_os_join := posix_join;
     h_cpu_count := None;
     h_systemroot := None |}.

(** A build machine: every tool is there and every command succeeds. *)
Definition build_host : Host :=
  {| h_nt := false;
     h_which := fun _ => usr_bin ["make"; "perl"; "gcc"; "ldconfig"];
     h_exec := fun s _ _ => Started 0 "" "" (fs s);
     h_input := fun _ => None;
     h_copy := fun _ _ _ => CopyDone;
     h_glob := fun _ _ => Some [];
     h_mkdir := fun _ _ => Worked;
     h_sha256 := fun _ _ => Some "";
     h_archive := fun _ _ _ => Worked;
     h_isdir := fun _ _ => true;
     h_mkdtemp := fun _ => Some "/tmp3k2xq9";
     h_urlopen := fun _ _ _ => Worked;
     h_srcdir := fun _ dir => Some (dir ++ "/openssl-3.0.8");
     h_write := fun _ _ => WriteDone;
     h_path_str := posix_path_str;
     h_os_join := posix_join;
     h_cpu_count := Some 4%nat;
     h_systemroot := None |}.

(** A Linux host with both package databases: dpkg does not know the
    path, rpm would. *)
Definition two_db_exec (s : State) (argv : list string) (cwd : option string)
  : ProcOutcome :=
  match argv with
  | tool :: _ =>
      if String.eqb tool "dpkg"
      then Started 1 "" "dpkg-query: no path found matching pattern" (fs s)
      else if String.eqb tool "rpm"
      then Started 0 "libfoo-1.2-3.x86_64" "" (fs s)
      else NotStarted "No such file or directory"
  | [] => NotStarted "empty command"
  end.

Definition two_db_host : Host :=
  {| h_nt := false;
     h_which := fun _ => usr_bin ["dpkg"; "rpm"];
     h_exec := two_db_exec;
     h_input := fun _ => None;
     h_copy := fun _ _ _ => CopyDone;
     h_glob := fun _ _ => Some [];
     h_mkdir := fun _ _ => Worked;
     h_sha256 := fun _ _ => Some "";
     h_archive := fun _ _ _ => Worked;
     h_isdir := fun _ _ => false;
     h_mkdtemp := fun _ => Some "/tmp3k2xq9";
     h_urlopen := fun _ _ _ => Raised "<urlopen error timed out>";
     h_srcdir := fun _ _ => None;
     h_write := fun _ _ => WriteRefused "[Errno 13] Permission denied";
     h_path_str := posix_path_str;
     h_os_join := posix_join;
     h_cpu_count := None;
     h_systemroot := None |}.

Definition libfoo : string := "/opt/lib/libfoo.so".

(** The lookup of [libfoo] on that host. *)
Definition two_db_lookup : Outcome (option string) * State :=
  resolve_package_owner two_db_host (agent_on "linux" upgrade_to_308)
    libfoo empty_state.

(** A SUSE-like host: zypper and rpm, and the build tools. *)
Definition suse_host : Host :=
  {| h_nt := false;
     h_which := fun _ => usr_bin ["zypper"; "rpm"; "make"; "perl"; "gcc"];
     h_exec := fun s _ _ => Started 0 "" "" (fs s);
     h_input := fun _ => None;
     h_copy := fun _ _ _ => CopyDone;
     h_glob := fun _ _ => Some [];
     h_mkdir := fun _ _ => Worked;
     h_sha256 := fun _ _ => Some "";
     h_archive := fun _ _ _ => Worked;
     h_isdir := fun _ _ => false;
     h_mkdtemp := fun _ => Some "/tmp3k2xq9";
     h_urlopen := fun _ _ _ => Worked;
     h_srcdir := fun _ dir => Some (dir ++ "/openssl-3.0.8");
     h_write := fun _ _ => WriteDone;
     h_path_str := posix_path_str;
     h_os_join := posix_join;
     h_cpu_count := Some 4%nat;
     h_systemroot := None |}.

(** Steps 5 to 10 on that host, under [--force], with the managers it
    detects. *)
Definition suse_step7 : Outcome RunResult * State :=
  execute_strategy suse_host (agent_on "linux" upgrade_to_308)
    ["zypper"; "rpm"] empty_state.

(** A Debian host running a server that links against zlib: [ldd] lists
    the library, [dpkg -S] names its package. *)
Definition tab : string := String "009" EmptyString.

Definition libz : string := "/lib/x86_64-linux-gnu/libz.so.1".

Definition debian_exec (s : State) (argv : list string) (cwd : option string)
  : ProcOutcome :=
  match argv with
  | tool :: _ =>
      if String.eqb tool "ldd"
      then Started 0 (tab ++ "libz.so.1 => " ++ libz ++ " (0x00007f11)") ""
                   (fs s)
      else if String.eqb tool "dpkg"
      then Started 0 ("zlib1g:amd64: " ++ libz) "" (fs s)
      else Started 0 "" "" (fs s)
  | [] => NotStarted "empty command"
  end.

Definition debian_host : Host :=
  {| h_nt := false;
     h_which := fun _ => usr_bin ["openssl"; "apt"; "dpkg"; "ldd"];
     h_exec := debian_exec;
     h_input := fun _ => None;
     h_copy := fun _ _ _ => CopyDone;
     h_glob := fun _ _ => Some [];
     h_mkdir := fun _ _ => Worked;
     h_sha256 := fun _ _ => Some "0f0f";
     h_archive := fun _ _ _ => Worked;
     h_isdir := fun _ _ => false;
     h_mkdtemp := fun _ => Some "/tmp3k2xq9";
     h_urlopen := fun _ _ _ => Raised "<urlopen error timed out>";
     h_srcdir := fun _ _ => None;
     h_write := fun _ _ => WriteDone;
     h_path_str := posix_path_str;
     h_os_join := posix_join;
     h_cpu_count := Some 4%nat;
     h_systemroot := None |}.

Definition server : string := "/srv/app/server".

(** The filesystem before the run: the server and the library. *)
Definition debian_state : State := mkState {[ server; libz ]} [] [].

(** [--app-path /srv/app/server --target-version 3.0.8 --force], with and
    without [--dry-run]. *)
Definition upgrade_server (dry : bool) : Args :=
  {| app_path := Some server; target_version := "3.0.8"; dry_run := dry;
     health_url := None; force := true |}.

Definition debian_run (dry : bool) : Outcome RunResult * State :=
  decide_and_execute debian_host (agent_on "linux" (upgrade_server dry))
    debian_state.

(** The dependency upgrade the agent runs on that host. *)
Definition upgrade_zlib : list string :=
  ["sudo"; "apt"; "install"; "--only-upgrade"; "-y"; "zlib1g"].

(** A build machine on which no configure script works. *)
Definition no_configure_exec (s : State) (argv : list string)
  (cwd : option string) : ProcOutcome :=
  match argv with
  | tool :: _ =>
      if PyStr.mem tool ["./config"; "./Configure"]
      then Started 2 "" "Operating system: unknown" (fs s)
      else Started 0 "" "" (fs s)
  | [] => NotStarted "empty command"
  end.

Definition no_configure_host : Host :=
  {| h_nt := false;
     h_which := fun _ => usr_bin ["make"; "perl"; "gcc"];
     h_exec := no_configure_exec;
     h_input := fun _ => None;
     h_copy := fun _ _ _ => CopyDone;
     h_glob := fun _ _ => Some [];
     h_mkdir := fun _ _ => Worked;
     h_sha256 := fun _ _ => Some "";
     h_archive := fun _ _ _ => Worked;
     h_isdir := fun _ _ => false;
     h_mkdtemp := fun _ => Some "/tmp3k2xq9";
     h_urlopen := fun _ _ _ => Worked;
     h_srcdir := fun _ dir => Some (dir ++ "/openssl-3.0.8");
     h_write := fun _ _ => WriteDone;
     h_path_str := posix_path_str;
     h_os_join := posix_join;
     h_cpu_count := Some 4%nat;
     h_systemroot := None |}.

(** A build machine on which the sources do not compile: [make -j]
    fails, everything else succeeds. *)
Definition no_make_exec (s : State) (argv : list string)
  (cwd : option string) : ProcOutcome :=
  match argv with
  | [tool; "-j"; _] =>
      if PyStr.mem tool ["make"; "gmake"]
      then Started 2 "" "make: *** [Makefile:177: all] Error 2" (fs s)
      else Started 0 "" "" (fs s)
  | _ => Started 0 "" "" (fs s)
  end.

Definition no_make_host : Host :=
  {| h_nt := false;
     h_which := fun _ => usr_bin ["make"; "perl"; "gcc"];
     h_exec := no_make_exec;
     h_input := fun _ => None;
     h_copy := fun _ _ _ => CopyDone;
     h_glob := fun _ _ => Some [];
     h_mkdir := fun _ _ => Worked;
     h_sha256 := fun _ _ => Some "";
     h_archive := fun _ _ _ => Worked;
     h_isdir := fun _ _ => false;
     h_mkdtemp := fun _ => Some "/tmp3k2xq9";
     h_urlopen := fun _ _ _ => Worked;
     h_srcdir := fun _ dir => Some (dir ++ "/openssl-3.0.8");
     h_write := fun _ _ => WriteDone;
     h_path_str := posix_path_str;
     h_os_join := posix_join;
     h_cpu_count := Some 4%nat;
     h_systemroot := None |}.

(** What its build command is recorded as. *)
Definition failed_make : CommandResult :=
  mkResult "make -j 4" 2 "" "make: *** [Makefile:177: all] Error 2".

(** The source build of 3.0.8 on that host. *)
Definition failed_make_call : Outcome BuildResult * State :=
  side_install_from_source no_make_host (agent_on "linux" upgrade_to_308)
    "3.0.8" None empty_state.

(** What its primary configure command is recorded as. *)
Definition failed_configure : CommandResult :=
  mkResult "./config --prefix=/opt/openssl-3.0.8 shared" 2 ""
           "Operating system: unknown".

(** A host with the same library under two directories. *)
Definition two_lib_host : Host :=
  {| h_nt := false;
     h_which := fun _ => usr_bin ["openssl"];
     h_exec := fun s _ _ => Started 0 "" "" (fs s);
     h_input := fun _ => None;
     h_copy := fun _ _ _ => CopyDone;
     h_glob := fun _ pattern =>
                 if String.eqb pattern "/usr/lib*/libssl*"
                 then Some ["/usr/lib/libssl.so.3"; "/usr/lib64/libssl.so.3"]
                 else Some [];
     h_mkdir := fun _ _ => Worked;
     h_sha256 := fun _ _ => Some "0f0f";
     h_archive := fun _ _ _ => Worked;
     h_isdir := fun _ _ => false;
     h_mkdtemp := fun _ => Some "/tmp3k2xq9";
     h_urlopen := fun _ _ _ => Raised "<urlopen error timed out>";
     h_srcdir := fun _ _ => None;
     h_write := fun _ _ => WriteDone;
     h_path_str := posix_path_str;
     h_os_join := posix_join;
     h_cpu_count := None;
     h_systemroot := None |}.

(** The backup on that host, and a second backup after it. *)
Definition two_lib_backup : Outcome (list string) * State :=
  prepare_backup two_lib_host (agent_on "linux" upgrade_to_308) empty_state.

Definition two_lib_backup_again : Outcome (list string) * State :=
  prepare_backup two_lib_host (agent_on "linux" upgrade_to_308)
    (snd two_lib_backup).

(** [--target-version 3.0.8 --dry-run], and [--target-version 3.0.8] alone,
    which asks the operator. *)
Definition plan_308 : Args :=
  {| app_path := None; target_version := "3.0.8"; dry_run := true;
     health_url := None; force := false |}.

Definition ask_308 : Args :=
  {| app_path := None; target_version := "3.0.8"; dry_run := false;
     health_url := None; force := false |}.

(** The host [h] with an operator who types [line] at every prompt. *)
Definition answering (line : string) (h : Host) : Host :=
  {| h_nt := h_nt h;
     h_which := h_which h;
     h_exec := h_exec h;
     h_input := fun _ => Some line;
     h_copy := h_copy h;
     h_glob := h_glob h;
     h_mkdir := h_mkdir h;
     h_sha256 := h_sha256 h;
     h_archive := h_archive h;
     h_isdir := h_isdir h;
     h_mkdtemp := h_mkdtemp h;
     h_urlopen := h_urlopen h;
     h_srcdir := h_srcdir h;
     h_write := h_write h;
     h_path_str := h_path_str h;
     h_os_join := h_os_join h;
     h_cpu_count := h_cpu_count h;
     h_systemroot := h_systemroot h |}.

(** The host [h] with a backup directory that cannot be created. *)
Definition without_backup_dir (h : Host) : Host :=
  {| h_nt := h_nt h;
     h_which := h_which h;
     h_exec := h_exec h;
     h_input := h_input h;
     h_copy := h_copy h;
     h_glob := h_glob h;
     h_mkdir := fun _ _ => Raised "[Errno 13] Permission denied";
     h_sha256 := h_sha256 h;
     h_archive := h_archive h;
     h_isdir := h_isdir h;
     h_mkdtemp := h_mkdtemp h;
     h_urlopen := h_urlopen h;
     h_srcdir := h_srcdir h;
     h_write := h_write h;
     h_path_str := h_path_str h;
     h_os_join := h_os_join h;
     h_cpu_count := h_cpu_count h;
     h_systemroot := h_systemroot h |}.

(** The host [h] on which the saved tool binary cannot be read back. *)
Definition without_checksum (h : Host) : Host :=
  {| h_nt := h_nt h;
     h_which := h_which h;
     h_exec := h_exec h;
     h_input := h_input h;
     h_copy := h_copy h;
     h_glob := h_glob h;
     h_mkdir := h_mkdir h;
     h_sha256 := fun _ _ => None;
     h_archive := h_archive h;
     h_isdir := h_isdir h;
     h_mkdtemp := h_mkdtemp h;
     h_urlopen := h_urlopen h;
     h_srcdir := h_srcdir h;
     h_write := h_write h;
     h_path_str := h_path_str h;
     h_os_join := h_os_join h;
     h_cpu_count := h_cpu_count h;
     h_systemroot := h_systemroot h |}.

(** [--app-path /srv/app/server --target-version 3.0.8], which asks the
    operator. *)
Definition ask_server : Args :=
  {| app_path := Some server; target_version := "3.0.8"; dry_run := false;
     health_url := None; force := false |}.

(** A state in which the side-installed binary of 3.0.8 exists. *)
Definition side_installed_state : State :=
  mkState {[ "/opt/openssl-3.0.8/bin/openssl" ]} [] [].

(** The same request on a Windows host. *)
Definition windows_host : Host :=
  {| h_nt := true;
     h_which := fun _ => usr_bin ["dumpbin"; "choco"];
     h_exec := fun s _ _ => Started 0 "KERNEL32.dll" "" (fs s);
     h_input := fun _ => None;
     h_copy := fun _ _ _ => CopyDone;
     h_glob := fun _ _ => Some [];
     h_mkdir := fun _ _ => Worked;
     h_sha256 := fun _ _ => Some "0f0f";
     h_archive := fun _ _ _ => Worked;
     h_isdir := fun _ _ => false;
     h_mkdtemp := fun _ => Some "C:\Temp\tmp3k2xq9";
     h_urlopen := fun _ _ _ => Raised "<urlopen error timed out>";
     h_srcdir := fun _ _ => None;
     h_write := fun _ _ => WriteDone;
     h_path_str := nt_path_str;
     h_os_join := nt_join;
     h_cpu_count := Some 4%nat;
     h_systemroot := Some "C:\Windows" |}.
Example split_on_path :
  PyStr.split_on "/" "/usr/local/Cellar/openssl@3/3.0.8/lib/libssl.dylib"
  = [""; "usr"; "local"; "Cellar"; "openssl@3"; "3.0.8"; "lib"; "libssl.dylib"].
Proof. reflexivity. Qed.

Example split_words : PyStr.split "  /usr/lib/libc.a   bos.rte.libc  File " = ["/usr/lib/libc.a"; "bos.rte.libc"; "File"].
Proof. reflexivity. Qed.

Example strip_both : PyStr.strip "  openssl-libs-3.0.7
" = "openssl-libs-3.0.7".
Proof. reflexivity. Qed.

Example search_ldd :
  PyStr.search_arrow "	libz.so.1 => /lib/x86_64-linux-gnu/libz.so.1 (0x00007f1)"
  = Some "/lib/x86_64-linux-gnu/libz.so.1".
Proof. reflexivity. Qed.

Example search_ldd_none : PyStr.search_arrow "	linux-vdso.so.1 (0x00007ffd)" = None.
Proof. reflexivity. Qed.

Example splitlines_crlf : PyStr.splitlines "a
b" = ["a"; "b"].
Proof. reflexivity. Qed.

(** [pathlib] rewrites a path before the agent hands it to a tool. *)
Example path_str_relative : posix_path_str "./server" = "server".
Proof. reflexivity. Qed.

Example path_str_slashes : posix_path_str "/srv//app/server/" = "/srv/app/server".
Proof. reflexivity. Qed.

Example path_str_two_slashes : posix_path_str "//srv/./app" = "//srv/app".
Proof. reflexivity. Qed.

Example path_str_empty : posix_path_str "" = ".".
Proof. reflexivity. Qed.

(** [os.path.join] adds no separator after one. *)
Example join_after_separator :
  posix_join "/opt/openssl-3.0.8/" "lib" = "/opt/openssl-3.0.8/lib"
  /\ posix_join "/opt/openssl-3.0.8" "lib" = "/opt/openssl-3.0.8/lib".
Proof. split; reflexivity. Qed.

(** Two libraries with the same file name under different directories go
    to one destination: the first is saved, the second is skipped; a second
    backup into the same directory saves the tool binary only. *)
Example same_name_saved_once :
  fst two_lib_backup
  = Ret ["/tmp/openssl-agent-backups/20240101T000000Z/openssl_binary";
         "/tmp/openssl-agent-backups/20240101T000000Z/lib_libssl.so.3"]
  /\ fst two_lib_backup_again
    = Ret ["/tmp/openssl-agent-backups/20240101T000000Z/openssl_binary"].
Proof. split; vm_compute; reflexivity. Qed.
(** ** Rules of the three judgements *)

Section Rules.

Variable H : Host.
Variable A : Agent.

Lemma bind_ret_eq {X Y} (m : M X) (k : X -> M Y) s a s1 :
  m s = (Ret a, s1) -> bind m k s = k a s1.
Proof. intros E. unfold bind. now rewrite E. Qed.

Lemma bind_raise_eq {X Y} (m : M X) (k : X -> M Y) s e s1 :
  m s = (Raise e, s1) -> bind m k s = (Raise e, s1).
Proof. intros E. unfold bind. now rewrite E. Qed.

(** *** [returns] *)

Lemma returns_ret {X} (a : X) (Q : X -> Prop) : Q a -> returns (ret a) Q.
Proof. intros HQ s b E. simpl in E. now inversion E; subst. Qed.

Lemma returns_raise {X} e (Q : X -> Prop) : returns (raise e) Q.
Proof. intros s b E. discriminate. Qed.

Lemma returns_bind {X Y} (m : M X) (k : X -> M Y) (Q : Y -> Prop) :
  (forall a, returns (k a) Q) -> returns (bind m k) Q.
Proof.
  intros Hk s b E. unfold bind in E.
  destruct (m s) as [[a|e] s1]; [now apply (Hk a s1) | discriminate].
Qed.

Lemma returns_weaken {X} (m : M X) (Q Q' : X -> Prop) :
  returns m Q -> (forall a, Q a -> Q' a) -> returns m Q'.
Proof. intros Hm HQ s a E. apply HQ, (Hm s a E). Qed.

(** *** [emits] *)

Lemma emits_silent {X} (m : M X) P :
  (forall s, trace (snd (m s)) = trace s) -> emits P m.
Proof. intros E s. exists []. rewrite E, app_nil_r. auto. Qed.

Lemma emits_ret {X} (a : X) P : emits P (ret a).
Proof. now apply emits_silent. Qed.

Lemma emits_raise {X} e P : emits P (@raise X e).
Proof. now apply emits_silent. Qed.

Lemma emits_gets {X} (f : State -> X) P : emits P (gets f).
Proof. now apply emits_silent. Qed.

Lemma emits_touch p P : emits P (touch p).
Proof. now apply emits_silent. Qed.

Lemma emits_add_artifact p P : emits P (add_artifact p).
Proof. now apply emits_silent. Qed.

Lemma emits_emit e (P : Event -> Prop) : P e -> emits P (emit e).
Proof. intros HP s. exists [e]. simpl. auto. Qed.

Lemma emits_bind {X Y} (m : M X) (k : X -> M Y) P :
  emits P m -> (forall a, emits P (k a)) -> emits P (bind m k).
Proof.
  intros Hm Hk s. destruct (Hm s) as (tr1 & E1 & F1).
  unfold bind. destruct (m s) as [[a|e] s1]; simpl in E1.
  - destruct (Hk a s1) as (tr2 & E2 & F2).
    exists (tr1 ++ tr2)%list. rewrite E2, E1, app_assoc.
    split; [reflexivity | now apply Forall_app].
  - exists tr1. auto.
Qed.

Lemma emits_foldM {X B} (f : B -> X -> M B) xs P :
  (forall b x, emits P (f b x)) -> forall b, emits P (foldM f xs b).
Proof.
  intros Hf. induction xs as [|x xs IH]; intros b; simpl.
  - apply emits_ret.
  - apply emits_bind; [apply Hf | intros b'; apply IH].
Qed.

Lemma emits_weaken {X} (m : M X) (P P' : Event -> Prop) :
  emits P m -> (forall e, P e -> P' e) -> emits P' m.
Proof.
  intros Hm HP s. destruct (Hm s) as (tr & E & F).
  exists tr. split; [assumption|]. eapply List.Forall_impl; eauto.
Qed.

Lemma emits_run_cmd cmd cwd sudo (P : Event -> Prop) :
  (forall r, P (EvRun (with_sudo H sudo cmd) cwd r)) ->
  emits P (run_cmd H cmd cwd sudo).
Proof.
  intros HP s. unfold run_cmd.
  destruct (h_exec H s _ cwd); eexists [_]; simpl; split; eauto.
Qed.

(** *** [ends], in continuation-passing form *)

Lemma ends_ret {X} (a : X) Q : Q (Ret a) [] -> ends (ret a) Q.
Proof. intros HQ s. exists []. simpl. rewrite app_nil_r. auto. Qed.

Lemma ends_raise {X} e (Q : Outcome X -> _) : Q (Raise e) [] -> ends (raise e) Q.
Proof. intros HQ s. exists []. simpl. rewrite app_nil_r. auto. Qed.

Lemma ends_bind {X Y} (m : M X) (k : X -> M Y) Q1 Q :
  ends m Q1 ->
  (forall a tr1, Q1 (Ret a) tr1 ->
                 ends (k a) (fun o tr2 => Q o (tr1 ++ tr2)%list)) ->
  (forall e tr1, Q1 (Raise e) tr1 -> Q (Raise e) tr1) ->
  ends (bind m k) Q.
Proof.
  intros Hm Hk He s. destruct (Hm s) as (tr1 & E1 & H1).
  unfold bind. destruct (m s) as [[a|e] s1]; simpl in E1, H1.
  - destruct (Hk a tr1 H1 s1) as (tr2 & E2 & H2).
    exists (tr1 ++ tr2)%list. rewrite E2, E1, app_assoc. auto.
  - exists tr1. simpl. auto.
Qed.

Lemma ends_bind_gets {X Y} (f : State -> X) (k : X -> M Y) Q :
  (forall a, ends (k a) Q) -> ends (bind (gets f) k) Q.
Proof. intros Hk s. apply (Hk (f s) s). Qed.

Lemma ends_bind_ret {X Y} (a : X) (k : X -> M Y) Q :
  ends (k a) Q -> ends (bind (ret a) k) Q.
Proof. intros Hk s. apply (Hk s). Qed.

Lemma ends_bind_raise {X Y} e (k : X -> M Y) (Q : Outcome Y -> _) :
  Q (Raise e) [] -> ends (bind (raise e) k) Q.
Proof. intros HQ s. exists []. simpl. rewrite app_nil_r. auto. Qed.

Lemma ends_bind_emit {Y} e (k : unit -> M Y) Q :
  ends (k tt) (fun o tr => Q o (e :: tr)) -> ends (bind (emit e) k) Q.
Proof.
  intros Hk s. unfold bind, emit.
  destruct (Hk (mkState (fs s) (trace s ++ [e]) (artifacts s)))
    as (tr & E & HQ). simpl in E.
  exists (e :: tr). rewrite E, <- app_assoc. auto.
Qed.

Lemma ends_bind_touch {Y} p (k : unit -> M Y) Q :
  ends (k tt) Q -> ends (bind (touch p) k) Q.
Proof.
  intros Hk s. apply (Hk (mkState ({[p]} ∪ fs s) (trace s) (artifacts s))).
Qed.

Lemma ends_bind_add_artifact {Y} p (k : unit -> M Y) Q :
  ends (k tt) Q -> ends (bind (add_artifact p) k) Q.
Proof.
  intros Hk s. apply (Hk (mkState (fs s) (trace s) (artifacts s ++ [p]))).
Qed.

Lemma ends_bind_run_cmd {Y} cmd cwd sudo (k : CommandResult -> M Y) Q :
  (forall r, cr_cmd r = PyStr.join " " (with_sudo H sudo cmd) ->
             ends (k r)
               (fun o tr => Q o (EvRun (with_sudo H sudo cmd) cwd r :: tr))) ->
  ends (bind (run_cmd H cmd cwd sudo) k) Q.
Proof.
  intros Hk s. unfold bind, run_cmd.
  destruct (h_exec H s _ cwd);
    match goal with
    | |- context [k ?r ?s1] =>
        destruct (Hk r eq_refl s1) as (tr & E & HQ)
    end;
    simpl in E; eexists (_ :: tr); rewrite E, <- app_assoc; eauto.
Qed.

Lemma ends_bind_assoc {X Y Z} (m : M X) (k : X -> M Y) (k' : Y -> M Z) Q :
  ends (bind m (fun a => bind (k a) k')) Q -> ends (bind (bind m k) k') Q.
Proof.
  intros Hm s. destruct (Hm s) as (tr & E & HQ). exists tr.
  unfold bind in *. destruct (m s) as [[a|e] s1]; auto.
Qed.

Lemma ends_weaken {X} (m : M X) (Q Q' : Outcome X -> list Event -> Prop) :
  ends m Q -> (forall o tr, Q o tr -> Q' o tr) -> ends m Q'.
Proof.
  intros Hm HQ s. destruct (Hm s) as (tr & E & H1). exists tr. auto.
Qed.

(** A computation with no continuation is one followed by [ret]. *)
Lemma ends_last {X} (m : M X) Q : ends (bind m ret) Q -> ends m Q.
Proof.
  intros Hm s. destruct (Hm s) as (tr & E & HQ). exists tr.
  unfold bind, ret in *. destruct (m s) as [[a|e] s1]; auto.
Qed.

Lemma emits_of_ends {X} (m : M X) P :
  ends m (fun _ tr => Forall P tr) -> emits P m.
Proof. intros Hm s. apply Hm. Qed.

Lemma ends_of_emits {X} (m : M X) P :
  emits P m -> ends m (fun _ tr => Forall P tr).
Proof. intros Hm s. apply Hm. Qed.

Lemma returns_of_ends {X} (m : M X) (Q : X -> Prop) :
  ends m (fun o _ => match o with Ret a => Q a | Raise _ => True end) ->
  returns m Q.
Proof.
  intros Hm s a E. destruct (Hm s) as (tr & _ & HQ). now rewrite E in HQ.
Qed.

(** What [ends] says about one run. *)
Lemma ends_run {X} (m : M X) Q s :
  ends m Q -> Q (fst (m s)) (new_events s (snd (m s))).
Proof.
  intros Hm. destruct (Hm s) as (tr & E & HQ).
  unfold new_events. rewrite E, drop_app_length. exact HQ.
Qed.

Lemma emits_run {X} (m : M X) P s :
  emits P m -> Forall P (new_events s (snd (m s))).
Proof. intros Hm. apply (ends_run m _ s (ends_of_emits _ _ Hm)). Qed.

(** *** [ends_at] *)

Lemma ends_at_of_ends {X} (m : M X) Q s : ends m Q -> ends_at m s Q.
Proof. intros Hm. apply Hm. Qed.

Lemma ends_at_run {X} (m : M X) Q s :
  ends_at m s Q -> Q (fst (m s)) (new_events s (snd (m s))).
Proof.
  intros (tr & E & HQ). unfold new_events. now rewrite E, drop_app_length.
Qed.

Lemma ends_at_ret {X} (a : X) Q s : Q (Ret a) [] -> ends_at (ret a) s Q.
Proof. intros HQ. exists []. simpl. rewrite app_nil_r. auto. Qed.

Lemma ends_at_raise {X} e (Q : Outcome X -> _) s :
  Q (Raise e) [] -> ends_at (raise e) s Q.
Proof. intros HQ. exists []. simpl. rewrite app_nil_r. auto. Qed.

Lemma ends_at_bind_gets {X Y} (f : State -> X) (k : X -> M Y) Q s :
  ends_at (k (f s)) s Q -> ends_at (bind (gets f) k) s Q.
Proof. intros Hk. exact Hk. Qed.

Lemma ends_at_bind_ret {X Y} (a : X) (k : X -> M Y) Q s :
  ends_at (k a) s Q -> ends_at (bind (ret a) k) s Q.
Proof. intros Hk. exact Hk. Qed.

Lemma ends_at_bind_raise {X Y} e (k : X -> M Y) (Q : Outcome Y -> _) s :
  Q (Raise e) [] -> ends_at (bind (raise e) k) s Q.
Proof. intros HQ. exists []. simpl. rewrite app_nil_r. auto. Qed.

Lemma ends_at_bind_run_cmd {Y} cmd cwd sudo (k : CommandResult -> M Y) Q s :
  (forall r s', cr_cmd r = PyStr.join " " (with_sudo H sudo cmd) ->
                ends_at (k r) s'
                  (fun o tr => Q o (EvRun (with_sudo H sudo cmd) cwd r :: tr))) ->
  ends_at (bind (run_cmd H cmd cwd sudo) k) s Q.
Proof.
  intros Hk. unfold ends_at, bind, run_cmd.
  destruct (h_exec H s _ cwd);
    match goal with
    | |- context [k ?r ?s1] =>
        destruct (Hk r s1 eq_refl) as (tr & E & HQ)
    end;
    simpl in E; eexists (_ :: tr); rewrite E, <- app_assoc; eauto.
Qed.

Lemma lslpp_owner_silent lib lines s :
  trace (snd (lslpp_owner lib lines s)) = trace s.
Proof.
  induction lines as [|line rest IH]; cbn [lslpp_owner]; [reflexivity|].
  destruct (PyStr.contains lib line); [|apply IH].
  destruct (2 <=? length (PyStr.split line))%nat; [|apply IH].
  unfold bind, item. now destruct (nth_error _ 1).
Qed.

Lemma emits_lslpp_owner lib lines P : emits P (lslpp_owner lib lines).
Proof. apply emits_silent, lslpp_owner_silent. Qed.

End Rules.

(** ** More rules: exceptions, and steps in front of a computation *)

Section Raises.

Variable H : Host.
Variable A : Agent.

Lemma raises_total {X} (m : M X) P :
  (forall s, exists a, fst (m s) = Ret a) -> raises_only P m.
Proof. intros Hm s e E. destruct (Hm s) as [a Ea]. congruence. Qed.

Lemma raises_ret {X} (a : X) P : raises_only P (ret a).
Proof. intros s e E. discriminate. Qed.

Lemma raises_raise {X} e (P : Exn -> Prop) : P e -> raises_only P (@raise X e).
Proof. intros HP s e' E. inversion E. now subst. Qed.

Lemma raises_gets {X} (f : State -> X) P : raises_only P (gets f).
Proof. intros s e E. discriminate. Qed.

Lemma raises_touch p P : raises_only P (touch p).
Proof. intros s e E. discriminate. Qed.

Lemma raises_add_artifact p P : raises_only P (add_artifact p).
Proof. intros s e E. discriminate. Qed.

Lemma raises_emit ev P : raises_only P (emit ev).
Proof. intros s e E. discriminate. Qed.

Lemma raises_run_cmd cmd cwd sudo P : raises_only P (run_cmd H cmd cwd sudo).
Proof. intros s e E. unfold run_cmd in E. destruct (h_exec _ _ _ _); discriminate. Qed.

Lemma raises_bind {X Y} (m : M X) (k : X -> M Y) P :
  raises_only P m -> (forall a, raises_only P (k a)) ->
  raises_only P (bind m k).
Proof.
  intros Hm Hk s e E. unfold bind in E.
  destruct (m s) as [[a|e'] s1] eqn:Em.
  - exact (Hk a s1 e E).
  - simpl in E. inversion E; subst e'. apply (Hm s). now rewrite Em.
Qed.

Lemma raises_foldM {X B} (f : B -> X -> M B) xs P :
  (forall b x, raises_only P (f b x)) -> forall b, raises_only P (foldM f xs b).
Proof.
  intros Hf. induction xs as [|x xs IH]; intros b; simpl.
  - apply raises_ret.
  - apply raises_bind; [apply Hf | intros b'; apply IH].
Qed.

Lemma raises_of_value {X} (m : M X) Q P :
  ends m (value Q) -> raises_only P m.
Proof.
  intros Hm s e E. destruct (Hm s) as (tr & _ & HQ).
  rewrite E in HQ. destruct HQ.
Qed.

Lemma raises_weaken {X} (m : M X) (P P' : Exn -> Prop) :
  raises_only P m -> (forall e, P e -> P' e) -> raises_only P' m.
Proof. intros Hm HP s e E. apply HP, (Hm s e E). Qed.

End Raises.

Lemma ends_bind_gets_such {X Y} (f : State -> X) (P : X -> Prop)
  (k : X -> M Y) Q :
  (forall s, P (f s)) ->
  (forall a, P a -> ends (k a) Q) ->
  ends (bind (gets f) k) Q.
Proof. intros Hf Hk s. apply (Hk (f s) (Hf s) s). Qed.

Lemma ends_of_emits_raises {X} (m : M X) P E :
  emits P m -> raises_only E m ->
  ends m (fun o tr => Forall P tr /\ forall e, o = Raise e -> E e).
Proof.
  intros Hm Hr s. destruct (Hm s) as (tr & Et & F). exists tr.
  split; [exact Et|]. split; [exact F|]. intros e Eo. exact (Hr s e Eo).
Qed.

Lemma ends_of_emits_total {X} (m : M X) P :
  emits P m -> raises_only (fun _ => False) m ->
  ends m (fun o tr => (exists x, o = Ret x) /\ Forall P tr).
Proof.
  intros Hm Hr s. destruct (Hm s) as (tr & E & F). exists tr.
  split; [exact E|]. split; [|exact F].
  destruct (fst (m s)) as [x|e] eqn:Eo; [eauto|].
  destruct (Hr s e Eo).
Qed.

(** A step that cannot raise and emits only [P] leaves a postcondition
    of the form "only [P], and the outcome is [R]" to what follows. *)
Lemma ends_bind_through {X Y} (m : M X) (k : X -> M Y) P
  (R : Outcome Y -> Prop) :
  emits P m -> raises_only (fun _ => False) m ->
  (forall a, ends (k a) (fun o tr => Forall P tr /\ R o)) ->
  ends (bind m k) (fun o tr => Forall P tr /\ R o).
Proof.
  intros Hm Hr Hk.
  eapply ends_bind; [apply (ends_of_emits_raises _ _ _ Hm Hr) | |].
  - intros a tr1 [F _]. eapply ends_weaken; [apply Hk|].
    intros o tr2 [F2 HR]. split; [now apply Forall_app | exact HR].
  - intros e tr1 [_ N]. destruct (N e eq_refl).
Qed.

(** A step that emits only [P] in front of a computation. *)
Lemma ends_bind_skip {X Y} (m : M X) (k : X -> M Y) P
  (Q : Outcome Y -> list Event -> Prop) :
  emits P m ->
  (forall a, ends (k a) Q) ->
  (forall o tr1 tr2, Forall P tr1 -> Q o tr2 -> Q o (tr1 ++ tr2)%list) ->
  (forall e tr1, Forall P tr1 -> Q (Raise e) tr1) ->
  ends (bind m k) Q.
Proof.
  intros Hm Hk Hmono Hraise.
  eapply ends_bind; [apply ends_of_emits, Hm | |].
  - intros a tr1 F. eapply ends_weaken; [apply Hk|].
    intros o tr2. now apply Hmono.
  - intros e tr1 F. now apply Hraise.
Qed.

(** A step that cannot raise and emits only [P] in front of a
    computation. *)
Lemma ends_bind_total_skip {X Y} (m : M X) (k : X -> M Y) P
  (Q : Outcome Y -> list Event -> Prop) :
  emits P m -> raises_only (fun _ => False) m ->
  (forall a, ends (k a) Q) ->
  (forall o tr1 tr2, Forall P tr1 -> Q o tr2 -> Q o (tr1 ++ tr2)%list) ->
  ends (bind m k) Q.
Proof.
  intros Hm Hr Hk Hmono.
  eapply ends_bind; [apply (ends_of_emits_raises _ _ _ Hm Hr) | |].
  - intros a tr1 [F _]. eapply ends_weaken; [apply Hk|].
    intros o tr2. now apply Hmono.
  - intros e tr1 [_ N]. destruct (N e eq_refl).
Qed.

Lemma returns_bind_of {X Y} (m : M X) (k : X -> M Y) (Q1 : X -> Prop)
  (Q : Y -> Prop) :
  returns m Q1 -> (forall a, Q1 a -> returns (k a) Q) ->
  returns (bind m k) Q.
Proof.
  intros Hm Hk s b E. unfold bind in E.
  destruct (m s) as [[a|e] s1] eqn:Em; [|discriminate].
  apply (Hk a (Hm s a (f_equal fst Em)) s1 b E).
Qed.

(** ** Automation for [emits] *)

(** The methods without recursion: unfolding them leaves a term built from
    the primitives, [run_cmd], the two loops and [lslpp_owner]. *)
Ltac unfold_methods :=
  unfold decide_and_execute, execute_strategy, post_checks, perform_upgrade,
    pm_upgrade, source_build, generate_readme, run_smoke_tests, check_binary,
    upgrade_application_dependencies, upgrade_packages, resolve_packages,
    identify_libraries, otool_line, run_logged, confirm_upgrade,
    resolve_package_owner, after_marker, side_install_from_source,
    si_download, si_extract, si_configure, si_make, si_test, si_install,
    si_register, prepare_backup, archive_backup, backup_tool, write_checksum,
    backup_pattern, backup_lib,
    detect_application_linking, detect_package_managers, detect_openssl_cli,
    inspect, item, copy2, write_file, log_snapshot_file, log_step, path_exists,
    which.

(** One syntax-directed step on a goal [emits P m]. *)
Ltac emits_step :=
  lazymatch goal with
  | |- emits _ (ret _) => apply emits_ret
  | |- emits _ (raise _) => apply emits_raise
  | |- emits _ (gets _) => apply emits_gets
  | |- emits _ (touch _) => apply emits_touch
  | |- emits _ (add_artifact _) => apply emits_add_artifact
  | |- emits _ (emit _) => apply emits_emit
  | |- emits _ (bind _ _) => apply emits_bind; [| intros ?]
  | |- emits _ (foldM _ _ _) => apply emits_foldM; intros ? ?
  | |- emits _ (run_cmd _ _ _ _) => apply emits_run_cmd; intros ?
  | |- emits _ (lslpp_owner _ _) => apply emits_lslpp_owner
  | |- emits _ (if ?b then _ else _) => destruct b
  | |- emits _ (match ?x with _ => _ end) => destruct x
  end.

Ltac emits_walk := unfold_methods; repeat emits_step.

(** One step on a goal [ends m Q]: the head of [m] is consumed and its
    events are pushed into [Q]. *)
Ltac ends_step :=
  lazymatch goal with
  | |- ends (ret _) _ => apply ends_ret
  | |- ends (raise _) _ => apply ends_raise
  | |- ends (bind (bind _ _) _) _ => apply ends_bind_assoc
  | |- ends (bind (ret _) _) _ => apply ends_bind_ret
  | |- ends (bind (raise _) _) _ => apply ends_bind_raise
  | |- ends (bind (gets _) _) _ => apply ends_bind_gets; intros ?
  | |- ends (bind (emit _) _) _ => apply ends_bind_emit
  | |- ends (bind (touch _) _) _ => apply ends_bind_touch
  | |- ends (bind (add_artifact _) _) _ => apply ends_bind_add_artifact
  | |- ends (bind (run_cmd _ _ _ _) _) _ => apply ends_bind_run_cmd; intros ? ?
  | |- ends (bind (if ?b then _ else _) _) _ => destruct b eqn:?
  | |- ends (bind (match ?x with _ => _ end) _) _ => destruct x eqn:?
  | |- ends (if ?b then _ else _) _ => destruct b eqn:?
  | |- ends (match ?x with _ => _ end) _ => destruct x eqn:?
  | |- ends (gets _) _ => apply ends_last
  | |- ends (emit _) _ => apply ends_last
  | |- ends (touch _) _ => apply ends_last
  | |- ends (add_artifact _) _ => apply ends_last
  | |- ends (run_cmd _ _ _ _) _ => apply ends_last
  end.

Ltac ends_walk := unfold_methods; repeat ends_step.

(** ** Strategy selection *)

Lemma mem_In x xs : PyStr.mem x xs = true <-> In x xs.
Proof.
  unfold PyStr.mem. rewrite existsb_exists. split.
  - intros (y & Hy & E). apply String.eqb_eq in E. now subst.
  - intros Hx. exists x. split; [assumption | apply String.eqb_refl].
Qed.

Lemma choose_strategy_type pms :
  st_type (choose_strategy pms)
  = if existsb (fun pm => PyStr.mem pm pms) first_class
    then PackageManager else SideInstall.
Proof. unfold choose_strategy. now destruct (existsb _ _). Qed.

Lemma first_class_detected pms :
  existsb (fun pm => PyStr.mem pm pms) first_class = true
  <-> exists pm, In pm first_class /\ In pm pms.
Proof.
  rewrite existsb_exists. split; intros (pm & Hf & Hp); exists pm;
    (split; [assumption | now apply mem_In]).
Qed.

Lemma strategy_kind_by_membership pms :
  (exists pm, In pm first_class /\ In pm pms) ->
  st_type (choose_strategy pms) = PackageManager.
Proof.
  intros Hex. rewrite choose_strategy_type.
  apply first_class_detected in Hex. now rewrite Hex.
Qed.

(** Everything [execute_strategy] does comes after its first log entry,
    which records the chosen strategy. *)
Lemma execute_strategy_logs_choice H A pms s :
  exists tr,
    trace (snd (execute_strategy H A pms s))
    = (trace s
         ++ EvLog (step_entry "strategy" "chosen" 0
                     (JsonStrategy (choose_strategy pms)) "") :: tr)%list.
Proof.
  unfold execute_strategy, log_step.
  set (rest := if dry_run (args A) then _ else _).
  assert (R : emits (fun _ => True)
                (touch (jsonl_path A) >> touch (commands_log A) >> rest)).
  { subst rest. emits_walk; exact I. }
  destruct (R (mkState (fs s)
                 (trace s ++ [EvLog (step_entry "strategy" "chosen" 0
                                       (JsonStrategy (choose_strategy pms)) "")])
                 (artifacts s))) as (tr & Etr & _).
  exists tr. simpl in Etr. rewrite <- app_assoc in Etr. exact Etr.
Qed.

(** C3. The strategy kind is a function of the set of detected package
    managers: it is [package-manager] when the set holds one of apt, dnf,
    yum, apk, zypper, brew, pkg, and [side-install] when it holds none; two
    lists with the same members give the same kind; and the orchestrator
    logs exactly this choice before it does anything else with it. *)
Theorem strategy_follows_first_class_managers (pms : list string) :
  ((exists pm, In pm first_class /\ In pm pms) ->
   st_type (choose_strategy pms) = PackageManager)
  /\ ((forall pm, In pm first_class -> ~ In pm pms) ->
      st_type (choose_strategy pms) = SideInstall)
  /\ (forall pms', (forall pm, In pm pms <-> In pm pms') ->
                   st_type (choose_strategy pms) = st_type (choose_strategy pms'))
  /\ (forall H A s, exists tr,
        trace (snd (execute_strategy H A pms s))
        = (trace s
             ++ EvLog (step_entry "strategy" "chosen" 0
                         (JsonStrategy (choose_strategy pms)) "") :: tr)%list).
Proof.
  repeat split.
  - apply strategy_kind_by_membership.
  - intros Hnone. rewrite choose_strategy_type.
    destruct (existsb _ first_class) eqn:E; [|reflexivity].
    apply first_class_detected in E. destruct E as (pm & Hf & Hp).
    now destruct (Hnone pm Hf).
  - intros pms' Hsame. rewrite !choose_strategy_type.
    assert (E : existsb (fun pm => PyStr.mem pm pms) first_class
                = existsb (fun pm => PyStr.mem pm pms') first_class).
    { apply eq_true_iff_eq. rewrite !first_class_detected.
      split; intros (pm & Hf & Hp); exists pm; split; auto; now apply Hsame. }
    now rewrite E.
  - intros H A s. apply execute_strategy_logs_choice.
Qed.

(** ** Smoke tests *)

Lemma count_processes_app tr1 tr2 :
  count_processes (tr1 ++ tr2) = (count_processes tr1 + count_processes tr2)%nat.
Proof. unfold count_processes. now rewrite List.filter_app, length_app. Qed.

Lemma smoke_status_no_checks checks :
  smoke_status checks = NoChecks <-> checks = [].
Proof.
  unfold smoke_status. destruct checks as [|c cs]; simpl.
  - tauto.
  - destruct (sc_ok c && forallb sc_ok cs); simpl; split; discriminate.
Qed.

Lemma smoke_status_pass checks :
  smoke_status checks = Pass
  <-> checks <> [] /\ Forall (fun c => sc_ok c = true) checks.
Proof.
  unfold smoke_status. rewrite List.Forall_forall, <- forallb_forall.
  destruct checks as [|c cs].
  - simpl. split; [discriminate | intros [E _]; now destruct E].
  - destruct (forallb sc_ok (c :: cs)); simpl; split; try discriminate; auto.
    intros [_ E]. discriminate.
Qed.

Lemma smoke_status_fail checks :
  smoke_status checks = Fail
  <-> checks <> [] /\ Exists (fun c => sc_ok c = false) checks.
Proof.
  unfold smoke_status. destruct checks as [|c cs].
  - simpl. split; [discriminate | intros [E _]; now destruct E].
  - destruct (forallb sc_ok (c :: cs)) eqn:E; simpl.
    + split; [discriminate|]. intros [_ Hex]. exfalso.
      rewrite forallb_forall in E. apply List.Exists_exists in Hex.
      destruct Hex as (x & Hin & Hx). rewrite (E x Hin) in Hx. discriminate.
    + split; [intros _ | reflexivity]. split; [discriminate|].
      apply List.Exists_exists.
      assert (N : ~ (forall x, In x (c :: cs) -> sc_ok x = true)).
      { rewrite <- forallb_forall, E. discriminate. }
      clear E. induction (c :: cs) as [|x xs IH].
      * exfalso. apply N. intros x [].
      * destruct (sc_ok x) eqn:Ex.
        -- destruct IH as (y & Hy & Ey).
           { intros Hall. apply N. intros z [->|Hz]; auto. }
           exists y. split; [now right | assumption].
        -- exists x. split; [now left | assumption].
Qed.

(** One binary checked: one process, one more check. *)
Lemma check_binary_ends H A checks bin :
  ends (check_binary H A checks bin)
       (value (fun cs tr => length cs = S (length checks)
                            /\ count_processes tr = 1%nat)).
Proof.
  ends_walk. simpl. rewrite length_app. simpl. split; [lia | reflexivity].
Qed.

Lemma check_binaries_ends H A bins : forall checks,
  ends (foldM (check_binary H A) bins checks)
       (value (fun cs tr => length cs
                            = (length checks + count_processes tr)%nat)).
Proof.
  induction bins as [|bin bins IH]; intros checks; simpl.
  - apply ends_ret. unfold count_processes. simpl. lia.
  - eapply ends_bind; [apply check_binary_ends | |].
    + intros cs tr1 [Hlen Hone]. eapply ends_weaken; [apply IH|].
      intros [cs'|e] tr2; simpl; [|tauto].
      rewrite count_processes_app. lia.
    + intros e tr1 [].
Qed.

(** [run_smoke_tests] always returns; its status is [smoke_status] of the
    checks it lists, and it lists one check per process it ran. *)
Lemma run_smoke_tests_ends H A :
  ends (run_smoke_tests H A)
       (value (fun r tr => sr_status r = smoke_status (sr_checks r)
                           /\ length (sr_checks r) = count_processes tr)).
Proof.
  unfold run_smoke_tests, which, path_exists. do 2 ends_step.
  eapply ends_bind; [apply check_binaries_ends | | intros e tr1 []].
  intros cs tr1 Hcs. simpl in Hcs.
  unfold log_step. repeat ends_step.
  all: simpl; split; [reflexivity|].
  all: rewrite ?length_app, ?count_processes_app, Hcs.
  all: unfold count_processes; simpl; lia.
Qed.

(** Without a binary on the search path, without one under the
    side-install prefix and without a health target, nothing is checked. *)
Lemma run_smoke_tests_nothing_to_check H A s r :
  h_which H s "openssl" = None ->
  side_install_bin A ∉ fs s ->
  given (health_url (args A)) = None ->
  fst (run_smoke_tests H A s) = Ret r ->
  sr_checks r = [].
Proof.
  intros Hw Hside Hh. unfold run_smoke_tests, which, path_exists, bind, gets.
  rewrite Hw, (bool_decide_eq_false_2 _ Hside). simpl.
  rewrite Hw, Hh. simpl. intros E. inversion E. reflexivity.
Qed.


(** ** The source build pipeline: what it returns *)

(** The two shapes of a returned build result.  On success the prefix is
    recorded and the install command is among the steps with exit code 0;
    on failure there is no prefix and the last step has a non-zero exit
    code. *)
Lemma side_install_result_shape H A version prefix :
  returns (side_install_from_source H A version prefix)
    (fun r =>
       let p := match prefix with
                | Some p => p
                | None => "/opt/openssl-" ++ version
                end in
       (br_status r = StatusOk /\ br_prefix r = Some p
        /\ exists step, In step (br_steps r)
                        /\ cr_cmd step = PyStr.join " " (install_cmd p)
                        /\ cr_exit step = 0)
       \/ (br_status r = StatusError /\ br_prefix r = None
           /\ exists step, last (br_steps r) = Some step
                           /\ cr_exit step <> 0)).
Proof.
  apply returns_of_ends. ends_walk.
  all: try exact I.
  all: cbv zeta; cbn [br_status br_prefix br_steps failed app].
  all: first
    [ left; split; [reflexivity | split; [reflexivity|]];
      match goal with
      | Hc : cr_cmd ?r = PyStr.join " " (with_sudo _ false (install_cmd _)),
        He : (cr_exit ?r =? 0) = true |- _ =>
          exists r; split; [simpl; tauto | split; [exact Hc | now apply Z.eqb_eq]]
      end
    | right; split; [reflexivity | split; [reflexivity|]];
      eexists; split; [reflexivity|]; cbn [cr_exit];
      first [ discriminate | now apply Z.eqb_neq ] ].
Qed.

Ltac in_last := first [ right; in_last | left; reflexivity ].

(** Close a goal [fatal_step H p argv] for one of the four commands. *)
Ltac is_fatal :=
  unfold fatal_step, with_sudo; cbn [andb negb hd alt_cmd install_cmd];
  first [ left; reflexivity
        | right; left; reflexivity
        | right; right; left; eexists; reflexivity
        | right; right; right; reflexivity ].

(** Refute a hypothesis [fatal_step H p argv] for any other command of
    the pipeline. *)
Ltac not_fatal Hf :=
  unfold fatal_step, cfg_cmd, alt_cmd, make_cmd, install_cmd, test_cmd,
    with_sudo in Hf;
  cbn [andb negb] in Hf;
  repeat match type of Hf with
         | context [if ?b then _ else _] => destruct b
         end;
  cbn [hd] in Hf;
  destruct Hf as [Hf|[Hf|[[? Hf]|Hf]]];
  try discriminate Hf;
  repeat match type of Hf with
         | context [if ?b then _ else _] => destruct b
         end;
  discriminate Hf.

(** Every failure ends the build where it happens.  A command whose
    failure is fatal and that exited with a non-zero code is the last
    process of the call and the last step of the result; a fallback
    download that failed leaves the [download-failed] step last, after the
    one process that ran; and an error result has one of the three causes:
    missing tools, a failed download, a failed fatal command. *)
Lemma side_install_failures H A version prefix :
  ends (side_install_from_source H A version prefix)
    (fun o tr =>
       let p := match prefix with
                | Some p => p
                | None => "/opt/openssl-" ++ version
                end in
       match o with
       | Ret r =>
           (forall argv step,
              In (argv, step) (results tr) ->
              cr_exit step <> 0 ->
              fatal_step H p argv ->
              br_status r = StatusError /\ br_prefix r = None
              /\ last (br_steps r) = Some step
              /\ last (results tr) = Some (argv, step))
           /\ (forall url dst,
                 In (EvUrlopen url dst false) tr ->
                 br_status r = StatusError /\ br_prefix r = None
                 /\ (exists step, last (br_steps r) = Some step
                                  /\ cr_cmd step = "download-failed"
                                  /\ cr_exit step = 1)
                 /\ length (results tr) = 1%nat)
           /\ (br_status r = StatusError ->
               (exists missing, missing <> []
                                /\ br_steps r = [tools_step missing]
                                /\ results tr = [])
               \/ (exists url dst, In (EvUrlopen url dst false) tr)
               \/ (exists argv step,
                     In (argv, step) (results tr)
                     /\ cr_exit step <> 0 /\ fatal_step H p argv))
       | Raise _ => True
       end).
Proof.
  ends_walk.
  all: try exact I.
  all: cbv zeta;
    cbn [br_status br_prefix br_steps failed List.app results flat_map].
  all: split; [|split].
  (* a failed command that ends the build *)
  all: try (intros argv step Hin Hne Hf;
    repeat match goal with
      | Hin : In _ (_ :: _) |- _ => destruct Hin as [Hin|Hin]
      | Hin : In _ [] |- _ => destruct Hin
      end;
    match goal with
    | Heq : (_, _) = (_, _) |- _ => inversion Heq; clear Heq; subst argv step
    end;
    first
      [ match goal with
        | He : (cr_exit ?r =? 0) = true |- _ =>
            apply Z.eqb_eq in He; contradiction
        end
      | repeat split; reflexivity
      | exfalso; not_fatal Hf ]).
  (* the fallback download *)
  all: try (intros url dst Hin;
    repeat match goal with
      | Hin : In _ (_ :: _) |- _ => destruct Hin as [Hin|Hin]
      | Hin : In _ [] |- _ => destruct Hin
      end;
    try discriminate Hin;
    repeat split; eexists; repeat split; fail).
  (* what an error result comes from *)
  all: intros Hs; try discriminate Hs.
  all: first
    [ left; eexists; split; [|split; reflexivity]; discriminate
    | right; left; do 2 eexists; cbn; tauto
    | right; right; do 2 eexists;
      split; [in_last|];
      split; [apply Z.eqb_neq; eassumption|];
      is_fatal ].
Qed.

(** On a host without its build tools the pipeline stops before it
    starts anything. *)
Lemma side_install_missing_tools H A version prefix s workdir :
  h_mkdtemp H s = Some workdir ->
  missing_tools H A (in_workdir s workdir) <> [] ->
  let out := side_install_from_source H A version prefix s in
  fst out = Ret (failed [tools_step (missing_tools H A (in_workdir s workdir))])
  /\ results (new_events s (snd out)) = [].
Proof.
  intros Hw Hm out. subst out.
  unfold side_install_from_source, bind, gets, emit, touch, new_events.
  rewrite Hw. cbn [fst snd fs trace artifacts].
  change (mkState ({[workdir]} ∪ fs s)
                  (trace s ++ [EvMkdtemp (Some workdir)]) (artifacts s))
    with (in_workdir s workdir).
  destruct (missing_tools H A (in_workdir s workdir)) as [|t rest] eqn:E;
    [contradiction|].
  unfold log_step, bind, emit, touch, ret. cbn [fst snd trace in_workdir].
  split; [reflexivity|].
  rewrite <- app_assoc, drop_app_length. reflexivity.
Qed.

(** C4, as the code has it.  A build result that is returned records the
    install prefix exactly when its status is [ok] (and then the install
    command succeeded); otherwise the status is [error], the last recorded
    step has a non-zero exit code, and no prefix is recorded.  Every
    failure is such an outcome, and ends the build where it happens:
    - missing build tools: the one step [check-build-tools], and no process
      was started;
    - a failed download (curl, then urllib): the step [download-failed] is
      the last one, and curl is the only process that ran;
    - a failed extraction, a failed alternative configure command (which
      is only run after the primary one failed), a failed [make -j N], a
      failed [make install]: that command is the last process of the call
      and its result is the last step.
    An error result has one of these causes. *)
Theorem prefix_recorded_exactly_on_success
  (H : Host) (A : Agent) (version : string) (prefix : option string)
  (s : State) (r : BuildResult) :
  fst (side_install_from_source H A version prefix s) = Ret r ->
  let p := match prefix with
           | Some p => p
           | None => "/opt/openssl-" ++ version
           end in
  let tr := new_events s (snd (side_install_from_source H A version prefix s)) in
  ((br_status r = StatusOk /\ br_prefix r = Some p
    /\ exists step, In step (br_steps r)
                    /\ cr_cmd step = PyStr.join " " (install_cmd p)
                    /\ cr_exit step = 0)
   \/ (br_status r = StatusError /\ br_prefix r = None
       /\ exists step, last (br_steps r) = Some step /\ cr_exit step <> 0))
  /\ (forall workdir,
        h_mkdtemp H s = Some workdir ->
        missing_tools H A (in_workdir s workdir) <> [] ->
        br_status r = StatusError /\ br_prefix r = None
        /\ br_steps r = [tools_step (missing_tools H A (in_workdir s workdir))]
        /\ results tr = [])
  /\ (forall url dst,
        In (EvUrlopen url dst false) tr ->
        br_status r = StatusError /\ br_prefix r = None
        /\ (exists step, last (br_steps r) = Some step
                         /\ cr_cmd step = "download-failed"
                         /\ cr_exit step = 1)
        /\ length (results tr) = 1%nat)
  /\ (forall argv step,
        In (argv, step) (results tr) ->
        cr_exit step <> 0 ->
        fatal_step H p argv ->
        br_status r = StatusError /\ br_prefix r = None
        /\ last (br_steps r) = Some step
        /\ last (results tr) = Some (argv, step))
  /\ (br_status r = StatusError ->
      (exists missing, missing <> []
                       /\ br_steps r = [tools_step missing]
                       /\ results tr = [])
      \/ (exists url dst, In (EvUrlopen url dst false) tr)
      \/ (exists argv step,
            In (argv, step) (results tr)
            /\ cr_exit step <> 0 /\ fatal_step H p argv)).
Proof.
  intros E p tr.
  split; [exact (side_install_result_shape H A version prefix s r E)|].
  pose proof (ends_run _ _ s (side_install_failures H A version prefix)) as F.
  rewrite E in F. cbv zeta in F. fold p tr in F.
  destruct F as (Fatal & Download & Cause).
  split; [|split; [exact Download | split; [exact Fatal | exact Cause]]].
  intros workdir Hw Hm.
  destruct (side_install_missing_tools H A version prefix s workdir Hw Hm)
    as [Er Ep].
  rewrite E in Er. inversion Er. split; [reflexivity|].
  split; [reflexivity|]. split; [reflexivity | exact Ep].
Qed.

(** On a host without build tools the pipeline returns a result with no
    prefix in it: the claim that every outcome records the prefix fails. *)
Lemma missing_tools_result_has_no_prefix :
  exists r,
    fst (side_install_from_source bare_host (agent_on "linux" upgrade_to_308)
           "3.0.8" None empty_state) = Ret r
    /\ br_status r = StatusError
    /\ br_prefix r = None
    /\ br_steps r
       = [mkResult "check-build-tools" 1 ""
                   "Missing build tools: make, perl, C compiler"].
Proof. eexists. split; [vm_compute; reflexivity|]. repeat split. Qed.

(** The call on [no_make_host], where the sources do not compile: four
    processes, the last of them the failed [make]. *)
Example failed_make_runs_nothing_more :
  map (fun '(argv, step) => (hd "" argv, cr_exit step))
      (results (new_events empty_state (snd failed_make_call)))
  = [("bash", 0); ("tar", 0); ("./config", 0); ("make", 2)]
  /\ option_map br_steps (match fst failed_make_call with
                          | Ret r => Some r
                          | Raise _ => None
                          end)
     = Some [mkResult "bash -lc curl -fL https://www.openssl.org/source/openssl-3.0.8.tar.gz -o /tmp3k2xq9/openssl-3.0.8.tar.gz" 0 "" "";
             mkResult "tar xzf /tmp3k2xq9/openssl-3.0.8.tar.gz -C /tmp3k2xq9" 0 "" "";
             mkResult "./config --prefix=/opt/openssl-3.0.8 shared" 0 "" "";
             failed_make].
Proof. split; vm_compute; reflexivity. Qed.

(** The theorem at that call: the result is an error result without a
    prefix, and the failed [make] is the last process and the last
    step. *)
Lemma failed_make_leaves_no_prefix :
  exists r,
    fst failed_make_call = Ret r
    /\ In (["make"; "-j"; "4"], failed_make)
          (results (new_events empty_state (snd failed_make_call)))
    /\ br_status r = StatusError /\ br_prefix r = None
    /\ last (br_steps r) = Some failed_make
    /\ last (results (new_events empty_state (snd failed_make_call)))
       = Some (["make"; "-j"; "4"], failed_make).
Proof.
  eexists. split; [vm_compute; reflexivity|].
  split; [vm_compute; tauto|].
  refine (proj1 (proj2 (proj2 (proj2
            (prefix_recorded_exactly_on_success no_make_host
               (agent_on "linux" upgrade_to_308) "3.0.8" None empty_state
               _ _)))) ["make"; "-j"; "4"] failed_make _ _ _).
  - vm_compute. reflexivity.
  - vm_compute. tauto.
  - discriminate.
  - right. right. left. exists None. reflexivity.
Defined.

(** ** Owner resolution *)

Lemma split_on_nonempty sep s : PyStr.split_on sep s <> [].
Proof.
  destruct s as [|c s]; simpl; [discriminate|].
  destruct (Ascii.eqb c sep); [discriminate|].
  destruct (PyStr.split_on sep s); discriminate.
Qed.

Lemma lstrip_head s c r : PyStr.lstrip s = String c r -> PyStr.is_space c = false.
Proof.
  induction s as [|c' s IH]; simpl; [discriminate|].
  destruct (PyStr.is_space c') eqn:E; [exact IH|].
  intros E'. inversion E'. now subst.
Qed.

Lemma rstrip_head c r :
  PyStr.is_space c = false ->
  PyStr.rstrip (String c r) = String c (PyStr.rstrip r).
Proof. intros E. simpl. rewrite E. now destruct (PyStr.rstrip r). Qed.

Lemma words_from_nonempty s : forall cur,
  cur <> "" -> PyStr.words_from cur s <> [].
Proof.
  induction s as [|c s IH]; intros cur Hcur; simpl.
  - destruct (String.eqb_spec cur ""); [contradiction | discriminate].
  - destruct (PyStr.is_space c).
    + destruct (String.eqb_spec cur ""); [contradiction | discriminate].
    + apply IH. destruct cur; discriminate.
Qed.

(** A stripped string that is not empty has a first word. *)
Lemma split_strip_nonempty s :
  PyStr.strip s <> "" -> PyStr.split (PyStr.strip s) <> [].
Proof.
  unfold PyStr.strip. destruct (PyStr.lstrip s) as [|c r] eqn:E.
  - intros N. now destruct N.
  - intros _. rewrite (rstrip_head _ _ (lstrip_head _ _ _ E)).
    unfold PyStr.split. simpl. rewrite (lstrip_head _ _ _ E).
    apply words_from_nonempty. discriminate.
Qed.

Lemma nth_error_nonempty {X} (xs : list X) : xs <> [] -> nth_error xs 0 <> None.
Proof. destruct xs; [contradiction | discriminate]. Qed.

(** The first occurrence of a marker that has a successor witnesses
    [segment_after]. *)
Lemma index_of_segment_after marker parts : forall idx,
  PyStr.index_of marker parts = Some idx ->
  (idx + 1 < length parts)%nat ->
  segment_after marker parts.
Proof.
  induction parts as [|y ys IH]; intros idx; simpl; [discriminate|].
  destruct (String.eqb_spec y marker) as [->|N].
  - intros E Hlen. inversion E; subst. destruct ys as [|x post].
    + simpl in Hlen. lia.
    + now exists [], x, post.
  - destruct (PyStr.index_of marker ys) as [i|]; [|discriminate].
    intros E Hlen. inversion E; subst. simpl in Hlen.
    destruct (IH i eq_refl) as (pre & x & post & ->); [lia|].
    now exists (y :: pre), x, post.
Qed.

(** The scan of [lslpp -w] output never raises, runs nothing, and finds
    an owner only in a row that names the path. *)
Lemma lslpp_owner_ends lib lines :
  ends (lslpp_owner lib lines)
    (value (fun o tr =>
              tr = [] /\ (existsb (lslpp_row lib) lines = false -> o = None))).
Proof.
  induction lines as [|line rest IH]; cbn [lslpp_owner].
  - apply ends_ret. simpl. auto.
  - unfold lslpp_row at 1. cbn [existsb].
    destruct (PyStr.contains lib line) eqn:Ec; cbn [andb].
    + destruct (2 <=? length (PyStr.split line))%nat eqn:El.
      * unfold item. destruct (nth_error (PyStr.split line) 1) eqn:En.
        -- repeat ends_step. simpl. split; [reflexivity | discriminate].
        -- apply Nat.leb_le in El. apply nth_error_None in En. lia.
      * exact IH.
    + exact IH.
Qed.

Ltac owner_raise :=
  lazymatch goal with
  | Hn : nth_error (PyStr.split_on _ _) 0 = None |- False =>
      exact (nth_error_nonempty _ (split_on_nonempty _ _) Hn)
  | Hn : nth_error (PyStr.split (PyStr.strip _)) 0 = None,
    Hb : _ && negb (String.eqb (PyStr.strip _) "") = true |- False =>
      apply andb_prop in Hb; destruct Hb as [_ Hb];
      apply negb_true_iff, String.eqb_neq in Hb;
      exact (nth_error_nonempty _ (split_strip_nonempty _ Hb) Hn)
  | Hn : nth_error ?parts (?idx + 1) = None,
    Hb : (?idx + 1 <? length ?parts)%nat = true |- False =>
      apply Nat.ltb_lt in Hb; apply nth_error_None in Hn; lia
  end.

Ltac owner_hit :=
  lazymatch goal with
  | Hhit : Forall (no_hit _) [EvRun _ _ _] |- _ =>
      inversion Hhit as [|? ? Hn _]; subst;
      unfold no_hit, db_hit, with_sudo in Hn; simpl in Hn; congruence
  end.

Ltac owner_heuristic :=
  lazymatch goal with
  | Hheur : ~ heuristic_matches _ _,
    Hi : PyStr.index_of _ _ = Some ?idx,
    Hb : (?idx + 1 <? length _)%nat = true |- _ =>
      apply Hheur; apply Nat.ltb_lt in Hb;
      first
        [ left; split;
          [ now apply String.eqb_eq
          | exact (index_of_segment_after _ _ _ Hi Hb) ]
        | right; split; [now apply String.eqb_eq|]; split;
          [ match goal with
            | Hc : _ && _ = true |- _ => now apply andb_prop in Hc
            end
          | exact (index_of_segment_after _ _ _ Hi Hb) ] ]
  end.

(** [resolve_package_owner] never raises, and what it returns without a
    database answer and without a matching heuristic is [None]. *)
Lemma resolve_package_owner_ends H A lib :
  ends (resolve_package_owner H A lib)
    (value (fun o tr =>
              Forall (no_hit lib) tr ->
              ~ heuristic_matches (platform A) lib ->
              o = None)).
Proof.
  ends_walk.
  all: try (cbn [value]; first [ reflexivity | owner_raise ]).
  all: try (cbn [value]; intros Hhit Hheur; first [reflexivity | exfalso];
            first [owner_hit | owner_heuristic]).
  eapply ends_weaken; [apply lslpp_owner_ends|].
  intros [o|e] tr; cbn [value]; [|tauto].
  intros [-> Hnone] Hhit _. apply Hnone.
  inversion Hhit as [|? ? Hn _]; subst. exact Hn.
Qed.

Lemma emits_run_cmd_not_started H cmd cwd sudo :
  (forall s argv cwd, exists msg, h_exec H s argv cwd = NotStarted msg) ->
  emits not_started (run_cmd H cmd cwd sudo).
Proof.
  intros Hhost s. unfold run_cmd.
  destruct (Hhost s (with_sudo H sudo cmd) cwd) as [msg ->].
  eexists [_]. simpl. split; [reflexivity|]. constructor; simpl; auto.
Qed.

Lemma resolve_package_owner_not_started H A lib :
  (forall s argv cwd, exists msg, h_exec H s argv cwd = NotStarted msg) ->
  emits not_started (resolve_package_owner H A lib).
Proof.
  intros Hhost. unfold_methods.
  repeat first [ apply (emits_run_cmd_not_started _ _ _ _ Hhost) | emits_step ].
Qed.

Lemma not_started_no_hit lib e : not_started e -> no_hit lib e.
Proof.
  destruct e as [argv cwd r| | | | | | | | | | |]; simpl; auto.
  intros [Hexit Hout]. unfold db_hit. rewrite Hexit, Hout.
  destruct argv as [|tool argv]; [reflexivity|].
  repeat match goal with
         | |- context [String.eqb tool ?t] => destruct (String.eqb tool t)
         end; reflexivity.
Qed.

(** C8. On every platform and for every path, [resolve_package_owner]
    returns (it never raises).  It returns [None] whenever none of the
    database queries it ran names an owner and no path heuristic matches;
    in particular when no database tool can be started on the host. *)
Theorem owner_resolution_is_total_and_absent_without_evidence
  (H : Host) (A : Agent) (lib_path : string) (s : State) :
  exists o,
    fst (resolve_package_owner H A lib_path s) = Ret o
    /\ (Forall (no_hit lib_path)
               (new_events s (snd (resolve_package_owner H A lib_path s))) ->
        ~ heuristic_matches (platform A) lib_path ->
        o = None)
    /\ ((forall s' argv cwd, exists msg,
            h_exec H s' argv cwd = NotStarted msg) ->
        ~ heuristic_matches (platform A) lib_path ->
        o = None).
Proof.
  pose proof (ends_run _ _ s (resolve_package_owner_ends H A lib_path)) as R.
  destruct (fst (resolve_package_owner H A lib_path s)) as [o|e];
    [|destruct R].
  exists o. split; [reflexivity|]. split; [exact R|].
  intros Hhost Hheur. apply R; [|exact Hheur].
  eapply List.Forall_impl;
    [| apply (emits_run _ _ s
                (resolve_package_owner_not_started H A lib_path Hhost))].
  intros e. apply not_started_no_hit.
Qed.

(** C7, as the code has it.  On linux the database is chosen by the tool
    that is present: with dpkg on the host, [dpkg -S] is the only query
    and its answer is final (rpm is not asked, whatever dpkg says); rpm is
    asked only on a host without dpkg; with neither, nothing is run. *)
Theorem linux_owner_lookup_by_available_tool
  (H : Host) (A : Agent) (lib_path : string) (s : State) :
  platform A = "linux" ->
  let out := resolve_package_owner H A lib_path s in
  match h_which H s "dpkg", h_which H s "rpm" with
  | Some _, _ =>
      exists r,
        new_events s (snd out) = [EvRun ["dpkg"; "-S"; lib_path] None r]
        /\ fst out
           = Ret (if (cr_exit r =? 0) && PyStr.contains ":" (cr_stdout r)
                  then Some (PyStr.strip
                               (hd "" (PyStr.split_on ":" (cr_stdout r))))
                  else None)
  | None, Some _ =>
      exists r,
        new_events s (snd out) = [EvRun ["rpm"; "-qf"; lib_path] None r]
        /\ fst out
           = Ret (if cr_exit r =? 0 then Some (PyStr.strip (cr_stdout r))
                  else None)
  | None, None => new_events s (snd out) = [] /\ fst out = Ret None
  end.
Proof.
  intros Hp out. subst out.
  set (m := resolve_package_owner H A lib_path).
  assert (W : forall Q, ends_at m s Q
                        -> Q (fst (m s)) (new_events s (snd (m s))))
    by (intros Q; apply ends_at_run).
  subst m. unfold resolve_package_owner in *. rewrite Hp in *.
  cbn [String.eqb Ascii.eqb Bool.eqb] in *. unfold which in *.
  destruct (h_which H s "dpkg") as [dpkg|] eqn:Ed;
    [|destruct (h_which H s "rpm") as [rpm|] eqn:Er].
  - apply (W (fun o tr => exists r, tr = [EvRun _ None r] /\ o = Ret _)).
    apply ends_at_bind_gets. rewrite Ed. cbn [found].
    apply ends_at_bind_run_cmd. intros r s' _.
    destruct ((cr_exit r =? 0) && PyStr.contains ":" (cr_stdout r)) eqn:Ec.
    + unfold item.
      destruct (PyStr.split_on ":" (cr_stdout r)) as [|x xs] eqn:Es;
        [now destruct (split_on_nonempty ":" (cr_stdout r))|].
      cbn [nth_error]. apply ends_at_bind_ret, ends_at_ret.
      exists r. split; [reflexivity|]. now rewrite Ec, Es.
    + apply ends_at_ret. exists r. split; [reflexivity|]. now rewrite Ec.
  - apply (W (fun o tr => exists r, tr = [EvRun _ None r] /\ o = Ret _)).
    apply ends_at_bind_gets. rewrite Ed. cbn [found].
    apply ends_at_bind_gets. rewrite Er. cbn [found].
    apply ends_at_bind_run_cmd. intros r s' _.
    destruct (cr_exit r =? 0) eqn:Ec; apply ends_at_ret; exists r;
      (split; [reflexivity|]); now rewrite Ec.
  - apply (W (fun o tr => tr = [] /\ o = Ret None)).
    apply ends_at_bind_gets. rewrite Ed. cbn [found].
    apply ends_at_bind_gets. rewrite Er. cbn [found].
    apply ends_at_ret. split; reflexivity.
Qed.

(** On a host with both databases where dpkg does not know the path and
    rpm does, only dpkg is asked and the owner stays unknown: the rpm
    lookup is not attempted after a failed dpkg lookup. *)
Lemma rpm_not_asked_after_dpkg_miss :
  h_which two_db_host empty_state "rpm" = Some "/usr/bin/rpm"
  /\ h_exec two_db_host empty_state ["rpm"; "-qf"; libfoo] None
     = Started 0 "libfoo-1.2-3.x86_64" "" ∅
  /\ fst two_db_lookup = Ret None
  /\ trace (snd two_db_lookup)
     = [EvRun ["dpkg"; "-S"; libfoo] None
          (mkResult "dpkg -S /opt/lib/libfoo.so" 1 ""
                    "dpkg-query: no path found matching pattern")]
  /\ count_runs ["rpm"; "-qf"; libfoo] (trace (snd two_db_lookup)) = 0%nat.
Proof. repeat split; vm_compute; reflexivity. Qed.

(** The theorem at the same host: dpkg is there, so dpkg alone is asked. *)
Lemma linux_lookup_on_two_db_host :
  platform (agent_on "linux" upgrade_to_308) = "linux"
  /\ exists r,
       new_events empty_state (snd two_db_lookup)
       = [EvRun ["dpkg"; "-S"; libfoo] None r]
       /\ fst two_db_lookup
          = Ret (if (cr_exit r =? 0) && PyStr.contains ":" (cr_stdout r)
                 then Some (PyStr.strip
                              (hd "" (PyStr.split_on ":" (cr_stdout r))))
                 else None).
Proof.
  split; [reflexivity|].
  exact (linux_owner_lookup_by_available_tool two_db_host
           (agent_on "linux" upgrade_to_308) libfoo empty_state eq_refl).
Defined.

(** ** The source build pipeline: configure and its fallback *)

Lemma argv_eqb_refl a : argv_eqb a a = true.
Proof. induction a as [|x a IH]; simpl; [|rewrite String.eqb_refl]; auto. Qed.

Lemma count_runs_app x tr1 tr2 :
  count_runs x (tr1 ++ tr2) = (count_runs x tr1 + count_runs x tr2)%nat.
Proof. unfold count_runs. now rewrite List.filter_app, length_app. Qed.

Lemma count_runs_none x tr :
  Forall (fun e => is_run x e = false) tr -> count_runs x tr = 0%nat.
Proof.
  unfold count_runs. induction 1 as [|e tr He _ IH]; simpl; [reflexivity|].
  now rewrite He.
Qed.

Lemma not_run_not_in x tr cwd r :
  Forall (fun e => is_run x e = false) tr -> ~ In (EvRun x cwd r) tr.
Proof.
  intros F Hin. rewrite List.Forall_forall in F. specialize (F _ Hin).
  simpl in F. rewrite argv_eqb_refl in F. discriminate.
Qed.

Lemma past_configure_cfg cfg alt tr :
  Forall (past_configure cfg alt) tr -> Forall (fun e => is_run cfg e = false) tr.
Proof. intros F. eapply List.Forall_impl; [|exact F]. now intros e [? ?]. Qed.

Lemma past_configure_alt cfg alt tr :
  Forall (past_configure cfg alt) tr -> Forall (fun e => is_run alt e = false) tr.
Proof. intros F. eapply List.Forall_impl; [|exact F]. now intros e [? ?]. Qed.

Lemma before_configure_past cfg alt tr :
  Forall (before_configure cfg alt) tr -> Forall (past_configure cfg alt) tr.
Proof. intros F. eapply List.Forall_impl; [|exact F]. now intros e [? ?]. Qed.

Lemma before_configure_not_build cfg alt tr :
  Forall (before_configure cfg alt) tr -> Forall (on_runs not_build_cmd) tr.
Proof. intros F. eapply List.Forall_impl; [|exact F]. now intros e [? ?]. Qed.

(** A run that stopped before configure satisfies the property for want
    of a configure command. *)
Lemma fallback_holds_before cfg alt o tr :
  Forall (before_configure cfg alt) tr ->
  configure_fallback_holds cfg alt o tr.
Proof.
  intros F cwd r Hin _. exfalso.
  eapply not_run_not_in; [|exact Hin].
  now apply past_configure_cfg with alt, before_configure_past.
Qed.

(** A run that reached configure satisfies it by the shape of its
    trace. *)
Lemma fallback_holds_from_shape cfg alt o pre tr :
  argv_eqb cfg alt = false ->
  not_build_cmd cfg = true ->
  not_build_cmd alt = true ->
  Forall (before_configure cfg alt) pre ->
  configure_shape cfg alt o tr ->
  configure_fallback_holds cfg alt o (pre ++ tr).
Proof.
  intros Hdiff Hcfg Halt Fpre (cwd1 & r1 & l1 & rest & -> & Hrest) cwd r Hin Hx.
  assert (Fpast := before_configure_past _ _ _ Fpre).
  assert (Hr : r = r1 /\ cr_exit r1 <> 0).
  { apply in_app_or in Hin. destruct Hin as [Hin|[Hin|[Hin|Hin]]].
    - exfalso. eapply not_run_not_in; [|exact Hin].
      now apply past_configure_cfg with alt.
    - inversion Hin; subst. auto.
    - discriminate.
    - exfalso. destruct Hrest as [[_ F]|[_ (c2 & r2 & l2 & rest2 & -> & H2)]].
      + eapply not_run_not_in; [|exact Hin]. now apply past_configure_cfg with alt.
      + destruct Hin as [Hin|[Hin|Hin]]; [|discriminate|].
        * inversion Hin as [[E1 E2 E3]]. rewrite E1, argv_eqb_refl in Hdiff.
          discriminate.
        * destruct H2 as [[_ F]|[_ [-> _]]]; [|destruct Hin].
          eapply not_run_not_in; [|exact Hin].
          now apply past_configure_cfg with alt. }
  destruct Hr as [-> Hx1].
  destruct Hrest as [[E0 _]|[_ (c2 & r2 & l2 & rest2 & -> & H2)]];
    [contradiction|].
  assert (F2 : Forall (fun e => is_run alt e = false) rest2).
  { destruct H2 as [[_ F]|[_ [-> _]]]; [|constructor].
    now apply past_configure_alt with cfg. }
  split.
  - rewrite count_runs_app, (count_runs_none alt pre)
      by now apply past_configure_alt with cfg.
    unfold count_runs. cbn [List.filter is_run].
    rewrite Hdiff, argv_eqb_refl. cbn [length].
    fold (count_runs alt rest2). now rewrite (count_runs_none alt rest2).
  - intros cwd2 r2' Hin2 Hx2.
    assert (Hr2 : r2' = r2).
    { apply in_app_or in Hin2.
      destruct Hin2 as [Hin2|[Hin2|[Hin2|[Hin2|[Hin2|Hin2]]]]];
        try discriminate.
      - exfalso. eapply not_run_not_in; [|exact Hin2].
        now apply past_configure_alt with cfg.
      - inversion Hin2 as [[E1 E2 E3]]. rewrite <- E1, argv_eqb_refl in Hdiff.
        discriminate.
      - now inversion Hin2.
      - exfalso. eapply not_run_not_in; [|exact Hin2]. exact F2. }
    subst r2'. destruct H2 as [[E0 _]|[_ [-> Hres]]]; [contradiction|].
    split; [exact Hres|].
    apply Forall_app. split; [now apply before_configure_not_build with cfg alt|].
    repeat constructor; assumption.
Qed.

(** The two configure commands differ, and neither is a build command. *)
Lemma cfg_alt_differ A p : argv_eqb (cfg_cmd A p) (alt_cmd p) = false.
Proof. unfold cfg_cmd. now destruct (PyStr.mem _ _). Qed.

Lemma cfg_not_build A p : not_build_cmd (cfg_cmd A p) = true.
Proof. unfold cfg_cmd. now destruct (PyStr.mem _ _). Qed.

Lemma alt_not_build p : not_build_cmd (alt_cmd p) = true.
Proof. reflexivity. Qed.

(** From [make] on, no configure command is run. *)
Lemma si_make_past_configure H A version p srcdir steps :
  emits (past_configure (cfg_cmd A p) (alt_cmd p))
        (si_make H A version p srcdir steps).
Proof.
  unfold cfg_cmd. destruct (PyStr.mem _ _).
  all: emits_walk.
  all: unfold past_configure, with_sudo, make_cmd; cbn [andb negb is_run].
  all: try (split; reflexivity).
  all: repeat match goal with
         | |- context [found ?a] => destruct a; cbn [found]
         | |- context [h_nt ?H] => destruct (h_nt H); cbn [negb]
         end.
  all: split; reflexivity.
Qed.

(** The shape of the configure stage. *)
Lemma si_configure_shape H A version p srcdir steps :
  ends (si_configure H A version p srcdir steps)
       (configure_shape (cfg_cmd A p) (alt_cmd p)).
Proof.
  pose proof (fun st => ends_of_emits _ _
                (si_make_past_configure H A version p srcdir st)) as Tail.
  unfold si_configure, log_step, configure_shape.
  repeat ends_step.
  - eapply ends_weaken; [apply Tail|]. intros o tr F. cbn beta.
    do 4 eexists. split; [reflexivity|]. left.
    split; [now apply Z.eqb_eq | exact F].
  - eapply ends_weaken; [apply Tail|]. intros o tr F. cbn beta.
    do 4 eexists. split; [reflexivity|]. right.
    split; [now apply Z.eqb_neq|].
    do 4 eexists. split; [reflexivity|]. left.
    split; [now apply Z.eqb_eq | exact F].
  - do 4 eexists. split; [reflexivity|]. right.
    split; [now apply Z.eqb_neq|].
    do 4 eexists. split; [reflexivity|]. right.
    split; [now apply Z.eqb_neq|]. split; [reflexivity|].
    eexists. split; reflexivity.
Qed.

(** An event before configure in front of a trace changes nothing. *)
Lemma fallback_holds_cons cfg alt o e tr :
  before_configure cfg alt e ->
  configure_fallback_holds cfg alt o tr ->
  configure_fallback_holds cfg alt o (e :: tr).
Proof.
  intros [[Hc Ha] Hb] Htr cwd r Hin Hx.
  destruct Hin as [->|Hin].
  { simpl in Hc. rewrite argv_eqb_refl in Hc. discriminate. }
  destruct (Htr cwd r Hin Hx) as [Hcount Hnext]. split.
  - unfold count_runs in *. cbn [List.filter]. now rewrite Ha.
  - intros cwd2 r2 Hin2 Hx2. destruct Hin2 as [->|Hin2].
    { simpl in Ha. rewrite argv_eqb_refl in Ha. discriminate. }
    destruct (Hnext cwd2 r2 Hin2 Hx2) as [Hres Hall].
    split; [exact Hres | now constructor].
Qed.

(** Peel the events in front of a trace, each shown to come before
    configure by evaluation. *)
Ltac peel_before_configure :=
  repeat (apply fallback_holds_cons;
          [ unfold before_configure, past_configure; repeat split; reflexivity
          | ]).

Lemma side_install_configure_fallback H A version prefix :
  let p := match prefix with
           | Some p => p
           | None => "/opt/openssl-" ++ version
           end in
  ends (side_install_from_source H A version prefix)
       (configure_fallback_holds (cfg_cmd A p) (alt_cmd p)).
Proof.
  intros p.
  pose proof (cfg_alt_differ A p) as Hdiff.
  pose proof (cfg_not_build A p) as Hcfg.
  pose proof (fun wd st => si_configure_shape H A version p wd st) as Shape.
  unfold side_install_from_source, si_download, si_extract, log_step.
  fold p. unfold cfg_cmd in *.
  destruct (PyStr.mem (platform A) ["aix"; "hp-ux"; "sunos"]).
  all: repeat ends_step.
  all: try (eapply ends_weaken; [apply Shape|]; intros o tr Hs; cbn beta).
  all: peel_before_configure.
  all: try (apply fallback_holds_before; constructor).
  all: apply (fallback_holds_from_shape _ _ _ [] _ Hdiff Hcfg eq_refl);
    [constructor | exact Hs].
Qed.

(** C6. In every execution of the source build pipeline in which the
    primary configure command ran and its recorded exit code is not zero,
    the alternative configure command was run exactly once; and if the
    exit code of the alternative is not zero either, the pipeline returned
    an error result and ran no build, test or install command ([make],
    [gmake]). *)
Theorem configure_fallback_once_then_stop
  (H : Host) (A : Agent) (version : string) (prefix : option string)
  (s : State) (cwd : option string) (r : CommandResult) :
  let p := match prefix with
           | Some p => p
           | None => "/opt/openssl-" ++ version
           end in
  let out := side_install_from_source H A version prefix s in
  let tr := new_events s (snd out) in
  In (EvRun (cfg_cmd A p) cwd r) tr ->
  cr_exit r <> 0 ->
  count_runs (alt_cmd p) tr = 1%nat
  /\ forall cwd2 r2,
       In (EvRun (alt_cmd p) cwd2 r2) tr ->
       cr_exit r2 <> 0 ->
       (exists res, fst out = Ret res /\ br_status res = StatusError)
       /\ Forall (on_runs not_build_cmd) tr.
Proof.
  intros p out tr.
  exact (ends_run _ _ s (side_install_configure_fallback H A version prefix)
           cwd r).
Qed.

(** On the machine where no configure script works, the alternative is
    run once after the primary command failed. *)
Lemma fallback_once_on_no_configure_host :
  In (EvRun (cfg_cmd (agent_on "linux" upgrade_to_308) "/opt/openssl-3.0.8")
            (Some "/tmp3k2xq9/openssl-3.0.8") failed_configure)
     (new_events empty_state
        (snd (side_install_from_source no_configure_host
                (agent_on "linux" upgrade_to_308) "3.0.8" None empty_state)))
  /\ cr_exit failed_configure <> 0
  /\ count_runs (alt_cmd "/opt/openssl-3.0.8")
       (new_events empty_state
          (snd (side_install_from_source no_configure_host
                  (agent_on "linux" upgrade_to_308) "3.0.8" None empty_state)))
     = 1%nat.
Proof.
  assert (Hin : In (EvRun (cfg_cmd (agent_on "linux" upgrade_to_308)
                                   "/opt/openssl-3.0.8")
                          (Some "/tmp3k2xq9/openssl-3.0.8") failed_configure)
                   (new_events empty_state
                      (snd (side_install_from_source no_configure_host
                              (agent_on "linux" upgrade_to_308) "3.0.8" None
                              empty_state)))).
  { vm_compute. repeat first [left; reflexivity | right]. }
  assert (Hx : cr_exit failed_configure <> 0) by (cbn; lia).
  split; [exact Hin|]. split; [exact Hx|].
  exact (proj1 (configure_fallback_once_then_stop no_configure_host
                  (agent_on "linux" upgrade_to_308) "3.0.8" None empty_state
                  _ _ Hin Hx)).
Defined.

(** ** The backup snapshot *)

Section Backup.

Variable H : Host.
Variable A : Agent.

Lemma append_inv_head (a x y : string) : a ++ x = a ++ y -> x = y.
Proof. induction a as [|c a IH]; simpl; [auto|]. intros E. inversion E. auto. Qed.

(** A library destination is never the tool binary's destination. *)
Lemma lib_dest_not_tool p : lib_dest H A p <> openssl_binary_dest A.
Proof.
  unfold lib_dest, openssl_binary_dest, path_join. intros E.
  apply append_inv_head in E. discriminate.
Qed.

Lemma lib_dest_eqb_tool p :
  String.eqb (lib_dest H A p) (openssl_binary_dest A) = false.
Proof. apply String.eqb_neq, lib_dest_not_tool. Qed.

Abbreviation tool := (openssl_binary_dest A).

Lemma fresh_nil s s' : fresh s s' [].
Proof. split; [constructor | intros d []]. Qed.

Lemma fresh_app s s1 s2 l1 l2 :
  fs s ⊆ fs s1 -> fs s1 ⊆ fs s2 ->
  fresh s s1 l1 -> fresh s1 s2 l2 -> fresh s s2 (l1 ++ l2).
Proof.
  intros S1 S2 [N1 F1] [N2 F2]. split.
  - apply NoDup_app. split; [exact N1|]. split; [|exact N2].
    intros d Hd1 Hd2. apply list_elem_of_In in Hd1, Hd2.
    destruct (F1 d Hd1) as [Hin _]. destruct (F2 d Hd2) as [_ Hout]. auto.
  - intros d Hd. apply in_app_or in Hd. destruct Hd as [Hd|Hd].
    + destruct (F1 d Hd) as [Hin Hout]. split; [|assumption].
      now apply (proj1 (elem_of_subseteq _ _) S2).
    + destruct (F2 d Hd) as [Hin Hout]. split; [assumption|].
      intros Hd0. apply Hout. now apply (proj1 (elem_of_subseteq _ _) S1).
Qed.

Lemma created_lib_copies_app tr1 tr2 :
  created_lib_copies tool (tr1 ++ tr2)
  = (created_lib_copies tool tr1 ++ created_lib_copies tool tr2)%list.
Proof. unfold created_lib_copies. apply flat_map_app. Qed.

Lemma copies_avoid_app known known' tr1 tr2 :
  known ⊆ known' ->
  copies_avoid tool known tr1 -> copies_avoid tool known' tr2 ->
  copies_avoid tool known (tr1 ++ tr2).
Proof.
  intros S C1 C2 src dst o Hin. apply in_app_or in Hin.
  destruct Hin as [Hin|Hin]; [eauto|].
  destruct (C2 _ _ _ Hin); [auto | right; set_solver].
Qed.

Lemma lib_step_intro s saved s' new tr :
  trace s' = (trace s ++ tr)%list ->
  fs s ⊆ fs s' ->
  fresh s s' new ->
  Forall (fun d => exists p, d = lib_dest H A p) new ->
  fresh s s' (created_lib_copies tool tr) ->
  copies_avoid tool (fs s) tr ->
  lib_step H A s saved (Ret (saved ++ new)%list) s'.
Proof. intros. exists new, tr. auto 10. Qed.

Lemma fresh_one s s' d : d ∈ fs s' -> d ∉ fs s -> fresh s s' [d].
Proof.
  intros Hin Hout. split; [repeat constructor; set_solver|].
  intros d' [<-|[]]. auto.
Qed.

Lemma copies_avoid_nil known : copies_avoid tool known [].
Proof. intros src dst o []. Qed.

Lemma copies_avoid_one known src dst o :
  dst ∉ known -> copies_avoid tool known [EvCopy src dst o].
Proof. intros Hout src' dst' o' [Ev|[]]. inversion Ev; subst. now right. Qed.

Lemma lib_step_refl s saved : lib_step H A s saved (Ret saved) s.
Proof.
  rewrite <- (app_nil_r saved) at 2.
  apply lib_step_intro with (tr := []).
  - now rewrite app_nil_r.
  - reflexivity.
  - apply fresh_nil.
  - constructor.
  - apply fresh_nil.
  - apply copies_avoid_nil.
Qed.

Lemma lib_step_trans s saved mid s1 o s2 :
  lib_step H A s saved (Ret mid) s1 -> lib_step H A s1 mid o s2 ->
  lib_step H A s saved o s2.
Proof.
  intros (n1 & t1 & E1 & T1 & S1 & F1 & L1 & C1 & A1)
         (n2 & t2 & E2 & T2 & S2 & F2 & L2 & C2 & A2).
  inversion E1; subst mid. rewrite E2, <- app_assoc.
  apply lib_step_intro with (tr := (t1 ++ t2)%list).
  - now rewrite T2, T1, app_assoc.
  - set_solver.
  - eapply fresh_app; eassumption.
  - apply Forall_app. auto.
  - rewrite created_lib_copies_app. eapply fresh_app; eassumption.
  - eapply copies_avoid_app; eassumption.
Qed.

(** One library path. *)
Lemma backup_lib_step saved p s :
  lib_step H A s saved (fst (backup_lib H A saved p s))
           (snd (backup_lib H A saved p s)).
Proof.
  unfold backup_lib, bind, path_exists, gets.
  destruct (bool_decide (lib_dest H A p ∈ fs s)) eqn:E; [apply lib_step_refl|].
  apply bool_decide_eq_false in E.
  unfold copy2, bind, gets, emit, touch, ret.
  destruct (h_copy H s p (lib_dest H A p)) eqn:Ec; cbn [fst snd].
  - apply lib_step_intro with (tr := [EvCopy p (lib_dest H A p) CopyDone]);
      cbn [fs trace created_lib_copies flat_map app];
      rewrite ?lib_dest_eqb_tool; cbn [app].
    + reflexivity.
    + set_solver.
    + apply fresh_one; [set_solver | exact E].
    + repeat constructor. now exists p.
    + apply fresh_one; [set_solver | exact E].
    + now apply copies_avoid_one.
  - rewrite <- (app_nil_r saved) at 2.
    apply lib_step_intro with (tr := [EvCopy p (lib_dest H A p) CopyFailed]);
      cbn [fs trace created_lib_copies flat_map app].
    + reflexivity.
    + reflexivity.
    + apply fresh_nil.
    + constructor.
    + apply fresh_nil.
    + now apply copies_avoid_one.
  - rewrite <- (app_nil_r saved) at 2.
    apply lib_step_intro with (tr := [EvCopy p (lib_dest H A p) CopyBroken]);
      cbn [fs trace created_lib_copies flat_map app];
      rewrite ?lib_dest_eqb_tool; cbn [app].
    + reflexivity.
    + set_solver.
    + apply fresh_nil.
    + constructor.
    + apply fresh_one; [set_solver | exact E].
    + now apply copies_avoid_one.
Qed.

(** A loop whose body is a [lib_step] is one. *)
Lemma foldM_lib_step {X} (f : list string -> X -> M (list string)) xs :
  (forall saved x s, lib_step H A s saved (fst (f saved x s)) (snd (f saved x s))) ->
  forall saved s,
    lib_step H A s saved (fst (foldM f xs saved s)) (snd (foldM f xs saved s)).
Proof.
  intros Hf. induction xs as [|x xs IH]; intros saved s; cbn [foldM].
  - apply lib_step_refl.
  - unfold bind. pose proof (Hf saved x s) as Hx.
    destruct (f saved x s) as [[mid|e] s1]; cbn [fst snd] in *.
    + eapply lib_step_trans; [exact Hx | apply IH].
    + exact Hx.
Qed.

Lemma backup_pattern_step saved pattern s :
  lib_step H A s saved (fst (backup_pattern H A saved pattern s))
           (snd (backup_pattern H A saved pattern s)).
Proof.
  unfold backup_pattern, bind, gets.
  destruct (h_glob H s pattern) as [paths|]; [|apply lib_step_refl].
  apply foldM_lib_step. intros. apply backup_lib_step.
Qed.

Lemma backup_patterns_step patterns saved s :
  lib_step H A s saved (fst (foldM (backup_pattern H A) patterns saved s))
           (snd (foldM (backup_pattern H A) patterns saved s)).
Proof. apply foldM_lib_step. intros. apply backup_pattern_step. Qed.

(** *** Rules of [grows_fresh] *)

Lemma grows_fresh_quiet {X} (m : M X) :
  (forall s, trace (snd (m s)) = trace s /\ fs s ⊆ fs (snd (m s))) ->
  grows_fresh tool m.
Proof.
  intros Hm s. destruct (Hm s) as [T S]. exists [].
  rewrite app_nil_r. split; [exact T|]. split; [exact S|].
  split; [apply fresh_nil | apply copies_avoid_nil].
Qed.

Lemma grows_fresh_ret {X} (a : X) : grows_fresh tool (ret a).
Proof. apply grows_fresh_quiet. intros s. split; reflexivity. Qed.

Lemma grows_fresh_raise {X} e : grows_fresh tool (@raise X e).
Proof. apply grows_fresh_quiet. intros s. split; reflexivity. Qed.

Lemma grows_fresh_gets {X} (f : State -> X) : grows_fresh tool (gets f).
Proof. apply grows_fresh_quiet. intros s. split; reflexivity. Qed.

Lemma grows_fresh_add_artifact p : grows_fresh tool (add_artifact p).
Proof. apply grows_fresh_quiet. intros s. split; reflexivity. Qed.

Lemma grows_fresh_touch p : grows_fresh tool (touch p).
Proof.
  apply grows_fresh_quiet. intros s. split; [reflexivity|].
  cbn [touch snd fs]. set_solver.
Qed.

Lemma grows_fresh_emit e : no_copy e -> grows_fresh tool (emit e).
Proof.
  intros He s. exists [e]. cbn [emit snd fs trace].
  split; [reflexivity|]. split; [reflexivity|].
  destruct e; try destruct He; cbn [created_lib_copies flat_map app];
    (split; [apply fresh_nil|]); intros src' dst' o' [Ev|[]]; discriminate.
Qed.

Lemma grows_fresh_bind {X Y} (m : M X) (k : X -> M Y) :
  grows_fresh tool m -> (forall a, grows_fresh tool (k a)) ->
  grows_fresh tool (bind m k).
Proof.
  intros Hm Hk s. destruct (Hm s) as (t1 & T1 & S1 & F1 & A1).
  unfold bind. destruct (m s) as [[a|e] s1]; cbn [snd] in *.
  - destruct (Hk a s1) as (t2 & T2 & S2 & F2 & A2).
    exists (t1 ++ t2)%list. rewrite T2, T1, app_assoc, created_lib_copies_app.
    split; [reflexivity|]. split; [set_solver|].
    split; [eapply fresh_app; eassumption|].
    eapply copies_avoid_app; eassumption.
  - exists t1. auto.
Qed.

(** The copy of the tool binary always goes to the one fixed
    destination. *)
Lemma grows_fresh_tool_copy src : grows_fresh tool (copy2 H src tool).
Proof.
  intros s. exists [EvCopy src tool (h_copy H s src tool)].
  unfold copy2, bind, gets, emit, touch, ret.
  cbn [created_lib_copies flat_map app]. rewrite String.eqb_refl.
  destruct (h_copy H s src tool); cbn [snd fs trace app].
  all: split; [reflexivity|]; split; [set_solver|].
  all: split; [apply fresh_nil|].
  all: intros src' dst' o' [Ev|[]]; inversion Ev; now left.
Qed.

Lemma grows_fresh_patterns patterns saved :
  grows_fresh tool (foldM (backup_pattern H A) patterns saved).
Proof.
  intros s.
  destruct (backup_patterns_step patterns saved s)
    as (new & tr & _ & T & S & _ & _ & C & Av).
  exists tr. auto.
Qed.

Ltac grows_fresh_step :=
  lazymatch goal with
  | |- grows_fresh _ (ret _) => apply grows_fresh_ret
  | |- grows_fresh _ (raise _) => apply grows_fresh_raise
  | |- grows_fresh _ (gets _) => apply grows_fresh_gets
  | |- grows_fresh _ (touch _) => apply grows_fresh_touch
  | |- grows_fresh _ (add_artifact _) => apply grows_fresh_add_artifact
  | |- grows_fresh _ (emit _) => apply grows_fresh_emit; exact I
  | |- grows_fresh _ (copy2 _ _ _) => apply grows_fresh_tool_copy
  | |- grows_fresh _ (foldM (backup_pattern _ _) _ _) =>
      apply grows_fresh_patterns
  | |- grows_fresh _ (bind _ _) => apply grows_fresh_bind; [| intros ?]
  | |- grows_fresh _ (if ?b then _ else _) => destruct b
  | |- grows_fresh _ (match ?x with _ => _ end) => destruct x
  end.

Lemma prepare_backup_grows_fresh : grows_fresh tool (prepare_backup H A).
Proof.
  unfold prepare_backup, backup_tool, write_checksum, archive_backup, write_file, log_step, which.
  repeat grows_fresh_step.
Qed.

(** *** [saved] lists the copies that succeeded *)

Lemma done_copies_app tr1 tr2 :
  done_copies (tr1 ++ tr2) = (done_copies tr1 ++ done_copies tr2)%list.
Proof. unfold done_copies. apply flat_map_app. Qed.

Lemma backup_lib_saved saved p :
  ends (backup_lib H A saved p) (extends_saved saved).
Proof.
  unfold backup_lib, copy2, path_exists, extends_saved.
  repeat ends_step; cbn [done_copies flat_map app]; now rewrite ?app_nil_r.
Qed.

Lemma foldM_saved {X} (f : list string -> X -> M (list string)) xs :
  (forall saved x, ends (f saved x) (extends_saved saved)) ->
  forall saved, ends (foldM f xs saved) (extends_saved saved).
Proof.
  intros Hf. induction xs as [|x xs IH]; intros saved; cbn [foldM].
  - apply ends_ret. unfold extends_saved. cbn. now rewrite app_nil_r.
  - eapply ends_bind; [apply Hf | |].
    + intros mid tr1 E. inversion E; subst mid.
      eapply ends_weaken; [apply IH|]. unfold extends_saved.
      intros o tr2 ->. now rewrite done_copies_app, app_assoc.
    + intros e tr1 E. discriminate.
Qed.

Lemma backup_pattern_saved saved pattern :
  ends (backup_pattern H A saved pattern) (extends_saved saved).
Proof.
  unfold backup_pattern. apply ends_bind_gets. intros [paths|].
  - apply foldM_saved. intros. apply backup_lib_saved.
  - apply ends_ret. unfold extends_saved. cbn. now rewrite app_nil_r.
Qed.

(** What [prepare_backup] returns is the list of destinations of the
    copies that succeeded, in the order they were made. *)
Lemma prepare_backup_saved :
  ends (prepare_backup H A)
       (fun o tr => forall saved, o = Ret saved -> saved = done_copies tr).
Proof.
  assert (Libs : forall saved,
             ends (foldM (backup_pattern H A) (lib_globs H A) saved)
                  (extends_saved saved))
    by (apply foldM_saved; intros; apply backup_pattern_saved).
  unfold prepare_backup, backup_tool, write_checksum, archive_backup, copy2, write_file, log_step, which.
  repeat ends_step.
  all: try (intros saved E; discriminate).
  all: eapply ends_bind; [apply Libs | | intros e tr1 E; discriminate].
  all: intros saved tr1 E; inversion E; subst saved.
  all: repeat ends_step.
  all: intros saved E'; inversion E'; subst saved.
  all: cbn [done_copies flat_map app];
       rewrite ?done_copies_app; cbn [done_copies flat_map app];
       now rewrite ?app_nil_r.
Qed.

Lemma prepare_backup_copies :
  emits (copy_to_derived tool (lib_dest H A)) (prepare_backup H A).
Proof.
  emits_walk.
  all: cbn [copy_to_derived]; eauto.
Qed.

(** *** From the judgements to one run *)

Lemma lib_entries_app l1 l2 :
  lib_entries tool (l1 ++ l2)
  = (lib_entries tool l1 ++ lib_entries tool l2)%list.
Proof. unfold lib_entries. apply List.filter_app. Qed.

(** The library entries among the copies that succeeded are among the
    library destinations created. *)
Lemma done_lib_entries_created tr :
  lib_entries tool (done_copies tr) `sublist_of` created_lib_copies tool tr.
Proof.
  induction tr as [|e tr IH]; [constructor|].
  change (e :: tr) with ([e] ++ tr)%list.
  rewrite done_copies_app, created_lib_copies_app, lib_entries_app.
  apply sublist_app; [|exact IH].
  destruct e as [| | | | | |src dst o| | | | |]; try constructor.
  destruct o; cbn [done_copies created_lib_copies lib_entries flat_map app
                   List.filter]; try apply sublist_nil_l.
  destruct (String.eqb dst tool); cbn [negb]; repeat constructor.
Qed.

Lemma done_copies_derived tr :
  Forall (copy_to_derived tool (lib_dest H A)) tr ->
  Forall (fun d => d = tool \/ exists p, d = lib_dest H A p) (done_copies tr).
Proof.
  induction 1 as [|e tr He _ IH]; [constructor|].
  destruct e as [| | | | | |src dst o| | | | |]; try exact IH.
  destruct o; try exact IH. constructor; [exact He | exact IH].
Qed.

(** One call, with its own trace. *)
Lemma prepare_backup_call s :
  let o := fst (prepare_backup H A s) in
  let s' := snd (prepare_backup H A s) in
  let tr := new_events s s' in
  fs s ⊆ fs s'
  /\ fresh s s' (created_lib_copies tool tr)
  /\ copies_avoid tool (fs s) tr
  /\ Forall (copy_to_derived tool (lib_dest H A)) tr
  /\ lib_entries tool (saved_of o) `sublist_of` created_lib_copies tool tr
  /\ Forall (fun d => d = tool \/ exists p, d = lib_dest H A p) (saved_of o).
Proof.
  intros o s' tr.
  destruct (prepare_backup_grows_fresh s) as (t & T & S & F & Av).
  assert (Et : tr = t).
  { subst tr s'. unfold new_events. now rewrite T, drop_app_length. }
  pose proof (ends_run _ _ s prepare_backup_saved) as Sv.
  pose proof (emits_run _ _ s prepare_backup_copies) as Cp.
  fold o s' tr in Sv, Cp. rewrite Et in *.
  repeat (split; [assumption|]).
  destruct o as [saved|e]; cbn [saved_of].
  - rewrite (Sv saved eq_refl). split.
    + apply done_lib_entries_created.
    + now apply done_copies_derived.
  - split; [apply sublist_nil_l | constructor].
Qed.

End Backup.

(** C9. Two calls of [prepare_backup] one after the other, in the same run
    directory.  Every [saved] entry and every copy goes to a derived
    destination: the tool binary's fixed one or a library's.  No library
    destination appears twice among the [saved] entries of the two calls,
    and none is created twice by their copies.  A library copy is only
    made to a path that did not exist when the call started, so the second
    call skips every library the first one copied. *)
Theorem backup_twice_has_no_duplicate_entries
  (H : Host) (A : Agent) (s0 : State) :
  let run1 := prepare_backup H A s0 in
  let run2 := prepare_backup H A (snd run1) in
  let tr1 := new_events s0 (snd run1) in
  let tr2 := new_events (snd run1) (snd run2) in
  let saved := (saved_of (fst run1) ++ saved_of (fst run2))%list in
  NoDup (lib_entries (openssl_binary_dest A) saved)
  /\ Forall (fun d => d = openssl_binary_dest A
                      \/ exists p, d = lib_dest H A p) saved
  /\ NoDup (created_lib_copies (openssl_binary_dest A) (tr1 ++ tr2))
  /\ Forall (copy_to_derived (openssl_binary_dest A) (lib_dest H A))
            (tr1 ++ tr2)
  /\ copies_avoid (openssl_binary_dest A) (fs s0) tr1
  /\ copies_avoid (openssl_binary_dest A) (fs (snd run1)) tr2.
Proof.
  intros run1 run2 tr1 tr2 saved.
  destruct (prepare_backup_call H A s0) as (S1 & F1 & A1 & C1 & L1 & D1).
  destruct (prepare_backup_call H A (snd run1))
    as (S2 & F2 & A2 & C2 & L2 & D2).
  subst saved tr1 tr2 run2 run1.
  assert (N : NoDup (created_lib_copies (openssl_binary_dest A)
                       (new_events s0 (snd (prepare_backup H A s0))
                        ++ new_events (snd (prepare_backup H A s0))
                             (snd (prepare_backup H A
                                     (snd (prepare_backup H A s0))))))).
  { rewrite created_lib_copies_app.
    exact (proj1 (fresh_app _ _ _ _ _ S1 S2 F1 F2)). }
  split.
  { rewrite lib_entries_app. eapply sublist_NoDup; [exact N|].
    rewrite created_lib_copies_app. now apply sublist_app. }
  split; [apply Forall_app; auto|].
  split; [exact N|].
  split; [apply Forall_app; auto|].
  split; assumption.
Qed.

(** ** Step 7: which upgrade is executed *)

Lemma mem_false_neq x y ys :
  PyStr.mem x (y :: ys) = false -> String.eqb x y = false.
Proof. cbn [PyStr.mem existsb]. intros E. now apply orb_false_elim in E. Qed.

(** What the first detected manager can be when none of the handled
    ones was detected. *)
Lemma unhandled_head pms pm rest :
  pms = pm :: rest ->
  existsb (fun m => PyStr.mem m pms) handled_managers = false ->
  PyStr.mem pm handled_managers = false.
Proof.
  intros -> E. unfold handled_managers in *. cbn [existsb] in E.
  repeat (apply orb_false_elim in E; destruct E as [?%mem_false_neq E]).
  cbn [PyStr.mem existsb].
  repeat match goal with
         | Hm : String.eqb ?a pm = false |- _ =>
             rewrite String.eqb_sym in Hm; rewrite Hm; clear Hm
         end.
  reflexivity.
Qed.

Lemma unhandled_is_package_manager pms :
  PyStr.mem "zypper" pms || PyStr.mem "pkg" pms = true ->
  st_type (choose_strategy pms) = PackageManager.
Proof.
  intros E. apply strategy_kind_by_membership.
  apply orb_prop in E. destruct E as [E|E]; apply mem_In in E.
  - exists "zypper". split; [cbn; tauto | exact E].
  - exists "pkg". split; [cbn; tauto | exact E].
Qed.

(** With a first-class manager detected that step 7 has no branch for,
    step 7 is the source build. *)
Lemma unhandled_manager_dispatch H A pms :
  PyStr.mem "zypper" pms || PyStr.mem "pkg" pms = true ->
  existsb (fun m => PyStr.mem m pms) handled_managers = false ->
  perform_upgrade H A (choose_strategy pms) pms = source_build H A.
Proof.
  intros Hany Hnone. unfold perform_upgrade.
  rewrite (unhandled_is_package_manager pms Hany).
  destruct pms as [|pm rest]; [discriminate|].
  pose proof (unhandled_head _ pm rest eq_refl Hnone) as Hpm.
  unfold handled_managers in Hpm. cbn [PyStr.mem existsb] in Hpm.
  repeat (apply orb_false_elim in Hpm; destruct Hpm as [? Hpm]).
  unfold item. cbn [nth_error]. change (bind (ret pm) ?k) with (k pm).
  cbn beta. cbn [PyStr.mem existsb].
  repeat match goal with
         | Hm : String.eqb pm _ = false |- _ => rewrite Hm; clear Hm
         end.
  reflexivity.
Qed.

(** Close a goal [on_runs q (EvRun ...)] by evaluation, after deciding
    the tests the command line depends on. *)
Ltac decide_command :=
  unfold on_runs, not_upgrade_cmd, is_upgrade_cmd, is_pm_command,
    not_build_cmd, with_sudo, cfg_cmd, alt_cmd, make_cmd, test_cmd,
    install_cmd;
  repeat match goal with
         | |- context [if ?b then _ else _] => destruct b
         end;
  cbn [hd tl andb orb negb PyStr.mem existsb String.eqb Ascii.eqb Bool.eqb];
  rewrite ?andb_false_r, ?orb_false_r;
  first [exact I | reflexivity].

(** The source build runs no package-manager command. *)
Lemma source_build_no_upgrade_cmd H A :
  emits (on_runs not_upgrade_cmd) (source_build H A).
Proof. emits_walk; decide_command. Qed.

(** Neither do the checks after the upgrade. *)
Lemma post_checks_no_upgrade_cmd H A strategy :
  emits (on_runs not_upgrade_cmd) (post_checks H A strategy).
Proof. emits_walk; decide_command. Qed.

Lemma emits_anything_source_build H A :
  emits (fun _ => True) (source_build H A).
Proof. emits_walk; exact I. Qed.

(** The pipeline begins by creating its working directory. *)
Lemma side_install_starts H A version prefix :
  ends (side_install_from_source H A version prefix)
       (fun _ tr => exists dir, In (EvMkdtemp dir) tr).
Proof.
  unfold side_install_from_source.
  apply ends_bind_gets. intros tmp. apply ends_bind_emit.
  eapply ends_weaken.
  - apply ends_of_emits with (P := fun _ => True). emits_walk; exact I.
  - intros o tr _. exists tmp. now left.
Qed.

(** The source build announces its item, and unless the operator declines
    it starts the pipeline. *)
Lemma source_build_ends H A :
  ends (source_build H A)
       (fun o tr => In (EvPrompt [source_build_item A]) tr
                    /\ (o <> Ret false -> exists dir, In (EvMkdtemp dir) tr)).
Proof.
  pose proof (side_install_starts H A (target_version (args A)) None) as Start.
  assert (Build :
    ends (let! res := side_install_from_source H A (target_version (args A)) None
          in log_step A
               (step_entry "side-install-result" "side-install"
                  match br_status res with StatusOk => 0 | StatusError => 1 end
                  (JsonBuild res) "") >> ret true)
         (fun _ tr => exists dir, In (EvMkdtemp dir) tr)).
  { eapply ends_bind; [exact Start | | auto].
    intros res tr1 [dir Hdir]. unfold log_step. repeat ends_step.
    exists dir. apply in_or_app. now left. }
  unfold source_build, confirm_upgrade. cbv zeta.
  apply ends_bind_assoc, ends_bind_emit.
  destruct (force (args A)).
  - apply ends_bind_ret. cbn [negb].
    eapply ends_weaken; [exact Build|].
    intros o tr [dir Hdir]. split; [now left|].
    intros _. exists dir. now right.
  - apply ends_bind_assoc, ends_bind_gets. intros line.
    apply ends_bind_assoc, ends_bind_emit.
    destruct line as [l|].
    + apply ends_bind_ret.
      destruct (String.eqb (PyStr.lower (PyStr.strip l)) "y"); cbn [negb].
      * eapply ends_weaken; [exact Build|].
        intros o tr [dir Hdir]. split; [now left|].
        intros _. exists dir. now do 2 right.
      * apply ends_ret. split; [now left | intros N; now destruct N].
    + apply ends_bind_ret. cbn [negb]. apply ends_ret.
      split; [now left | intros N; now destruct N].
Qed.

(** The orchestration from the strategy on, when it is no dry run and the
    detected managers are all unhandled. *)
Lemma execute_strategy_unhandled H A pms :
  PyStr.mem "zypper" pms || PyStr.mem "pkg" pms = true ->
  existsb (fun m => PyStr.mem m pms) handled_managers = false ->
  dry_run (args A) = false ->
  execute_strategy H A pms
  = (log_step A (step_entry "strategy" "chosen" 0
                            (JsonStrategy (choose_strategy pms)) "") >>
     let! proceed := source_build H A in
     if proceed then post_checks H A (choose_strategy pms) else ret Aborted).
Proof.
  intros Hany Hnone Hdry. unfold execute_strategy.
  now rewrite Hdry, (unhandled_manager_dispatch H A pms Hany Hnone).
Qed.


(** ** Order of the run: dependency upgrade, backup, dry run *)

(** C1, at a failing input.  On the Debian host, with an app path, the
    dependency upgrade [sudo apt install --only-upgrade -y zlib1g] is
    event 12 of the run and the first event of the backup is event 14:
    a package upgrade ran before the backup snapshot began. *)
Theorem dependency_upgrade_precedes_backup :
  fst (debian_run false) = Ret (Done false)
  /\ position is_upgrade_event (trace (snd (debian_run false))) = Some 12%nat
  /\ nth_error (trace (snd (debian_run false))) 12
     = Some (EvRun upgrade_zlib None
               (mkResult "sudo apt install --only-upgrade -y zlib1g" 0 "" ""))
  /\ position is_backup_event (trace (snd (debian_run false))) = Some 14%nat.
Proof. repeat split; vm_compute; reflexivity. Qed.

(** C2, at a failing input.  On the same host with [--dry-run], the run
    ends with status [dry-run] and writes the report, and yet it has run
    the dependency upgrade command once. *)
Theorem dry_run_upgrades_dependencies :
  fst (debian_run true)
  = Ret (DryRun (mkStrategy PackageManager (ManagersFound ["apt"; "dpkg"])))
  /\ position is_report_event (trace (snd (debian_run true))) = Some 21%nat
  /\ is_upgrade_cmd upgrade_zlib = true
  /\ count_runs upgrade_zlib (trace (snd (debian_run true))) = 1%nat
  /\ position is_upgrade_event (trace (snd (debian_run true))) = Some 12%nat.
Proof. repeat split; vm_compute; reflexivity. Qed.

(** ** Whole runs without an app path *)

Lemma position_none p tr :
  Forall (fun e => p e = false) tr -> position p tr = None.
Proof.
  induction 1 as [|e tr He _ IH]; cbn [position]; [reflexivity|].
  now rewrite He, IH.
Qed.

Lemma position_app_skip p pre rest :
  Forall (fun e => p e = false) pre ->
  position p (pre ++ rest) = option_map (Nat.add (length pre)) (position p rest).
Proof.
  induction 1 as [|e pre He _ IH]; cbn [position app length].
  - now destruct (position p rest).
  - rewrite He, IH. now destruct (position p rest).
Qed.

Lemma position_app_found p pre rest :
  Exists (fun e => p e = true) pre ->
  exists j, position p (pre ++ rest) = Some j /\ (j < length pre)%nat.
Proof.
  induction 1 as [e pre He|e pre _ IH]; cbn [position app length].
  - rewrite He. exists 0%nat. split; [reflexivity | lia].
  - destruct (p e).
    + exists 0%nat. split; [reflexivity | lia].
    + destruct IH as (j & -> & Hj). exists (S j). split; [reflexivity | lia].
Qed.

Lemma position_app_bound p pre rest j :
  position p (pre ++ rest) = Some j ->
  forall j', position p rest = Some j' -> (j <= length pre + j')%nat.
Proof.
  revert j. induction pre as [|e pre IH]; intros j; cbn [position app length].
  - intros -> j' E. inversion E. lia.
  - destruct (p e).
    + intros E j' _. inversion E. lia.
    + destruct (position p (pre ++ rest)) as [k|] eqn:Ek; [|discriminate].
      intros E j' E'. inversion E; subst. specialize (IH k eq_refl j' E'). lia.
Qed.

Lemma not_mutating_event e :
  on_runs not_mutating_cmd e -> is_mutating_event e = false.
Proof.
  destruct e; cbn; try reflexivity. unfold not_mutating_cmd.
  now intros ->%negb_true_iff.
Qed.

Lemma quiet_events tr :
  Forall (on_runs not_mutating_cmd) tr ->
  Forall (fun e => is_mutating_event e = false) tr.
Proof.
  intros F. eapply List.Forall_impl; [|exact F]. apply not_mutating_event.
Qed.

(** A trace without mutating commands satisfies [archive_first]. *)
Lemma archive_first_quiet tr :
  Forall (on_runs not_mutating_cmd) tr -> archive_first tr.
Proof.
  intros F i E. rewrite (position_none _ _ (quiet_events _ F)) in E.
  discriminate.
Qed.

(** So does a trace that follows events without mutating commands. *)
Lemma archive_first_after_quiet pre rest :
  Forall (on_runs not_mutating_cmd) pre ->
  archive_first rest -> archive_first (pre ++ rest).
Proof.
  intros F Hrest i E.
  rewrite (position_app_skip _ _ _ (quiet_events _ F)) in E.
  destruct (position is_mutating_event rest) as [i'|] eqn:Ei; [|discriminate].
  cbn in E. inversion E; subst i.
  destruct (Hrest i' Ei) as (j' & Ej' & Hlt).
  destruct (position is_archive_event (pre ++ rest)) as [j|] eqn:Ej.
  - exists j. split; [reflexivity|].
    pose proof (position_app_bound _ _ _ _ Ej j' Ej'). lia.
  - exfalso. clear - Ej Ej'. revert Ej. induction pre as [|e pre IH];
      cbn [position app]; [congruence|].
    destruct (is_archive_event e); [discriminate|].
    destruct (position is_archive_event (pre ++ rest)); [discriminate|].
    intros _. now apply IH.
Qed.

(** And whatever follows events that hold the archive event and no
    mutating command. *)
Lemma archive_first_once_archived pre rest :
  Forall (on_runs not_mutating_cmd) pre ->
  Exists (fun e => is_archive_event e = true) pre ->
  archive_first (pre ++ rest).
Proof.
  intros F Hex i E.
  rewrite (position_app_skip _ _ _ (quiet_events _ F)) in E.
  destruct (position_app_found is_archive_event pre rest Hex) as (j & Ej & Hj).
  exists j. split; [exact Ej|].
  destruct (position is_mutating_event rest); [|discriminate].
  cbn in E. inversion E. lia.
Qed.

(** [prepare_backup] runs no command, and when it returns it has emitted
    its archive event. *)
Lemma prepare_backup_archives H A :
  ends (prepare_backup H A)
       (fun o tr => Forall (on_runs not_mutating_cmd) tr
                    /\ (forall saved, o = Ret saved ->
                          Exists (fun e => is_archive_event e = true) tr)).
Proof.
  assert (Libs : forall saved,
             ends (foldM (backup_pattern H A) (lib_globs H A) saved)
                  (fun _ tr => Forall (on_runs not_mutating_cmd) tr)).
  { intros saved. apply ends_of_emits. emits_walk; exact I. }
  unfold prepare_backup, backup_tool, write_checksum, archive_backup, copy2, write_file, log_step, which.
  repeat ends_step.
  all: try (split; [repeat constructor | intros saved E; discriminate]).
  all: eapply ends_bind; [apply Libs | | intros e tr1 F; cbn beta].
  all: try (split; [repeat constructor; exact F
                   | intros saved E; discriminate]).
  all: intros saved tr1 F; repeat ends_step.
  all: split;
    [ repeat (first [ apply Forall_cons; split; [exact I|]
                    | apply Forall_app; split; [exact F|]
                    | apply Forall_nil; exact I ])
    | intros saved' _; rewrite ?app_comm_cons;
      repeat (first [ apply Exists_cons_hd; reflexivity
                    | apply Exists_cons_tl
                    | apply Exists_app; right ]) ].
Qed.

Lemma execute_strategy_appends H A pms :
  emits (fun _ => True) (execute_strategy H A pms).
Proof. emits_walk; exact I. Qed.

(** Events without mutating commands in front change nothing for
    [archive_first]. *)
Lemma ends_bind_quiet {X Y} (m : M X) (k : X -> M Y) :
  emits (on_runs not_mutating_cmd) m ->
  (forall a, ends (k a) (fun _ tr => archive_first tr)) ->
  ends (bind m k) (fun _ tr => archive_first tr).
Proof.
  intros Hm Hk. eapply ends_bind; [apply ends_of_emits, Hm | |].
  - intros a tr1 F. eapply ends_weaken; [apply Hk|].
    intros o tr2. now apply archive_first_after_quiet.
  - intros e tr1 F. now apply archive_first_quiet.
Qed.

(** X1. Without an app path, in every run, the backup has reached its archive
    step before the first command that changes the host is run: no
    package-manager upgrade and no configure or build command comes before
    the archive event of [prepare_backup]. *)
Theorem backup_precedes_upgrade_without_app_path
  (H : Host) (A : Agent) (s : State) :
  given (app_path (args A)) = None ->
  archive_first (new_events s (snd (decide_and_execute H A s))).
Proof.
  intros Hg. apply (ends_run _ (fun _ tr => archive_first tr)).
  unfold decide_and_execute. rewrite Hg.
  apply ends_bind_quiet; [emits_walk; exact I | intros _].
  apply ends_bind_quiet; [emits_walk; decide_command | intros _].
  apply ends_bind_quiet; [emits_walk; exact I | intros pms].
  apply ends_bind_quiet; [emits_walk | intros _].
  eapply ends_bind; [apply prepare_backup_archives | |].
  - intros saved tr1 [F Harch]. eapply ends_weaken.
    + apply ends_of_emits, execute_strategy_appends.
    + intros o tr2 _. apply archive_first_once_archived; eauto.
  - intros e tr1 [F _]. now apply archive_first_quiet.
Qed.

(** The plain upgrade on the Debian-like host keeps that order. *)
Lemma backup_precedes_upgrade_on_debian_host :
  given (app_path (args (agent_on "linux" upgrade_to_308))) = None
  /\ archive_first
       (new_events empty_state
          (snd (decide_and_execute debian_host
                  (agent_on "linux" upgrade_to_308) empty_state))).
Proof.
  split; [reflexivity|].
  apply (backup_precedes_upgrade_without_app_path debian_host
           (agent_on "linux" upgrade_to_308) empty_state).
  reflexivity.
Defined.

(** A postcondition about what is returned and what the trace holds
    survives events in front. *)
Lemma ends_bind_late {X Y} (m : M X) (k : X -> M Y)
  (Q : Outcome Y -> list Event -> Prop) :
  emits (fun _ => True) m ->
  (forall a, ends (k a) Q) ->
  (forall o tr1 tr2, Q o tr2 -> Q o (tr1 ++ tr2)%list) ->
  (forall e tr, Q (Raise e) tr) ->
  ends (bind m k) Q.
Proof.
  intros Hm Hk Hmono Hraise. eapply ends_bind; [apply ends_of_emits, Hm | |].
  - intros a tr1 _. eapply ends_weaken; [apply Hk|].
    intros o tr2. apply Hmono.
  - intros e tr1 _. apply Hraise.
Qed.

Lemma dry_run_outcome_late o tr1 tr2 :
  dry_run_outcome o tr2 -> dry_run_outcome o (tr1 ++ tr2).
Proof.
  intros Hq r E. destruct (Hq r E) as [Hr Hex]. split; [exact Hr|].
  apply Exists_app. now right.
Qed.

(** X2. Under [--dry-run] and without an app path, a run executes no
    package-manager upgrade and no configure or build command; if it
    returns, its status is [dry-run] and the report was written. *)
Theorem dry_run_without_app_path_changes_nothing
  (H : Host) (A : Agent) (s : State) :
  given (app_path (args A)) = None ->
  dry_run (args A) = true ->
  Forall (on_runs not_mutating_cmd)
         (new_events s (snd (decide_and_execute H A s)))
  /\ dry_run_outcome (fst (decide_and_execute H A s))
                     (new_events s (snd (decide_and_execute H A s))).
Proof.
  intros Hg Hd. split.
  - apply emits_run. unfold decide_and_execute, execute_strategy.
    rewrite Hg, Hd. emits_walk; decide_command.
  - apply (ends_run _ dry_run_outcome).
    unfold decide_and_execute, execute_strategy. rewrite Hg, Hd.
    assert (Hraise : forall e tr, dry_run_outcome (@Raise RunResult e) tr)
      by (intros e tr r E; discriminate).
    do 7 (apply ends_bind_late;
          [ emits_walk; exact I | intros ?
          | apply dry_run_outcome_late | exact Hraise ]).
    unfold generate_readme, log_step. repeat ends_step.
    intros r E. inversion E. split; [eauto|].
    repeat first [ apply Exists_cons_hd; reflexivity | apply Exists_cons_tl ].
Qed.

(** The dry run on the Debian-like host. *)
Lemma dry_run_on_debian_host_changes_nothing :
  given (app_path (args (agent_on "linux" plan_308))) = None
  /\ dry_run (args (agent_on "linux" plan_308)) = true
  /\ Forall (on_runs not_mutating_cmd)
       (new_events empty_state
          (snd (decide_and_execute debian_host (agent_on "linux" plan_308)
                  empty_state)))
  /\ dry_run_outcome
       (fst (decide_and_execute debian_host (agent_on "linux" plan_308)
               empty_state))
       (new_events empty_state
          (snd (decide_and_execute debian_host (agent_on "linux" plan_308)
                  empty_state))).
Proof.
  split; [reflexivity|]. split; [reflexivity|].
  apply (dry_run_without_app_path_changes_nothing debian_host
           (agent_on "linux" plan_308) empty_state); reflexivity.
Defined.

(** ** The operator declines *)

Section Declined.

Variable H : Host.
Variable A : Agent.
Hypothesis Hforce : force (args A) = false.
Hypothesis Hdecl : declines H.

Lemma confirm_upgrade_declined items :
  ends (confirm_upgrade H A items) (stops_with false).
Proof.
  intros s. unfold confirm_upgrade. rewrite Hforce.
  unfold bind, emit, gets, ret. cbn [fst snd fs trace artifacts].
  set (s1 := mkState (fs s) (trace s ++ [EvPrompt items]) (artifacts s)).
  pose proof (Hdecl s1) as Hno.
  exists [EvPrompt items; EvInput (h_input H s1)].
  destruct (h_input H s1) as [line|]; cbn [fst snd trace];
    rewrite ?Hno, <- app_assoc; repeat split.
Qed.

Lemma pm_upgrade_declined items c1 c2 :
  ends (pm_upgrade H A items c1 c2) (stops_with false).
Proof.
  unfold pm_upgrade.
  eapply ends_bind; [apply confirm_upgrade_declined | |].
  - intros a tr1 [E C]. inversion E; subst a. cbn [negb].
    apply ends_ret. rewrite app_nil_r. now split.
  - intros e tr1 [E _]. discriminate.
Qed.

Lemma source_build_declined :
  ends (source_build H A) (stops_with false).
Proof.
  unfold source_build.
  eapply ends_bind; [apply confirm_upgrade_declined | |].
  - intros a tr1 [E C]. inversion E; subst a. cbn [negb].
    apply ends_ret. rewrite app_nil_r. now split.
  - intros e tr1 [E _]. discriminate.
Qed.

Lemma perform_upgrade_declined pms :
  ends (perform_upgrade H A (choose_strategy pms) pms) (stops_with false).
Proof.
  unfold perform_upgrade, choose_strategy.
  destruct (existsb (fun pm => PyStr.mem pm pms) first_class) eqn:Ex;
    cbn [st_type]; [|apply source_build_declined].
  destruct pms as [|pm rest]; [discriminate Ex|].
  unfold item at 1. cbn [nth_error]. apply ends_bind_ret.
  destruct (String.eqb pm "apt"); [apply pm_upgrade_declined|].
  destruct (PyStr.mem pm ["dnf"; "yum"]); [apply pm_upgrade_declined|].
  destruct (String.eqb pm "apk"); [apply pm_upgrade_declined|].
  destruct (String.eqb pm "brew"); [|apply source_build_declined].
  unfold item.
  destruct (PyStr.split_on "." (target_version (args A))) as [|major more] eqn:E;
    [now apply split_on_nonempty in E|].
  cbn [nth_error]. apply ends_bind_ret, pm_upgrade_declined.
Qed.

End Declined.

(** X3. Without [--force] and without [--dry-run], when the operator does not
    answer [y], the steps from the strategy on return the status
    [aborted] and start no process at all: no upgrade, no build, no
    detection and no smoke test. *)
Theorem declined_upgrade_aborts_without_commands
  (H : Host) (A : Agent) (pms : list string) (s : State) :
  force (args A) = false ->
  dry_run (args A) = false ->
  declines H ->
  fst (execute_strategy H A pms s) = Ret Aborted
  /\ count_processes (new_events s (snd (execute_strategy H A pms s))) = 0%nat.
Proof.
  intros Hforce Hdry Hdecl. apply (ends_run _ (stops_with Aborted)).
  unfold execute_strategy. rewrite Hdry. unfold log_step at 1.
  repeat ends_step.
  eapply ends_bind; [apply perform_upgrade_declined; assumption | |].
  - intros a tr1 [E C]. inversion E; subst a.
    apply ends_ret. rewrite app_nil_r. split; [reflexivity|].
    exact C.
  - intros e tr1 [E _]. discriminate.
Qed.

(** An operator who types [n] on the Debian-like host. *)
Lemma declined_on_debian_host :
  force (args (agent_on "linux" ask_308)) = false
  /\ dry_run (args (agent_on "linux" ask_308)) = false
  /\ declines (answering "n" debian_host)
  /\ fst (execute_strategy (answering "n" debian_host)
            (agent_on "linux" ask_308) ["apt"; "dpkg"] empty_state)
     = Ret Aborted
  /\ count_processes
       (new_events empty_state
          (snd (execute_strategy (answering "n" debian_host)
                  (agent_on "linux" ask_308) ["apt"; "dpkg"] empty_state)))
     = 0%nat.
Proof.
  split; [reflexivity|]. split; [reflexivity|].
  split; [intros s; reflexivity|].
  apply (declined_upgrade_aborts_without_commands (answering "n" debian_host)
           (agent_on "linux" ask_308) ["apt"; "dpkg"] empty_state);
    [reflexivity | reflexivity | intros s; reflexivity].
Defined.

(** ** Detection *)

Lemma filter_sublist {X} (f : X -> bool) (l : list X) :
  sublist (List.filter f l) l.
Proof.
  induction l as [|x l IH]; simpl; [constructor|].
  destruct (f x); now constructor.
Qed.

Lemma pm_candidates_distinct : NoDup pm_candidates.
Proof. unfold pm_candidates. apply (bool_decide_unpack _). vm_compute. exact I. Qed.

(** X5. [detect_package_managers] never raises and starts no process: it
    logs one entry and returns the candidates that [shutil.which] finds,
    each once and in the order of the fixed candidate list, whatever the
    order of the search path.  So [pms[0]] is [apt] on every host that has
    apt. *)
Theorem detected_managers_keep_candidate_order
  (H : Host) (A : Agent) (s : State) :
  let out := detect_package_managers H A s in
  exists pms,
    fst out = Ret pms
    /\ sublist pms pm_candidates
    /\ NoDup pms
    /\ (forall p, In p pms
                  <-> In p pm_candidates /\ found (h_which H s p) = true)
    /\ (found (h_which H s "apt") = true -> hd_error pms = Some "apt")
    /\ new_events s (snd out)
       = [EvLog (step_entry "detect-package-managers" "detected" 0
                            (Text (PyStr.join "," pms)) "")].
Proof.
  intros out. subst out.
  exists (List.filter (fun p => found (h_which H s p)) pm_candidates).
  split; [reflexivity|].
  split; [apply filter_sublist|].
  split; [apply NoDup_ListNoDup, List.NoDup_filter, NoDup_ListNoDup, pm_candidates_distinct|].
  split; [intros p; apply filter_In|].
  split.
  - intros Hapt. unfold pm_candidates.
    change (List.filter ?f ("apt" :: ?l))
      with (if f "apt" then "apt" :: List.filter f l else List.filter f l).
    cbv beta. rewrite Hapt. reflexivity.
  - unfold new_events, detect_package_managers, log_step, bind, gets, emit,
      touch, ret. cbn [snd trace]. apply drop_app_length.
Qed.

Lemma logged_app tr1 tr2 : logged (tr1 ++ tr2) = (logged tr1 ++ logged tr2)%list.
Proof. unfold logged. apply flat_map_app. Qed.

Lemma commands_app tr1 tr2 :
  commands (tr1 ++ tr2) = (commands tr1 ++ commands tr2)%list.
Proof. unfold commands. apply flat_map_app. Qed.

(** The pattern of the detection methods: one process, its log entry, its
    snapshot; the entry is what is returned. *)
Lemma inspect_ends H A cmd snapshot :
  ends (inspect H A cmd snapshot)
    (fun o tr => exists r,
       o = Ret (entry_of r)
       /\ tr = [EvRun cmd None r; EvLog (entry_of r);
                EvSnapshot (path_join (pre_dir A) snapshot)
                           (cr_stdout r ++ nl ++ cr_stderr r)]).
Proof.
  unfold inspect, log_step, log_snapshot_file. repeat ends_step.
  eexists. split; reflexivity.
Qed.

Lemma inspect_probed H A cmd snapshot exits :
  ends (inspect H A cmd snapshot) (probed [cmd] exits).
Proof.
  eapply ends_weaken; [apply inspect_ends|].
  intros o tr (r & -> & ->). exists (entry_of r).
  repeat split; discriminate.
Qed.

Lemma log_entry_probed A entry exits :
  In (en_exit entry) exits ->
  ends (log_step A entry >> ret entry) (probed [] exits).
Proof.
  intros Hin. unfold log_step. repeat ends_step. exists entry.
  repeat split; auto.
Qed.


(** ** The source build pipeline: its steps and its failures *)


(** X8. On a host where build tools are missing, the source build starts
    no process at all: no download is attempted.  The working directory
    has been created by then (it is the first thing the method does); the
    result is an error result with the one step [check-build-tools], exit
    code 1, which is also the one entry logged. *)
Theorem missing_build_tools_stop_the_build
  (H : Host) (A : Agent) (version : string) (prefix : option string)
  (s : State) :
  (forall s', missing_tools H A s' <> []) ->
  let out := side_install_from_source H A version prefix s in
  let tr := new_events s (snd out) in
  commands tr = []
  /\ hd_error tr = Some (EvMkdtemp (h_mkdtemp H s))
  /\ match fst out with
     | Ret r =>
         exists missing,
           missing <> []
           /\ r = failed [tools_step missing]
           /\ logged tr = [entry_of (tools_step missing)]
     | Raise e => e = OSError "mkdtemp" /\ h_mkdtemp H s = None
     end.
Proof.
  intros Hmiss out tr. subst out tr.
  apply (ends_at_run _
    (fun o tr =>
       commands tr = []
       /\ hd_error tr = Some (EvMkdtemp (h_mkdtemp H s))
       /\ match o with
          | Ret r =>
              exists missing,
                missing <> []
                /\ r = failed [tools_step missing]
                /\ logged tr = [entry_of (tools_step missing)]
          | Raise e => e = OSError "mkdtemp" /\ h_mkdtemp H s = None
          end)).
  unfold side_install_from_source. apply ends_at_bind_gets.
  apply ends_at_of_ends. ends_step.
  destruct (h_mkdtemp H s) as [workdir|] eqn:Et.
  - ends_step.
    apply (ends_bind_gets_such _ (fun m => m <> [])); [exact Hmiss|].
    intros missing Hne. destruct missing as [|t rest]; [contradiction|].
    unfold log_step. repeat ends_step.
    split; [reflexivity|]. split; [reflexivity|].
    exists (t :: rest). repeat split. discriminate.
  - ends_step. repeat split.
Qed.

(** The host without tools. *)
Lemma no_build_on_bare_host :
  (forall s', missing_tools bare_host (agent_on "linux" upgrade_to_308) s'
              <> [])
  /\ commands (new_events empty_state
                 (snd (side_install_from_source bare_host
                         (agent_on "linux" upgrade_to_308) "3.0.8" None
                         empty_state))) = [].
Proof.
  split; [intros s'; discriminate|].
  apply (missing_build_tools_stop_the_build bare_host
           (agent_on "linux" upgrade_to_308) "3.0.8" None empty_state).
  intros s'. discriminate.
Defined.

Ltac sublist_steps :=
  repeat first [ apply sublist_nil
               | apply sublist_skip
               | apply sublist_cons ].

(** X9. The [steps] of a build result are a faithful record of the call:
    they are exactly the entries the call wrote to the log, in the same
    order, and the results of the processes it ran appear among them in
    the order they ran. *)
Theorem build_steps_are_the_logged_entries
  (H : Host) (A : Agent) (version : string) (prefix : option string)
  (s : State) :
  let out := side_install_from_source H A version prefix s in
  let tr := new_events s (snd out) in
  match fst out with
  | Ret r => logged tr = map entry_of (br_steps r)
             /\ sublist (map snd (results tr)) (br_steps r)
  | Raise _ => True
  end.
Proof.
  intros out tr. subst out tr.
  apply (ends_run _
    (fun o tr => match o with
                 | Ret r => logged tr = map entry_of (br_steps r)
                            /\ sublist (map snd (results tr)) (br_steps r)
                 | Raise _ => True
                 end)).
  ends_walk.
  all: try exact I.
  all: cbn [logged results flat_map app map snd br_steps failed];
    split; [reflexivity|]; sublist_steps.
Qed.

(** X10. The source build raises in two situations only: when the working
    directory cannot be created, before anything else happened; and when
    the archive was extracted with exit code 0 but no [openssl-*]
    directory is found, in which case [tar] is the last command that
    ran.  Every other failure is returned as an error result. *)
Theorem build_raises_only_at_two_places
  (H : Host) (A : Agent) (version : string) (prefix : option string)
  (s : State) :
  let out := side_install_from_source H A version prefix s in
  let tr := new_events s (snd out) in
  match fst out with
  | Ret r => True
  | Raise e =>
      (e = OSError "mkdtemp" /\ tr = [EvMkdtemp None])
      \/ (e = StopIteration
          /\ exists argv r,
               List.last (results tr) ([], mkResult "" 0 "" "") = (argv, r)
               /\ hd "" argv = "tar" /\ cr_exit r = 0)
  end.
Proof.
  intros out tr. subst out tr.
  apply (ends_run _
    (fun o tr =>
       match o with
       | Ret r => True
       | Raise e =>
           (e = OSError "mkdtemp" /\ tr = [EvMkdtemp None])
           \/ (e = StopIteration
               /\ exists argv r,
                    List.last (results tr) ([], mkResult "" 0 "" "") = (argv, r)
                    /\ hd "" argv = "tar" /\ cr_exit r = 0)
       end)).
  ends_walk.
  all: try exact I.
  all: first
    [ left; split; reflexivity
    | right; split; [reflexivity|];
      do 2 eexists; split; [reflexivity|];
      split; [reflexivity | now apply Z.eqb_eq] ].
Qed.

(** ** Which exceptions can end a run *)


Ltac raises_step :=
  lazymatch goal with
  | |- raises_only _ (ret _) => apply raises_ret
  | |- raises_only _ (gets _) => apply raises_gets
  | |- raises_only _ (touch _) => apply raises_touch
  | |- raises_only _ (add_artifact _) => apply raises_add_artifact
  | |- raises_only _ (emit _) => apply raises_emit
  | |- raises_only _ (run_cmd _ _ _ _) => apply raises_run_cmd
  | |- raises_only _ (resolve_package_owner _ _ _) =>
      apply (raises_of_value _ _ _ (resolve_package_owner_ends _ _ _))
  | |- raises_only _ (bind _ _) => apply raises_bind; [| intros ?]
  | |- raises_only _ (foldM _ _ _) => apply raises_foldM; intros ? ?
  | |- raises_only _ (if ?b then _ else _) => destruct b eqn:?
  | |- raises_only _ (match ?x with _ => _ end) => destruct x eqn:?
  end.

Lemma startswith_nonempty p c s :
  PyStr.startswith (String c p) s = true -> s <> "".
Proof. intros E ->. discriminate. Qed.

(** The loop over [otool -L] output never raises: a stripped line that
    starts with a slash has a first word. *)
Lemma otool_line_total libs line P : raises_only P (otool_line libs line).
Proof.
  unfold otool_line.
  destruct (PyStr.startswith "/" (PyStr.strip line)) eqn:E;
    [|apply raises_ret].
  unfold item.
  destruct (nth_error (PyStr.split (PyStr.strip line)) 0) eqn:En.
  - unfold path_exists. repeat raises_step.
  - exfalso.
    exact (nth_error_nonempty _
             (split_strip_nonempty _ (startswith_nonempty _ _ _ E)) En).
Qed.

Ltac raises_walk :=
  unfold run_logged, confirm_upgrade, inspect, copy2, write_file,
    log_snapshot_file, log_step, path_exists, which;
  repeat first [ apply otool_line_total | raises_step ].

Lemma upgrade_application_dependencies_total H A app P :
  raises_only P (upgrade_application_dependencies H A app).
Proof.
  unfold upgrade_application_dependencies, upgrade_packages,
    resolve_packages, identify_libraries.
  raises_walk.
Qed.

Lemma detection_total H A P :
  raises_only P (detect_openssl_cli H A)
  /\ raises_only P (detect_package_managers H A)
  /\ (forall app, raises_only P (detect_application_linking H A app)).
Proof.
  unfold detect_openssl_cli, detect_package_managers,
    detect_application_linking.
  repeat split; intros; raises_walk.
Qed.

Lemma post_checks_total H A strategy P :
  raises_only P (post_checks H A strategy).
Proof.
  unfold post_checks, generate_readme.
  destruct (detection_total H A P) as (Hcli & _ & Happ).
  apply raises_bind; [exact Hcli | intros _].
  apply raises_bind;
    [destruct (given _); [apply raises_bind; [apply Happ | intros _]|];
     apply raises_ret | intros _].
  apply raises_bind;
    [apply (raises_of_value _ _ _ (run_smoke_tests_ends H A)) | intros ?].
  raises_walk.
Qed.

Lemma prepare_backup_raises H A :
  raises_only backup_failure (prepare_backup H A).
Proof.
  unfold prepare_backup, backup_tool, write_checksum, archive_backup,
    backup_pattern, backup_lib.
  raises_walk.
  all: apply raises_raise; unfold backup_failure; tauto.
Qed.

Lemma side_install_raises H A version prefix :
  raises_only (fun e => e = OSError "mkdtemp" \/ e = StopIteration)
              (side_install_from_source H A version prefix).
Proof.
  unfold side_install_from_source, si_download, si_extract, si_configure,
    si_make, si_test, si_install, si_register.
  raises_walk.
  all: apply raises_raise; auto.
Qed.

Lemma perform_upgrade_raises H A pms :
  raises_only (fun e => e = OSError "mkdtemp" \/ e = StopIteration)
              (perform_upgrade H A (choose_strategy pms) pms).
Proof.
  assert (Hsrc : raises_only
                   (fun e => e = OSError "mkdtemp" \/ e = StopIteration)
                   (source_build H A)).
  { unfold source_build. apply raises_bind; [raises_walk | intros ok].
    destruct (negb ok); [apply raises_ret|].
    apply raises_bind; [apply side_install_raises | intros ?]. raises_walk. }
  assert (Hpm : forall items c1 c2,
             raises_only (fun e => e = OSError "mkdtemp" \/ e = StopIteration)
                         (pm_upgrade H A items c1 c2)).
  { intros. unfold pm_upgrade. raises_walk. }
  unfold perform_upgrade, choose_strategy.
  destruct (existsb (fun pm => PyStr.mem pm pms) first_class) eqn:Ex;
    cbn [st_type]; [|exact Hsrc].
  destruct pms as [|pm rest]; [discriminate Ex|].
  unfold item at 1. cbn [nth_error].
  apply raises_bind; [apply raises_ret | intros pm'].
  destruct (String.eqb pm' "apt"); [apply Hpm|].
  destruct (PyStr.mem pm' ["dnf"; "yum"]); [apply Hpm|].
  destruct (String.eqb pm' "apk"); [apply Hpm|].
  destruct (String.eqb pm' "brew"); [|exact Hsrc].
  unfold item.
  destruct (PyStr.split_on "." (target_version (args A))) as [|major more] eqn:E;
    [now apply split_on_nonempty in E|].
  cbn [nth_error]. apply raises_bind; [apply raises_ret | intros ?]. apply Hpm.
Qed.


(** ** The backup: what it starts, logs and raises *)

Lemma archived_app tr1 tr2 :
  archived (tr1 ++ tr2) = (archived tr1 ++ archived tr2)%list.
Proof. unfold archived. apply flat_map_app. Qed.

Lemma copies_only tr :
  Forall is_copy tr -> archived tr = [] /\ logged tr = [] /\ commands tr = [].
Proof.
  induction 1 as [|e tr He _ IH]; [repeat split|].
  destruct e; try contradiction. exact IH.
Qed.

Lemma backup_patterns_copy_only H A patterns saved :
  emits is_copy (foldM (backup_pattern H A) patterns saved).
Proof. unfold backup_pattern, backup_lib, copy2, path_exists. repeat emits_step; exact I. Qed.

(** The exception leaves of [prepare_backup]: the trace is concrete. *)
Ltac raised_backup :=
  unfold backup_failure, failed_copies, written;
  cbn [flat_map List.app];
  repeat split; intros;
  repeat match goal with
         | Hx : exists _, _ |- _ => destruct Hx
         end;
  try discriminate; try tauto; eauto.

(** What a call of [prepare_backup] ends with. *)
Lemma prepare_backup_ends H A :
  ends (prepare_backup H A) (backup_outcome A).
Proof.
  assert (Libs : forall saved,
             ends (foldM (backup_pattern H A) (lib_globs H A) saved)
                  (fun o tr => (exists x, o = Ret x) /\ Forall is_copy tr)).
  { intros saved. apply ends_of_emits_total.
    - apply backup_patterns_copy_only.
    - unfold backup_pattern, backup_lib. raises_walk. }
  unfold backup_outcome, prepare_backup, backup_tool, write_checksum,
    archive_backup, copy2, write_file, log_step, which.
  repeat ends_step.
  all: try (split; [reflexivity|]; raised_backup; fail).
  all: eapply ends_bind; [apply Libs | | intros e tr1 [[x Ex] _]; discriminate].
  all: intros saved tr1 [_ F]; destruct (copies_only _ F) as (Ea & El & Ec).
  all: repeat ends_step.
  all: unfold commands, archived, logged in *.
  all: cbn [flat_map app]; rewrite ?flat_map_app, ?Ec, ?Ea, ?El.
  all: split; [reflexivity|].
  all: first [ exists Worked; split; reflexivity
             | eexists (Raised _); split; reflexivity ].
Qed.

(** X12. [prepare_backup] starts no process.  It raises only from the
    calls outside its [try] blocks: creating the backup directory (then
    it has done nothing at all), copying the tool binary (then that failed
    copy is the last thing it did), and opening, computing or writing the
    checksum file (then no checksum was written); in each case nothing was
    archived or logged.  Otherwise it returns, whether or not the archive
    could be written: exactly one archive attempt was made and exactly one
    entry logged, [created ...] with exit code 0 after a success, and
    [tar-failed] with exit code 1 and the text of the exception after a
    failure. *)
Theorem backup_returns_even_when_archive_fails
  (H : Host) (A : Agent) (s : State) :
  let out := prepare_backup H A s in
  let tr := new_events s (snd out) in
  commands tr = []
  /\ match fst out with
     | Ret saved =>
         exists a, archived tr = [worked a]
                   /\ logged tr = [backup_entry (backup_tarball A) a]
     | Raise e =>
         backup_failure e /\ archived tr = [] /\ logged tr = []
         /\ written tr = []
         /\ (e = OSError "mkdir" <-> tr = [])
         /\ (e = OSError "copy2"
             <-> exists src, failed_copies tr = [(src, openssl_binary_dest A)])
     end.
Proof.
  intros out tr. subst out tr.
  exact (ends_run _ _ s (prepare_backup_ends H A)).
Qed.

(** A dry run on the Debian-like host when the backup directory cannot
    be created, and when the saved binary cannot be read back: the run
    ends with the exception, and in the second case the binary was copied
    and the checksum file created, but nothing was written to it, archived
    or logged for the backup. *)
Example backup_failures_end_the_run :
  fst (decide_and_execute (without_backup_dir debian_host)
         (agent_on "linux" plan_308) empty_state)
  = Raise (OSError "mkdir")
  /\ fst (prepare_backup (without_checksum debian_host)
            (agent_on "linux" plan_308) empty_state)
     = Raise (OSError "sha256")
  /\ new_events empty_state
       (snd (prepare_backup (without_checksum debian_host)
               (agent_on "linux" plan_308) empty_state))
     = [EvMkdir "/tmp/openssl-agent-backups/20240101T000000Z";
        EvCopy "/usr/bin/openssl"
               "/tmp/openssl-agent-backups/20240101T000000Z/openssl_binary"
               CopyDone].
Proof. repeat split; vm_compute; reflexivity. Qed.

(** An event that is no archive attempt. *)
Lemma no_archive tr : Forall not_archive tr -> archived tr = [].
Proof.
  induction 1 as [|e tr He _ IH]; [reflexivity|].
  destruct e; try contradiction; exact IH.
Qed.

Lemma archived_once_late (o : Outcome RunResult) tr1 tr2 :
  Forall not_archive tr1 -> archived_once o tr2 -> archived_once o (tr1 ++ tr2).
Proof.
  intros F. unfold archived_once. now rewrite archived_app, (no_archive _ F).
Qed.

(** X26. Every run that returns has made exactly one archive attempt,
    before the strategy was chosen: a dry run and a run the operator
    aborts back up the host just as a completed upgrade does.  A run that
    raises has made at most one. *)
Theorem every_returning_run_archives_once (H : Host) (A : Agent) (s : State) :
  let out := decide_and_execute H A s in
  archived_once (fst out) (new_events s (snd out)).
Proof.
  intros out. subst out. apply (ends_run _ archived_once).
  assert (Hraise : forall e tr1,
             Forall not_archive tr1 ->
             archived_once (@Raise RunResult e) tr1).
  { intros e tr1 F. unfold archived_once. rewrite (no_archive _ F). cbn. lia. }
  unfold decide_and_execute.
  do 4 (apply ends_bind_skip with (P := not_archive);
        [ emits_walk; exact I | intros ?
        | apply archived_once_late | exact Hraise ]).
  eapply ends_bind; [apply prepare_backup_ends | |].
  - intros saved tr1 (_ & ? & Ea & _). eapply ends_weaken.
    + apply ends_of_emits with (P := not_archive). emits_walk; exact I.
    + intros o tr2 F. unfold archived_once.
      rewrite archived_app, Ea, (no_archive _ F). now destruct o.
  - intros e tr1 (_ & _ & Ea & _). unfold archived_once. rewrite Ea. cbn. lia.
Qed.

(** ** A run whose operator declines *)



Lemma no_process_on_runs q tr :
  count_processes tr = 0%nat -> Forall (on_runs q) tr.
Proof.
  unfold count_processes. induction tr as [|e tr IH]; [constructor|].
  destruct e; cbn [List.filter length]; try discriminate;
    intros E; constructor; try exact I; now apply IH.
Qed.

(** Close a goal [on_runs not_mutating_cmd (EvRun ...)] whose command
    line has arguments that are not known. *)
Ltac decide_mutating :=
  unfold on_runs, not_mutating_cmd, is_mutating_cmd, is_source_build_cmd,
    is_upgrade_cmd, is_pm_command, with_sudo;
  repeat match goal with
         | |- context [if ?b then _ else _] => destruct b
         end;
  cbn [hd tl andb orb negb PyStr.mem existsb String.eqb Ascii.eqb Bool.eqb];
  rewrite ?andb_false_r, ?orb_false_r;
  first [exact I | reflexivity].

Section DeclinedRun.

Variable H : Host.
Variable A : Agent.
Hypothesis Hforce : force (args A) = false.
Hypothesis Hdecl : declines H.

Lemma dependencies_declined app :
  emits (on_runs not_mutating_cmd) (upgrade_application_dependencies H A app).
Proof.
  unfold upgrade_application_dependencies.
  apply emits_bind; [emits_walk; exact I | intros _].
  apply emits_bind; [emits_walk; decide_mutating | intros libs].
  apply emits_bind; [emits_walk; decide_mutating | intros packages].
  destruct (packages_to_upgrade packages) as [|p ps]; [apply emits_ret|].
  apply emits_of_ends.
  eapply ends_bind; [apply (confirm_upgrade_declined H A Hforce Hdecl) | |].
  - intros a tr1 [E C]. inversion E; subst a. apply ends_ret.
    rewrite app_nil_r. now apply no_process_on_runs.
  - intros e tr1 [E _]. discriminate.
Qed.

Lemma execute_strategy_declined pms :
  ends (execute_strategy H A pms)
       (fun o tr => Forall (on_runs not_mutating_cmd) tr /\ nothing_upgraded o).
Proof.
  unfold execute_strategy.
  apply ends_bind_through; [emits_walk; exact I | raises_walk | intros _].
  destruct (dry_run (args A)).
  - apply ends_bind_through; [emits_walk; exact I | raises_walk | intros _].
    apply ends_bind_through;
      [emits_walk; exact I | unfold generate_readme; raises_walk | intros _].
    apply ends_ret. split; [constructor | right; eauto].
  - eapply ends_bind;
      [apply (perform_upgrade_declined H A Hforce Hdecl) | |].
    + intros a tr1 [E C]. inversion E; subst a. apply ends_ret.
      rewrite app_nil_r. split; [now apply no_process_on_runs | now left].
    + intros e tr1 [E _]. discriminate.
Qed.

End DeclinedRun.



(** ** What the closing message rests on *)

Lemma passed_checks_late tr1 tr2 : passed_checks tr2 -> passed_checks (tr1 ++ tr2).
Proof.
  intros (results & Hin & Hrest). exists results.
  split; [apply in_or_app; now right | exact Hrest].
Qed.

(** [run_smoke_tests] returns what it logged last, and the status is
    that of the checks. *)
Lemma run_smoke_tests_logs H A :
  ends (run_smoke_tests H A)
       (value (fun r tr => sr_status r = smoke_status (sr_checks r)
                           /\ In (EvLog (smoke_entry r)) tr)).
Proof.
  unfold run_smoke_tests, which, path_exists. do 2 ends_step.
  eapply ends_bind;
    [apply check_binaries_ends | | intros e tr1 []].
  intros cs tr1 _. unfold log_step. repeat ends_step.
  all: cbn [value sr_status sr_checks]; split; [reflexivity|].
  all: apply in_or_app; right; cbn; tauto.
Qed.

Lemma post_checks_verdict H A strategy :
  ends (post_checks H A strategy)
       (fun o tr => forall r, o = Ret r ->
                      (forall st, r <> DryRun st)
                      /\ (r = Done true -> passed_checks tr)).
Proof.
  unfold post_checks.
  assert (Hmono : forall (o : Outcome RunResult) tr1 tr2,
             (forall r, o = Ret r ->
                (forall st, r <> DryRun st)
                /\ (r = Done true -> passed_checks tr2)) ->
             forall r, o = Ret r ->
                (forall st, r <> DryRun st)
                /\ (r = Done true -> passed_checks (tr1 ++ tr2))).
  { intros o tr1 tr2 Hq r E. destruct (Hq r E) as [Hd Hp].
    split; [exact Hd|]. intros Er. apply passed_checks_late. auto. }
  apply ends_bind_late;
    [emits_walk; exact I | intros _ | exact Hmono
    | intros e tr r E; discriminate E].
  apply ends_bind_late;
    [emits_walk; exact I | intros _ | exact Hmono
    | intros e tr r E; discriminate E].
  eapply ends_bind; [apply run_smoke_tests_logs | | intros e tr1 []].
  intros results tr1 [Hst Hin]. cbn [value] in *.
  unfold generate_readme, log_step. repeat ends_step.
  intros r E. inversion E; subst r. split; [discriminate|].
  intros Ed. inversion Ed as [Ev].
  destruct (sr_status results) eqn:Es; try discriminate.
  exists results. split; [apply in_or_app; now left|].
  split; [exact Es|]. apply smoke_status_pass. now rewrite <- Hst.
Qed.

Lemma decide_and_execute_verdict H A :
  ends (decide_and_execute H A) (run_verdict A).
Proof.
  assert (Hmono : forall o tr1 tr2,
             run_verdict A o tr2 -> run_verdict A o (tr1 ++ tr2)).
  { intros [r|e] tr1 tr2; [|exact id]. intros [Hd Hp].
    split; [exact Hd|]. intros Er. apply passed_checks_late. auto. }
  assert (Hraise : forall e tr, run_verdict A (@Raise RunResult e) tr)
    by (intros; exact I).
  unfold decide_and_execute, execute_strategy.
  do 6 (apply ends_bind_late;
        [emits_walk; exact I | intros ? | exact Hmono | exact Hraise]).
  destruct (dry_run (args A)) eqn:Ed.
  - do 2 (apply ends_bind_late;
          [emits_walk; exact I | intros ? | exact Hmono | exact Hraise]).
    apply ends_ret. split; [split; eauto | discriminate].
  - apply ends_bind_late;
      [emits_walk; exact I | intros proceed | exact Hmono | exact Hraise].
    destruct proceed.
    + eapply ends_weaken; [apply post_checks_verdict|].
      intros [r|e] tr Hq; [|exact I]. destruct (Hq r eq_refl) as [Hd Hp].
      split; [|exact Hp]. split; [|congruence].
      intros [st E]. destruct (Hd st E).
    + apply ends_ret. split; [|discriminate].
      split; [intros [st E]; discriminate | congruence].
Qed.

(** X14. What [main] prints last follows the run: it says [Dry-run
    only; no changes made.] exactly when [--dry-run] was given, and it
    says that the upgrade seems successful only when the smoke tests were
    logged with the status [pass], that is with at least one check and
    every check passed. *)
Theorem success_announced_only_after_passing_checks
  (H : Host) (A : Agent) (s : State) :
  let out := main H A s in
  let tr := new_events s (snd out) in
  match fst out with
  | Ret msgs =>
      exists closing,
        msgs = [RunComplete (log_dir A); closing]
        /\ (closing = DryRunOnly <-> dry_run (args A) = true)
        /\ (closing = SeemsSuccessful -> passed_checks tr)
  | Raise _ => True
  end.
Proof.
  intros out tr. subst out tr.
  apply (ends_run _
    (fun o tr =>
       match o with
       | Ret msgs =>
           exists closing,
             msgs = [RunComplete (log_dir A); closing]
             /\ (closing = DryRunOnly <-> dry_run (args A) = true)
             /\ (closing = SeemsSuccessful -> passed_checks tr)
       | Raise _ => True
       end)).
  unfold main.
  eapply ends_bind; [apply decide_and_execute_verdict | | intros e tr1 _; exact I].
  intros r tr1 [Hd Hp]. apply ends_ret. rewrite app_nil_r.
  exists (closing_message r). split; [reflexivity|]. split.
  - rewrite <- Hd. destruct r as [st| |[|]]; cbn; split;
      first [ discriminate | intros [? ?]; discriminate | eauto ].
  - intros Ec. apply Hp. destruct r as [st| |[|]]; cbn in Ec;
      first [discriminate | reflexivity].
Qed.

(** ** The report *)

Lemma reports_app tr1 tr2 :
  reports (tr1 ++ tr2) = (reports tr1 ++ reports tr2)%list.
Proof. unfold reports. apply flat_map_app. Qed.

Lemma no_reports tr : Forall no_report tr -> reports tr = [].
Proof.
  induction 1 as [|e tr He _ IH]; [reflexivity|].
  destruct e; try contradiction; exact IH.
Qed.


Lemma report_matches_late o tr1 tr2 :
  Forall no_report tr1 -> report_matches o tr2 -> report_matches o (tr1 ++ tr2).
Proof.
  intros F. unfold report_matches. rewrite reports_app, (no_reports _ F).
  exact id.
Qed.

Lemma report_matches_raise e tr :
  Forall no_report tr -> report_matches (Raise e) tr.
Proof. intros F. exact (no_reports _ F). Qed.

Ltac skip_quiet :=
  apply ends_bind_skip with (P := no_report);
  [ emits_walk; exact I | intros ?
  | apply report_matches_late | apply report_matches_raise ].

(** X15. A run writes its report exactly once when it ends with the
    status [dry-run] or [done], with the verdict of the result in it
    ([None] after a dry run), and not at all when the operator declined
    or the run raised: an aborted run leaves no README behind. *)
Theorem report_written_once_per_completed_run
  (H : Host) (A : Agent) (s : State) :
  let out := decide_and_execute H A s in
  report_matches (fst out) (new_events s (snd out)).
Proof.
  intros out. subst out. apply (ends_run _ report_matches).
  unfold decide_and_execute, execute_strategy.
  do 6 skip_quiet.
  destruct (dry_run (args A)).
  - skip_quiet. unfold generate_readme, log_step. repeat ends_step.
    eexists. reflexivity.
  - apply ends_bind_skip with (P := no_report);
      [ emits_walk; exact I | intros proceed
      | apply report_matches_late | apply report_matches_raise ].
    destruct proceed; [|apply ends_ret; reflexivity].
    unfold post_checks. do 3 skip_quiet.
    unfold generate_readme, log_step. repeat ends_step.
    do 2 eexists. reflexivity.
Qed.

(** ** Smoke tests: where the version snapshots go *)

Lemma string_app_assoc (a b c : string) : (a ++ b) ++ c = a ++ (b ++ c).
Proof.
  induction a as [|x a IH]; [reflexivity|].
  change (String x ((a ++ b) ++ c) = String x (a ++ (b ++ c))). now f_equal.
Qed.

(** Splitting distributes over a separator in the middle. *)
Lemma split_on_app sep a b :
  PyStr.split_on sep (a ++ String sep b)
  = (PyStr.split_on sep a ++ PyStr.split_on sep b)%list.
Proof.
  induction a as [|c a IH].
  - change (PyStr.split_on sep (String sep b)
            = "" :: PyStr.split_on sep b).
    cbn [PyStr.split_on]. now rewrite Ascii.eqb_refl.
  - change (String c a ++ String sep b) with (String c (a ++ String sep b)).
    cbn [PyStr.split_on].
    destruct (Ascii.eqb c sep); [now rewrite IH|].
    rewrite IH. destruct (PyStr.split_on sep a) as [|w ws] eqn:E.
    + now apply split_on_nonempty in E.
    + reflexivity.
Qed.

Lemma replace_char_app a b x y :
  PyStr.replace_char a b (x ++ y)
  = PyStr.replace_char a b x ++ PyStr.replace_char a b y.
Proof.
  induction x as [|c x IH]; [reflexivity|].
  change (String (if Ascii.eqb c a then b else c)
                 (PyStr.replace_char a b (x ++ y))
          = String (if Ascii.eqb c a then b else c)
                   (PyStr.replace_char a b x ++ PyStr.replace_char a b y)).
  now f_equal.
Qed.

(** A path that ends in [/openssl] has the name [openssl]. *)
Lemma path_name_openssl nt dir : path_name nt (dir ++ "/openssl") = "openssl".
Proof.
  unfold path_name.
  assert (E : (if nt then PyStr.replace_char "\" "/" (dir ++ "/openssl")
               else dir ++ "/openssl")
              = (if nt then PyStr.replace_char "\" "/" dir else dir)
                ++ String "/" "openssl").
  { destruct nt; [|reflexivity]. now rewrite replace_char_app. }
  rewrite E, split_on_app, List.filter_app. cbn [PyStr.split_on].
  change (List.filter _ ["openssl"]) with ["openssl"].
  apply last_last.
Qed.

Lemma side_install_bin_name nt A : path_name nt (side_install_bin A) = "openssl".
Proof.
  unfold side_install_bin.
  change ("/bin/openssl") with ("/bin" ++ "/openssl").
  rewrite <- !string_app_assoc. apply path_name_openssl.
Qed.

(** X16. When [run_smoke_tests] checks both the [openssl] found on the
    search path (a file named [openssl]) and the side-installed binary,
    the two version snapshots go to the same file
    [post/openssl-version-openssl.txt]: the second overwrites the first. *)
Theorem smoke_snapshots_share_one_file
  (H : Host) (A : Agent) (s : State) (p : string) :
  h_which H s "openssl" = Some p ->
  path_name (h_nt H) p = "openssl" ->
  side_install_bin A ∈ fs s ->
  let out := run_smoke_tests H A s in
  let tr := new_events s (snd out) in
  let file := path_join (post_dir A) "openssl-version-openssl.txt" in
  snapshot_paths tr = [file; file]
  /\ firstn 1 (commands tr) = [[p; "version"; "-a"]]
  /\ nth_error (commands tr) 1 = Some [side_install_bin A; "version"; "-a"].
Proof.
  intros Hw Hp Hside out tr file. subst out tr file.
  apply (ends_at_run _
    (fun o tr =>
       snapshot_paths tr
       = [path_join (post_dir A) "openssl-version-openssl.txt";
          path_join (post_dir A) "openssl-version-openssl.txt"]
       /\ firstn 1 (commands tr) = [[p; "version"; "-a"]]
       /\ nth_error (commands tr) 1
          = Some [side_install_bin A; "version"; "-a"])).
  unfold run_smoke_tests, which, path_exists.
  apply ends_at_bind_gets. rewrite Hw.
  apply ends_at_bind_gets. rewrite (bool_decide_eq_true_2 _ Hside).
  cbn [app foldM]. apply ends_at_of_ends.
  unfold check_binary, log_snapshot_file, log_step.
  rewrite Hp, (side_install_bin_name (h_nt H) A).
  repeat ends_step.
  all: repeat split.
Qed.

(** The Debian-like host after a side-install of 3.0.8. *)
Lemma debian_snapshots_share_one_file :
  h_which debian_host side_installed_state "openssl" = Some "/usr/bin/openssl"
  /\ path_name (h_nt debian_host) "/usr/bin/openssl" = "openssl"
  /\ side_install_bin (agent_on "linux" upgrade_to_308)
     ∈ fs side_installed_state
  /\ snapshot_paths
       (new_events side_installed_state
          (snd (run_smoke_tests debian_host (agent_on "linux" upgrade_to_308)
                  side_installed_state)))
     = ["/tmp/openssl-agent-logs/20240101T000000Z/post/openssl-version-openssl.txt";
        "/tmp/openssl-agent-logs/20240101T000000Z/post/openssl-version-openssl.txt"].
Proof.
  assert (Hside : side_install_bin (agent_on "linux" upgrade_to_308)
                  ∈ fs side_installed_state)
    by (vm_compute; reflexivity).
  split; [reflexivity|]. split; [reflexivity|]. split; [exact Hside|].
  pose proof (smoke_snapshots_share_one_file debian_host
                (agent_on "linux" upgrade_to_308) side_installed_state
                "/usr/bin/openssl" eq_refl eq_refl Hside) as W.
  exact (proj1 W).
Defined.

(** ** The dependency list *)

Lemma string_leb_trans a : forall b c,
  String.leb a b = true -> String.leb b c = true -> String.leb a c = true.
Proof.
  unfold String.leb.
  induction a as [|x a IH]; intros [|y b] [|z c]; cbn [String.compare];
    try discriminate; try reflexivity.
  unfold Ascii.compare.
  destruct (N.compare_spec (N_of_ascii x) (N_of_ascii y)) as [E1|L1|G1];
    destruct (N.compare_spec (N_of_ascii y) (N_of_ascii z)) as [E2|L2|G2];
    try discriminate; intros H1 H2;
    destruct (N.compare_spec (N_of_ascii x) (N_of_ascii z)) as [E3|L3|G3];
    try reflexivity; try lia.
  exact (IH b c H1 H2).
Qed.

Abbreviation string_le := (fun a b : string => String.leb a b = true).

Lemma insert_sorted_In x l y :
  In y (PyStr.insert_sorted x l) <-> y = x \/ In y l.
Proof.
  induction l as [|z l IH]; cbn [PyStr.insert_sorted].
  - cbn. intuition.
  - destruct (String.leb x z); cbn [In]; [intuition|].
    rewrite IH. intuition.
Qed.

Lemma insert_sorted_ordered x l :
  StronglySorted string_le l ->
  StronglySorted string_le (PyStr.insert_sorted x l).
Proof.
  induction 1 as [|z l Hs IH Hz]; cbn [PyStr.insert_sorted].
  - repeat constructor.
  - destruct (String.leb x z) eqn:E.
    + constructor; [now constructor|]. constructor; [exact E|].
      eapply List.Forall_impl; [|exact Hz].
      intros w Hw. exact (string_leb_trans _ _ _ E Hw).
    + constructor; [exact IH|]. apply List.Forall_forall. intros w Hw.
      apply insert_sorted_In in Hw. destruct Hw as [->|Hw].
      * destruct (String.leb_total x z) as [E'|E']; congruence.
      * rewrite List.Forall_forall in Hz. now apply Hz.
Qed.

Lemma insert_sorted_distinct x l :
  ~ In x l -> List.NoDup l -> List.NoDup (PyStr.insert_sorted x l).
Proof.
  induction l as [|z l IH]; cbn [PyStr.insert_sorted]; intros Hx Hl.
  - now constructor.
  - destruct (String.leb x z); [now constructor|].
    inversion Hl as [|? ? Hz Hl']; subst. constructor.
    + rewrite insert_sorted_In. intros [->|Hin]; [|contradiction].
      apply Hx. now left.
    + apply IH; [|exact Hl']. intros Hin. apply Hx. now right.
Qed.

Lemma sorted_spec l :
  StronglySorted string_le (PyStr.sorted l)
  /\ (forall y, In y (PyStr.sorted l) <-> In y l)
  /\ (List.NoDup l -> List.NoDup (PyStr.sorted l)).
Proof.
  induction l as [|x l (Hs & Hin & Hnd)]; cbn [PyStr.sorted fold_right].
  - repeat split; auto; constructor.
  - fold (PyStr.sorted l). split; [now apply insert_sorted_ordered|]. split.
    + intros y. rewrite insert_sorted_In, Hin. cbn. intuition.
    + intros Hl. inversion Hl as [|? ? Hx Hl']; subst.
      apply insert_sorted_distinct; [now rewrite Hin | auto].
Qed.

(** X17. The list of dependencies to upgrade holds exactly the owning
    packages whose name contains none of [openssl], [libssl],
    [libcrypto]; each once, in ascending order of code points. *)
Theorem dependency_list_is_sorted_without_openssl (packages : gset string) :
  let pkgs := packages_to_upgrade packages in
  StronglySorted (fun a b => String.leb a b = true) pkgs
  /\ NoDup pkgs
  /\ forall p,
       In p pkgs
       <-> p ∈ packages
           /\ Forall (fun term => PyStr.contains term p = false) openssl_terms.
Proof.
  intros pkgs. subst pkgs. unfold packages_to_upgrade.
  destruct (sorted_spec
              (List.filter
                 (fun p => negb (existsb (fun x => PyStr.contains x p)
                                         openssl_terms))
                 (elements packages))) as (Hs & Hin & Hnd).
  split; [exact Hs|]. split.
  - apply NoDup_ListNoDup, Hnd, List.NoDup_filter, NoDup_ListNoDup,
      NoDup_elements.
  - intros p. rewrite Hin, filter_In, <- list_elem_of_In, elem_of_elements.
    rewrite negb_true_iff. unfold openssl_terms. cbn [existsb].
    rewrite !orb_false_iff. rewrite !Forall_cons, Forall_nil. tauto.
Qed.

(** ** The dependency step: what is upgraded *)

Lemma prompts_app tr1 tr2 :
  prompts (tr1 ++ tr2) = (prompts tr1 ++ prompts tr2)%list.
Proof. unfold prompts. apply flat_map_app. Qed.

Lemma upgrade_commands_app tr1 tr2 :
  upgrade_commands (tr1 ++ tr2)
  = (upgrade_commands tr1 ++ upgrade_commands tr2)%list.
Proof. unfold upgrade_commands. now rewrite commands_app, List.filter_app. Qed.

Lemma inspection_quiet tr :
  Forall inspection_only tr -> prompts tr = [] /\ upgrade_commands tr = [].
Proof.
  induction 1 as [|e tr He _ [IH1 IH2]]; [split; reflexivity|].
  destruct e; try contradiction; try (split; assumption).
  split; [exact IH1|]. unfold upgrade_commands in *. cbn [commands flat_map].
  cbn [app List.filter]. cbn [inspection_only] in He. now rewrite He.
Qed.

Lemma asked_first_late tr1 tr2 :
  Forall inspection_only tr1 -> asked_first tr2 -> asked_first (tr1 ++ tr2).
Proof.
  induction 1 as [|e tr1 He _ IH]; intros H2; [exact H2|].
  destruct e; cbn [app asked_first]; try contradiction; auto.
Qed.

Lemma asked_first_then tr1 tr2 :
  asked_first tr1 -> Forall inspection_only tr2 -> asked_first (tr1 ++ tr2).
Proof.
  intros H1 F. induction tr1 as [|e tr1 IH].
  - cbn [app]. rewrite <- (app_nil_r tr2).
    apply asked_first_late; [exact F | exact I].
  - destruct e; cbn [app asked_first] in *; auto.
    destruct H1 as [He H1]. auto.
Qed.

Lemma upgraded_as_announced_quiet pkgs tr :
  Forall inspection_only tr -> upgraded_as_announced pkgs tr.
Proof.
  intros F. split.
  - rewrite <- (app_nil_r tr). apply asked_first_late; [exact F | exact I].
  - left. now apply inspection_quiet.
Qed.

Lemma upgraded_as_announced_late pkgs tr1 tr2 :
  Forall inspection_only tr1 ->
  upgraded_as_announced pkgs tr2 -> upgraded_as_announced pkgs (tr1 ++ tr2).
Proof.
  intros F [Ha Hu]. destruct (inspection_quiet _ F) as [Ep Eu].
  split; [now apply asked_first_late|].
  now rewrite prompts_app, upgrade_commands_app, Ep, Eu.
Qed.

Ltac decide_inspection :=
  cbn [inspection_only];
  first [ exact I
        | unfold is_upgrade_cmd, is_pm_command, with_sudo;
          repeat match goal with
                 | |- context [if ?b then _ else _] => destruct b
                 end;
          cbn [hd tl andb orb negb PyStr.mem existsb String.eqb Ascii.eqb
               Bool.eqb];
          rewrite ?andb_false_r, ?orb_false_r; reflexivity ].

Lemma identify_and_resolve_inspect H A app :
  emits inspection_only (identify_libraries H A app)
  /\ forall libs, emits inspection_only (resolve_packages H A libs).
Proof. split; [|intros libs]; emits_walk; decide_inspection. Qed.

Lemma upgrade_packages_announced H A pkgs pre :
  pkgs <> [] ->
  prompts pre = [pkgs] -> upgrade_commands pre = [] ->
  (forall tr, asked_first (pre ++ tr)) ->
  ends (upgrade_packages H A pkgs)
       (fun _ tr => upgraded_as_announced pkgs (pre ++ tr)).
Proof.
  intros Hne Ep Eu Ha. unfold upgrade_packages, run_logged, log_step, which.
  repeat ends_step.
  all: split; [apply Ha|].
  all: right; split; [exact Hne|];
    rewrite prompts_app, upgrade_commands_app, Ep, Eu;
    split; [reflexivity|].
  all: first
    [ left; reflexivity
    | right; unfold with_sudo; destruct (h_nt H); cbn [andb negb app];
      eexists; (split; [reflexivity|]);
      repeat first [ apply suffix_cons_r | reflexivity ] ].
Qed.

(** The dependency step, for every application path. *)
Lemma upgrade_application_dependencies_announced H A app :
  ends (upgrade_application_dependencies H A app)
       (fun _ tr => exists packages,
          upgraded_as_announced (packages_to_upgrade packages) tr).
Proof.
  destruct (identify_and_resolve_inspect H A app) as [Hid Hres].
  assert (Hlate : forall (o : Outcome unit) tr1 tr2,
             Forall inspection_only tr1 ->
             (exists packages,
                upgraded_as_announced (packages_to_upgrade packages) tr2) ->
             exists packages,
               upgraded_as_announced (packages_to_upgrade packages)
                                     (tr1 ++ tr2)).
  { intros _ tr1 tr2 F [packages Hu]. exists packages.
    now apply upgraded_as_announced_late. }
  assert (Hraise : forall (e : Exn) tr1,
             Forall inspection_only tr1 ->
             exists packages,
               upgraded_as_announced (packages_to_upgrade packages) tr1).
  { intros _ tr1 F. exists ∅. now apply upgraded_as_announced_quiet. }
  unfold upgrade_application_dependencies.
  apply ends_bind_skip with (P := inspection_only);
    [emits_walk; exact I | intros _ | exact Hlate | exact Hraise].
  apply ends_bind_skip with (P := inspection_only);
    [exact Hid | intros libs | exact Hlate | exact Hraise].
  apply ends_bind_skip with (P := inspection_only);
    [apply Hres | intros packages | exact Hlate | exact Hraise].
  destruct (packages_to_upgrade packages) as [|p ps] eqn:Ep.
  - apply ends_ret. exists packages. rewrite Ep.
    split; [exact I|]. left. split; reflexivity.
  - unfold confirm_upgrade. repeat ends_step.
    all: try (exists packages; rewrite Ep; split; [exact I|]; right;
              split; [discriminate|]; split; [reflexivity|];
              left; reflexivity).
    all: eapply ends_weaken;
      [ first
          [ apply (upgrade_packages_announced H A (p :: ps)
                     [EvPrompt (p :: ps)]);
            first [discriminate | reflexivity | intros; exact I]
          | apply (upgrade_packages_announced H A (p :: ps)
                     [EvPrompt (p :: ps); EvInput (Some _)]);
            first [discriminate | reflexivity | intros; exact I] ]
      | intros o tr Hu; exists packages; rewrite Ep; exact Hu ].
Qed.

(** X18. The dependency step upgrades only what it announced: it runs at
    most one package-manager upgrade command, only after a prompt that
    lists the packages, and the command line ends with exactly the listed
    packages, which are the owning packages found, OpenSSL's own left
    out.  When that list is empty there is neither a prompt nor an
    upgrade. *)
Theorem dependencies_upgraded_as_announced
  (H : Host) (A : Agent) (app : string) (s : State) :
  let out := upgrade_application_dependencies H A app s in
  exists packages,
    upgraded_as_announced (packages_to_upgrade packages)
                          (new_events s (snd out)).
Proof.
  intros out. subst out.
  exact (ends_run _ _ s (upgrade_application_dependencies_announced H A app)).
Qed.

Lemma upgraded_as_announced_then pkgs tr1 tr2 :
  Forall inspection_only tr2 ->
  upgraded_as_announced pkgs tr1 -> upgraded_as_announced pkgs (tr1 ++ tr2).
Proof.
  intros F [Ha Hu]. destruct (inspection_quiet _ F) as [Ep Eu].
  split; [now apply asked_first_then|].
  now rewrite prompts_app, upgrade_commands_app, Ep, Eu, !app_nil_r.
Qed.

(** A dry run starts no configure or build command. *)
Lemma dry_run_builds_nothing H A :
  dry_run (args A) = true ->
  emits (on_runs not_source_build_cmd) (decide_and_execute H A).
Proof.
  intros Hd. unfold decide_and_execute, execute_strategy. rewrite Hd.
  emits_walk.
  all: unfold on_runs, not_source_build_cmd, is_source_build_cmd, with_sudo;
    repeat match goal with
           | |- context [if ?b then _ else _] => destruct b
           end;
    first [exact I | reflexivity].
Qed.

(** X28. Under [--dry-run] the only command that can change the host is
    the dependency upgrade of step 3: a run starts at most one
    package-manager upgrade command, after the prompt that lists its
    packages, and no configure or build command at all.  Step 7 is never
    reached. *)
Theorem dry_run_runs_at_most_the_dependency_upgrade
  (H : Host) (A : Agent) (s : State) :
  dry_run (args A) = true ->
  let out := decide_and_execute H A s in
  let tr := new_events s (snd out) in
  (exists packages, upgraded_as_announced (packages_to_upgrade packages) tr)
  /\ Forall (on_runs not_source_build_cmd) tr.
Proof.
  intros Hd out tr. subst out tr.
  split; [|exact (emits_run _ _ s (dry_run_builds_nothing H A Hd))].
  apply (ends_run _
    (fun _ tr => exists packages,
       upgraded_as_announced (packages_to_upgrade packages) tr)).
  assert (Hlate : forall (o : Outcome RunResult) tr1 tr2,
             Forall inspection_only tr1 ->
             (exists packages,
                upgraded_as_announced (packages_to_upgrade packages) tr2) ->
             exists packages,
               upgraded_as_announced (packages_to_upgrade packages)
                                     (tr1 ++ tr2)).
  { intros _ tr1 tr2 F [packages Hu]. exists packages.
    now apply upgraded_as_announced_late. }
  assert (Hraise : forall (e : Exn) tr1,
             Forall inspection_only tr1 ->
             exists packages,
               upgraded_as_announced (packages_to_upgrade packages) tr1).
  { intros _ tr1 F. exists ∅. now apply upgraded_as_announced_quiet. }
  assert (Hrest : forall (X : Type) (m : M X),
             emits inspection_only m ->
             forall packages tr1,
               upgraded_as_announced (packages_to_upgrade packages) tr1 ->
               ends m (fun _ tr2 =>
                         exists packages0,
                           upgraded_as_announced
                             (packages_to_upgrade packages0) (tr1 ++ tr2))).
  { intros X m Hm packages tr1 Hu. eapply ends_weaken;
      [apply ends_of_emits, Hm|].
    intros o tr2 F. exists packages. now apply upgraded_as_announced_then. }
  unfold decide_and_execute, execute_strategy. rewrite Hd.
  do 3 (apply ends_bind_skip with (P := inspection_only);
        [ emits_walk; decide_inspection | intros ?
        | exact Hlate | exact Hraise ]).
  destruct (given (app_path (args A))) as [app|].
  - apply ends_bind_assoc.
    apply ends_bind_skip with (P := inspection_only);
      [ emits_walk; decide_inspection | intros _ | exact Hlate | exact Hraise ].
    eapply ends_bind;
      [ apply upgrade_application_dependencies_announced
      | | intros e tr1 Hu; exact Hu ].
    intros _ tr1 [packages Hu]. apply (Hrest _ _) with (packages := packages);
      [emits_walk; decide_inspection | exact Hu].
  - apply ends_bind_ret. eapply ends_weaken.
    + apply ends_of_emits with (P := inspection_only).
      emits_walk; decide_inspection.
    + intros o tr F. exists ∅. now apply upgraded_as_announced_quiet.
Qed.

(** The dry run with an app path on the Debian-like host. *)
Lemma debian_dry_run_builds_nothing :
  dry_run (args (agent_on "linux" (upgrade_server true))) = true
  /\ Forall (on_runs not_source_build_cmd)
       (new_events debian_state
          (snd (decide_and_execute debian_host
                  (agent_on "linux" (upgrade_server true)) debian_state))).
Proof.
  split; [reflexivity|].
  pose proof (dry_run_runs_at_most_the_dependency_upgrade debian_host
                (agent_on "linux" (upgrade_server true)) debian_state
                eq_refl) as W.
  exact (proj2 W).
Defined.

(** ** The dependency step where no library can be identified *)

Lemma mem_cons_false x y ys :
  PyStr.mem x (y :: ys) = false ->
  String.eqb x y = false /\ PyStr.mem x ys = false.
Proof. cbn [PyStr.mem existsb]. apply orb_false_elim. Qed.

(** X19. On Windows, on HP-UX and on every platform other than linux,
    sunos, darwin and aix, the dependency step identifies no library: it
    returns after at most one inspection command, having asked nothing and
    upgraded nothing, whatever that command printed.  The [choco upgrade]
    branch of the step is never reached. *)
Theorem no_dependency_upgrade_without_library_paths
  (H : Host) (A : Agent) (app : string) (s : State) :
  PyStr.mem (platform A) ["linux"; "sunos"; "darwin"; "aix"] = false ->
  let out := upgrade_application_dependencies H A app s in
  let tr := new_events s (snd out) in
  fst out = Ret tt
  /\ prompts tr = []
  /\ upgrade_commands tr = []
  /\ (length (commands tr) <= 1)%nat.
Proof.
  intros Hp out tr. subst out tr.
  apply mem_cons_false in Hp. destruct Hp as [Hlinux Hp].
  apply mem_cons_false in Hp. destruct Hp as [Hsunos Hp].
  apply mem_cons_false in Hp. destruct Hp as [Hdarwin Hp].
  apply mem_cons_false in Hp. destruct Hp as [Haix _].
  apply (ends_run _
    (fun o tr => o = Ret tt /\ prompts tr = [] /\ upgrade_commands tr = []
                 /\ (length (commands tr) <= 1)%nat)).
  unfold upgrade_application_dependencies, identify_libraries.
  cbn [PyStr.mem existsb]. rewrite Hlinux, Hsunos, Hdarwin, Haix.
  cbn [orb]. unfold log_step, which. repeat ends_step.
  all: cbn [resolve_packages foldM]; apply ends_bind_ret;
    change (packages_to_upgrade ∅) with (@nil string);
    apply ends_ret.
  all: unfold upgrade_commands, is_upgrade_cmd, is_pm_command, with_sudo;
    cbn [prompts commands flat_map List.app List.filter hd tl PyStr.mem existsb
         String.eqb Ascii.eqb Bool.eqb andb orb length];
    rewrite ?andb_false_r; cbn [orb andb].
  all: repeat split; lia.
Qed.

(** A Windows host with dumpbin and choco. *)
Lemma no_dependency_upgrade_on_windows :
  PyStr.mem (platform (agent_on "windows" (upgrade_server false)))
            ["linux"; "sunos"; "darwin"; "aix"] = false
  /\ upgrade_commands
       (new_events debian_state
          (snd (upgrade_application_dependencies windows_host
                  (agent_on "windows" (upgrade_server false)) server
                  debian_state))) = [].
Proof.
  split; [reflexivity|].
  pose proof (no_dependency_upgrade_without_library_paths windows_host
                (agent_on "windows" (upgrade_server false)) server
                debian_state eq_refl) as W.
  exact (proj1 (proj2 (proj2 W))).
Defined.

(** ** Step 7 with a handled package manager *)

(** X20. When the first detected manager is one that step 7 has a branch
    for (apt, dnf, yum, apk, brew), step 7 either stops at the prompt
    without starting anything, or runs exactly two commands of that
    manager, neither behind [sudo] and both from the current directory,
    and goes on to the post-checks whatever their exit codes are. *)
Theorem handled_manager_runs_two_commands_without_sudo
  (H : Host) (A : Agent) (pm : string) (rest : list string) (s : State) :
  PyStr.mem pm handled_managers = true ->
  let out := perform_upgrade H A (choose_strategy (pm :: rest)) (pm :: rest) s in
  let tr := new_events s (snd out) in
  (fst out = Ret false /\ commands tr = [])
  \/ (fst out = Ret true
      /\ length (commands tr) = 2%nat
      /\ Forall (fun argv => hd "" argv = pm) (commands tr)
      /\ Forall (fun e => match e with
                          | EvRun _ cwd _ => cwd = None
                          | _ => True
                          end) tr).
Proof.
  intros Hpm out tr. subst out tr.
  apply (ends_run _
    (fun o tr =>
       (o = Ret false /\ commands tr = [])
       \/ (o = Ret true
           /\ length (commands tr) = 2%nat
           /\ Forall (fun argv => hd "" argv = pm) (commands tr)
           /\ Forall (fun e => match e with
                               | EvRun _ cwd _ => cwd = None
                               | _ => True
                               end) tr))).
  assert (Hkind : st_type (choose_strategy (pm :: rest)) = PackageManager).
  { apply strategy_kind_by_membership. exists pm. split; [|now left].
    apply mem_In in Hpm. unfold handled_managers, first_class in *.
    cbn [In] in *. tauto. }
  unfold perform_upgrade. rewrite Hkind. unfold item. cbn [nth_error].
  apply ends_bind_ret.
  apply mem_In in Hpm. unfold handled_managers in Hpm. cbn [In] in Hpm.
  destruct Hpm as [<-|[<-|[<-|[<-|[<-|[]]]]]];
    cbn [String.eqb Ascii.eqb Bool.eqb PyStr.mem existsb andb orb];
    unfold pm_upgrade, confirm_upgrade, run_logged, log_step, item;
    try (destruct (PyStr.split_on "." (target_version (args A)))
           as [|major more] eqn:E;
         [now apply split_on_nonempty in E | cbn [nth_error]]);
    repeat ends_step.
  all: first
    [ left; split; reflexivity
    | right; split; [reflexivity|]; split; [reflexivity|];
      split; repeat constructor ].
Qed.

(** The Debian-like host, whose first manager is apt. *)
Lemma apt_runs_two_commands_without_sudo :
  PyStr.mem "apt" handled_managers = true
  /\ Forall (fun argv => hd "" argv = "apt")
       (commands
          (new_events empty_state
             (snd (perform_upgrade debian_host
                     (agent_on "linux" upgrade_to_308)
                     (choose_strategy ["apt"; "dpkg"]) ["apt"; "dpkg"]
                     empty_state)))).
Proof.
  split; [reflexivity|].
  pose proof (handled_manager_runs_two_commands_without_sudo debian_host
                (agent_on "linux" upgrade_to_308) "apt" ["dpkg"] empty_state
                eq_refl) as W.
  destruct W as [[E _]|(_ & _ & F & _)]; [discriminate E | exact F].
Defined.

(** ** The source build: what decides its status *)

Ltac no_such_run :=
  repeat match goal with
         | Hin : In _ (_ :: _) |- _ => destruct Hin as [Hin|Hin]
         | Hin : In _ [] |- _ => destruct Hin
         | Heq : (_, _) = (_, _) |- _ => inversion Heq; clear Heq; subst
         | Heq : (if ?b then _ else _) = _ |- _ => destruct b
         | Heq : _ :: _ = _ :: _ |- _ => inversion Heq; clear Heq; subst
         | Heq : _ :: _ = [] |- _ => discriminate Heq
         | Heq : [] = _ :: _ |- _ => discriminate Heq
         end;
  try congruence;
  try match goal with
      | He : (cr_exit ?r =? 0) = false, Hz : cr_exit ?r = 0 |- _ =>
          rewrite Hz in He; discriminate He
      end.

(** X21. The status of a build result is [ok] exactly when
    [make install PREFIX=...] ran and exited with 0.  So a failing
    [make test] does not fail the build, and neither does a failure to
    register the library path or a failing [ldconfig]. *)
Theorem build_succeeds_exactly_when_install_does
  (H : Host) (A : Agent) (version : string) (prefix : option string)
  (s : State) :
  let p := match prefix with
           | Some p => p
           | None => "/opt/openssl-" ++ version
           end in
  let out := side_install_from_source H A version prefix s in
  let tr := new_events s (snd out) in
  match fst out with
  | Ret res => br_status res = StatusOk <-> ran_with_success (install_cmd p) tr
  | Raise _ => ~ ran_with_success (install_cmd p) tr
  end.
Proof.
  intros p out tr. subst out tr.
  apply (ends_run _
    (fun o tr =>
       match o with
       | Ret res =>
           br_status res = StatusOk <-> ran_with_success (install_cmd p) tr
       | Raise _ => ~ ran_with_success (install_cmd p) tr
       end)).
  ends_walk.
  all: fold p; unfold ran_with_success, with_sudo, install_cmd, cfg_cmd,
         alt_cmd, make_cmd, test_cmd;
    cbn [andb results flat_map app br_status failed].
  all: first
    [ split; [intros _ | reflexivity];
      match goal with
      | He : (cr_exit ?r =? 0) = true
        |- exists _, In (["make"; "install"; _], _) _ /\ _ =>
          exists r; split; [cbn; tauto | now apply Z.eqb_eq]
      end
    | split; [discriminate|]; intros (? & Hin & Hz); exfalso; no_such_run
    | intros (? & Hin & Hz); no_such_run ].
Qed.

(** ** A run under [--force] *)

Lemma confirm_upgrade_forced H A items :
  force (args A) = true ->
  ends (confirm_upgrade H A items)
       (fun o tr => o = Ret true /\ tr = [EvPrompt items]).
Proof.
  intros Hf. unfold confirm_upgrade. rewrite Hf. repeat ends_step.
  split; reflexivity.
Qed.


Ltac returns_true :=
  repeat first [ apply returns_ret; reflexivity
               | apply returns_raise
               | apply returns_bind; intros ? ].

Lemma perform_upgrade_forced H A strategy pms :
  force (args A) = true ->
  returns (perform_upgrade H A strategy pms) (fun b => b = true).
Proof.
  intros Hf.
  assert (Hconfirm : forall items,
             returns (confirm_upgrade H A items) (fun b => b = true)).
  { intros items. apply returns_of_ends.
    eapply ends_weaken; [apply (confirm_upgrade_forced H A items Hf)|].
    intros [b|e] tr [E _]; [now inversion E | exact I]. }
  assert (Hpm : forall items c1 c2,
             returns (pm_upgrade H A items c1 c2) (fun b => b = true)).
  { intros. unfold pm_upgrade.
    apply (returns_bind_of _ _ _ _ (Hconfirm items)). intros ok ->.
    cbn [negb]. returns_true. }
  assert (Hsrc : returns (source_build H A) (fun b => b = true)).
  { unfold source_build.
    apply (returns_bind_of _ _ _ _ (Hconfirm _)). intros ok ->.
    cbn [negb]. returns_true. }
  unfold perform_upgrade. destruct (st_type strategy); [|exact Hsrc].
  apply returns_bind. intros pm.
  repeat match goal with
         | |- returns (if ?b then _ else _) _ => destruct b
         end; try apply Hpm; try exact Hsrc.
  apply returns_bind. intros major. apply Hpm.
Qed.

(** X22. Under [--force] a run never reads the operator's answer, so it
    never blocks on standard input, and it never ends with the status
    [aborted]: every prompt is answered at once. *)
Theorem forced_run_never_waits_for_input (H : Host) (A : Agent) (s : State) :
  force (args A) = true ->
  let out := decide_and_execute H A s in
  Forall no_input (new_events s (snd out))
  /\ fst out <> Ret Aborted.
Proof.
  intros Hf out. subst out. split.
  - apply emits_run. unfold_methods. rewrite Hf. repeat emits_step; exact I.
  - assert (R : returns (decide_and_execute H A) (fun r => r <> Aborted)).
    { unfold decide_and_execute, execute_strategy.
      do 6 (apply returns_bind; intros ?).
      destruct (dry_run (args A)).
      - do 2 (apply returns_bind; intros ?). apply returns_ret. discriminate.
      - apply (returns_bind_of _ _ _ _ (perform_upgrade_forced H A _ _ Hf)).
        intros proceed ->. unfold post_checks.
        do 4 (apply returns_bind; intros ?). apply returns_ret. discriminate. }
    intros E. exact (R s _ E eq_refl).
Qed.

(** The forced upgrade on the Debian-like host. *)
Lemma forced_run_on_debian_host :
  force (args (agent_on "linux" (upgrade_server false))) = true
  /\ Forall no_input
       (new_events debian_state
          (snd (decide_and_execute debian_host
                  (agent_on "linux" (upgrade_server false)) debian_state))).
Proof.
  split; [reflexivity|].
  pose proof (forced_run_never_waits_for_input debian_host
                (agent_on "linux" (upgrade_server false)) debian_state
                eq_refl) as W.
  exact (proj1 W).
Defined.

(** ** Owner resolution by path: the Homebrew cellar *)

Lemma prefix_cons c w r :
  String.prefix w r = true -> String.prefix (String c w) (String c r) = true.
Proof. intros E. cbn [String.prefix]. now destruct (ascii_dec c c). Qed.

(** The first segment of a string is a prefix of it. *)
Lemma split_on_head_prefix sep s w ws :
  PyStr.split_on sep s = w :: ws -> String.prefix w s = true.
Proof.
  revert w ws. induction s as [|c s IH]; intros w ws; cbn [PyStr.split_on].
  - intros E. inversion E. reflexivity.
  - destruct (Ascii.eqb c sep).
    + intros E. inversion E. reflexivity.
    + destruct (PyStr.split_on sep s) as [|w' ws'] eqn:Es.
      * now apply split_on_nonempty in Es.
      * intros E. inversion E. subst. apply prefix_cons.
        eapply IH. reflexivity.
Qed.

Lemma contains_empty s : PyStr.contains "" s = true.
Proof. now destruct s. Qed.

Lemma contains_cons n c s :
  PyStr.contains n s = true -> PyStr.contains n (String c s) = true.
Proof. intros E. cbn [PyStr.contains]. rewrite E. apply orb_true_r. Qed.

(** Every segment of a string occurs in it. *)
Lemma split_on_contains sep s : forall seg,
  In seg (PyStr.split_on sep s) -> PyStr.contains seg s = true.
Proof.
  induction s as [|c s IH]; intros seg; cbn [PyStr.split_on].
  - intros [<-|[]]. reflexivity.
  - destruct (Ascii.eqb c sep).
    + intros [<-|Hin]; [apply contains_empty|]. apply contains_cons. auto.
    + destruct (PyStr.split_on sep s) as [|w ws] eqn:Es.
      * now apply split_on_nonempty in Es.
      * intros [<-|Hin].
        -- cbn [PyStr.contains].
           rewrite (prefix_cons c w s (split_on_head_prefix _ _ _ _ Es)).
           reflexivity.
        -- apply contains_cons, IH. now right.
Qed.

Lemma index_of_first m pre rest :
  ~ In m pre -> PyStr.index_of m (pre ++ m :: rest) = Some (length pre).
Proof.
  induction pre as [|x pre IH]; intros Hn; cbn [PyStr.index_of app length].
  - now rewrite String.eqb_refl.
  - destruct (String.eqb_spec x m) as [->|_].
    + exfalso. apply Hn. now left.
    + rewrite IH; [reflexivity|]. intros Hin. apply Hn. now right.
Qed.

(** The segment after the first [marker]. *)
Lemma after_marker_next m pre x post s :
  ~ In m pre ->
  after_marker m (pre ++ m :: x :: post) s = (Ret (Some x), s).
Proof.
  intros Hn. unfold after_marker. rewrite (index_of_first _ _ _ Hn).
  assert (Hlen : (length pre + 1 <? length (pre ++ m :: x :: post))%nat = true).
  { apply Nat.ltb_lt. rewrite length_app. cbn. lia. }
  rewrite Hlen. unfold item.
  assert (Hnth : nth_error (pre ++ m :: x :: post) (length pre + 1) = Some x).
  { rewrite nth_error_app2 by lia.
    replace (length pre + 1 - length pre)%nat with 1%nat by lia.
    reflexivity. }
  now rewrite Hnth.
Qed.

(** X23. On darwin, the owner of a library under a Homebrew cellar is
    read off the path alone: it is the path segment right after the first
    segment named [Cellar], and no process is started to find it. *)
Theorem cellar_owner_is_next_segment
  (H : Host) (A : Agent) (lib_path : string)
  (pre : list string) (pkg : string) (post : list string) (s : State) :
  platform A = "darwin" ->
  PyStr.split_on "/" lib_path = (pre ++ "Cellar" :: pkg :: post)%list ->
  ~ In "Cellar" pre ->
  resolve_package_owner H A lib_path s = (Ret (Some pkg), s).
Proof.
  intros Hp Hsplit Hpre. unfold resolve_package_owner. rewrite Hp.
  cbn [String.eqb Ascii.eqb Bool.eqb].
  assert (Hc : PyStr.contains "Cellar" lib_path = true).
  { apply (split_on_contains "/"). rewrite Hsplit.
    apply in_or_app. right. now left. }
  rewrite Hc, Hsplit. now apply after_marker_next.
Qed.

(** A library of Homebrew's [zlib]. *)
Lemma cellar_owner_of_zlib :
  platform (agent_on "darwin" upgrade_to_308) = "darwin"
  /\ PyStr.split_on "/" "/usr/local/Cellar/zlib/1.3/lib/libz.1.dylib"
     = (["" ; "usr"; "local"] ++ "Cellar" :: "zlib"
        :: ["1.3"; "lib"; "libz.1.dylib"])%list
  /\ ~ In "Cellar" [""; "usr"; "local"]
  /\ resolve_package_owner bare_host (agent_on "darwin" upgrade_to_308)
       "/usr/local/Cellar/zlib/1.3/lib/libz.1.dylib" empty_state
     = (Ret (Some "zlib"), empty_state).
Proof.
  assert (Hpre : ~ In "Cellar" [""; "usr"; "local"]).
  { cbn [In]. intros [E|[E|[E|[]]]]; discriminate E. }
  split; [reflexivity|]. split; [reflexivity|]. split; [exact Hpre|].
  exact (cellar_owner_is_next_segment bare_host
           (agent_on "darwin" upgrade_to_308)
           "/usr/local/Cellar/zlib/1.3/lib/libz.1.dylib"
           [""; "usr"; "local"] "zlib" ["1.3"; "lib"; "libz.1.dylib"]
           empty_state eq_refl eq_refl Hpre).
Defined.

(** ** The artifact list and the report *)

Lemma artifact_events_app tr1 tr2 :
  artifact_events (tr1 ++ tr2)
  = (artifact_events tr1 ++ artifact_events tr2)%list.
Proof. unfold artifact_events. apply flat_map_app. Qed.

Lemma listed_app base tr1 tr2 :
  listed base (tr1 ++ tr2)
  <-> listed base tr1 /\ listed (base ++ artifact_events tr1) tr2.
Proof.
  revert base. induction tr1 as [|e tr1 IH]; intros base; cbn [app listed].
  - cbn. rewrite app_nil_r. tauto.
  - rewrite IH. change (artifact_events (e :: tr1))
      with (artifact_of e ++ artifact_events tr1)%list.
    rewrite app_assoc. tauto.
Qed.

Section Accounts.

Variable H : Host.
Variable A : Agent.

Lemma accounts_quiet {X} (m : M X) :
  (forall s, trace (snd (m s)) = trace s
             /\ artifacts (snd (m s)) = artifacts s) ->
  accounts m.
Proof.
  intros Hm s. destruct (Hm s) as [Et Ea]. exists [].
  rewrite Et, Ea, !app_nil_r. repeat split.
Qed.

Lemma accounts_ret {X} (a : X) : accounts (ret a).
Proof. now apply accounts_quiet. Qed.

Lemma accounts_raise {X} e : accounts (@raise X e).
Proof. now apply accounts_quiet. Qed.

Lemma accounts_gets {X} (f : State -> X) : accounts (gets f).
Proof. now apply accounts_quiet. Qed.

Lemma accounts_touch p : accounts (touch p).
Proof. now apply accounts_quiet. Qed.

Lemma accounts_emit e : plain e -> accounts (emit e).
Proof.
  intros Hp s. exists [e]. cbn [emit snd trace artifacts].
  unfold artifact_events. cbn [flat_map listed]. rewrite Hp, !app_nil_r.
  repeat split. destruct e; try exact I. discriminate Hp.
Qed.

Lemma accounts_run_cmd cmd cwd sudo : accounts (run_cmd H cmd cwd sudo).
Proof.
  intros s. unfold run_cmd.
  destruct (h_exec H s _ cwd); eexists [_]; cbn [snd trace artifacts];
    (split; [reflexivity|]);
    (split; [change (artifact_events [?e]) with (@nil string);
             now rewrite app_nil_r
            | cbn [listed]; auto]).
Qed.

Lemma accounts_bind {X Y} (m : M X) (k : X -> M Y) :
  accounts m -> (forall a, accounts (k a)) -> accounts (bind m k).
Proof.
  intros Hm Hk s. destruct (Hm s) as (tr1 & E1 & A1 & L1).
  unfold bind. destruct (m s) as [[a|e] s1]; cbn [snd] in *.
  - destruct (Hk a s1) as (tr2 & E2 & A2 & L2).
    exists (tr1 ++ tr2)%list. rewrite E2, E1, A2, A1.
    rewrite artifact_events_app, !app_assoc.
    split; [reflexivity|]. split; [reflexivity|].
    apply listed_app. split; [exact L1|]. now rewrite <- A1.
  - exists tr1. auto.
Qed.

Lemma accounts_foldM {X B} (f : B -> X -> M B) xs :
  (forall b x, accounts (f b x)) -> forall b, accounts (foldM f xs b).
Proof.
  intros Hf. induction xs as [|x xs IH]; intros b; cbn [foldM].
  - apply accounts_ret.
  - apply accounts_bind; [apply Hf | intros b'; apply IH].
Qed.

Lemma accounts_lslpp_owner lib lines : accounts (lslpp_owner lib lines).
Proof.
  apply accounts_quiet. intros s.
  split; [apply lslpp_owner_silent|].
  induction lines as [|line rest IH]; cbn [lslpp_owner]; [reflexivity|].
  destruct (PyStr.contains lib line); [|apply IH].
  destruct (2 <=? length (PyStr.split line))%nat; [|apply IH].
  unfold bind, item. now destruct (nth_error _ 1).
Qed.

(** The three places that add an artifact. *)
Lemma accounts_log_snapshot_file when name content :
  accounts (log_snapshot_file A when name content).
Proof.
  intros s. eexists [_]. unfold log_snapshot_file, bind, emit, touch,
    add_artifact. cbn. repeat split.
Qed.

Lemma accounts_generate_readme strategy success :
  accounts (generate_readme A strategy success).
Proof.
  intros s. eexists [_; _].
  unfold generate_readme, log_step, bind, gets, emit, touch, add_artifact.
  cbn. rewrite <- !app_assoc. repeat split.
Qed.

Lemma accounts_archive : accounts (archive_backup H A).
Proof.
  intros s.
  unfold archive_backup, log_step, bind, gets, emit, touch, add_artifact, ret.
  destruct (h_archive H s (backup_tarball A) (backup_dir A));
    eexists [_; _]; cbn [fst snd trace artifacts];
    rewrite <- ?app_assoc; (split; [reflexivity|]);
    cbn; rewrite ?app_nil_r; repeat split.
Qed.

End Accounts.

Ltac accounts_step :=
  lazymatch goal with
  | |- accounts (ret _) => apply accounts_ret
  | |- accounts (raise _) => apply accounts_raise
  | |- accounts (gets _) => apply accounts_gets
  | |- accounts (touch _) => apply accounts_touch
  | |- accounts (emit _) => apply accounts_emit; reflexivity
  | |- accounts (log_snapshot_file _ _ _ _) => apply accounts_log_snapshot_file
  | |- accounts (generate_readme _ _ _) => apply accounts_generate_readme
  | |- accounts (archive_backup _ _) => apply accounts_archive
  | |- accounts (bind _ _) => apply accounts_bind; [| intros ?]
  | |- accounts (foldM _ _ _) => apply accounts_foldM; intros ? ?
  | |- accounts (run_cmd _ _ _ _) => apply accounts_run_cmd
  | |- accounts (lslpp_owner _ _) => apply accounts_lslpp_owner
  | |- accounts (if ?b then _ else _) => destruct b
  | |- accounts (match ?x with _ => _ end) => destruct x
  end.

Ltac accounts_walk :=
  unfold decide_and_execute, execute_strategy, post_checks, perform_upgrade,
    pm_upgrade, source_build, run_smoke_tests, check_binary,
    upgrade_application_dependencies, upgrade_packages, resolve_packages,
    identify_libraries, otool_line, run_logged, confirm_upgrade,
    resolve_package_owner, after_marker, side_install_from_source,
    si_download, si_extract, si_configure, si_make, si_test, si_install,
    si_register, prepare_backup, backup_tool, write_checksum,
    backup_pattern, backup_lib,
    detect_application_linking, detect_package_managers, detect_openssl_cli,
    inspect, item, copy2, write_file, log_step, path_exists, which;
  repeat accounts_step.

(** X24. The artifact list is kept in step with what the run did: it
    grows by exactly the snapshot files written, the tarball of a
    successful archive and the report, in that order, and every report
    lists exactly the artifacts recorded before it was written (so never
    itself). *)
Theorem report_lists_the_artifacts_before_it
  (H : Host) (A : Agent) (s : State) :
  let out := decide_and_execute H A s in
  let tr := new_events s (snd out) in
  artifacts (snd out) = (artifacts s ++ artifact_events tr)%list
  /\ listed (artifacts s) tr.
Proof.
  intros out tr. subst out tr.
  assert (R : accounts (decide_and_execute H A)) by accounts_walk.
  destruct (R s) as (tr & E & Ha & L). unfold new_events.
  rewrite E, drop_app_length. split; assumption.
Qed.

(** ** The pattern that finds library paths *)

Lemma span_holds p s a b :
  PyStr.span p s = (a, b) -> forallb p (list_ascii_of_string a) = true.
Proof.
  revert a b. induction s as [|c s IH]; intros a b; cbn [PyStr.span].
  - intros E. inversion E. reflexivity.
  - destruct (p c) eqn:Ep.
    + destruct (PyStr.span p s) as [a' b'] eqn:Es. intros E. inversion E.
      cbn [list_ascii_of_string forallb]. rewrite Ep.
      exact (IH a' b' eq_refl).
    + intros E. inversion E. reflexivity.
Qed.

Lemma arrow_tail_group s g :
  PyStr.arrow_tail s = Some g -> g <> "" /\ no_space g = true.
Proof.
  unfold PyStr.arrow_tail.
  destruct (PyStr.span PyStr.is_space s) as [w1 r1].
  destruct (String.eqb w1 ""); [discriminate|].
  destruct (PyStr.span (fun c => negb (PyStr.is_space c)) r1) as [g' r2] eqn:Eg.
  destruct (String.eqb_spec g' ""); [discriminate|].
  destruct (PyStr.span PyStr.is_space r2) as [w2 r3].
  destruct (String.eqb w2 ""); [discriminate|].
  destruct r3 as [|c r3]; [discriminate|].
  destruct (Ascii.eqb_spec c "(") as [->|Hne];
    [|destruct c as [[] [] [] [] [] [] [] []]; try discriminate;
      now destruct Hne].
  intros E. inversion E; subst g'. split; [assumption|].
  exact (span_holds _ _ _ _ Eg).
Qed.

Lemma search_arrow_found s g :
  PyStr.search_arrow s = Some g ->
  g <> "" /\ no_space g = true /\ PyStr.contains "=>" s = true.
Proof.
  induction s as [|c s IH]; cbn [PyStr.search_arrow]; [discriminate|].
  destruct (Ascii.eqb_spec c "=") as [->|Hc].
  - destruct s as [|c' tail].
    + cbn [PyStr.search_arrow]. discriminate.
    + destruct (Ascii.eqb_spec c' ">") as [->|Hc'].
      * destruct (PyStr.arrow_tail tail) as [g'|] eqn:Et.
        -- intros E. inversion E; subst g'.
           destruct (arrow_tail_group _ _ Et) as [Hg Hs].
           split; [assumption|]. split; [assumption|].
           cbn [PyStr.contains].
           assert (E0 : String.prefix "" tail = true) by now destruct tail.
           now rewrite (prefix_cons "=" _ _ (prefix_cons ">" "" tail E0)).
        -- intros E. destruct (IH E) as (Hg & Hs & Hcont).
           repeat split; try assumption. now apply contains_cons.
      * assert (E0 : match String c' tail with
                     | String ">" tail0 => PyStr.arrow_tail tail0
                     | _ => None
                     end = None).
        { destruct c' as [[] [] [] [] [] [] [] []]; try reflexivity.
          now destruct Hc'. }
        rewrite E0. intros E. destruct (IH E) as (Hg & Hs & Hcont).
        repeat split; try assumption. now apply contains_cons.
  - intros E. destruct (IH E) as (Hg & Hs & Hcont).
    repeat split; try assumption. now apply contains_cons.
Qed.

(** X25. What the dependency step reads from [ldd] output: every path it
    extracts is a non-empty run of characters without white space, found
    by the pattern in a line that holds an arrow [=>].  Lines without an
    arrow contribute nothing, and a path with a space in it is never
    extracted whole. *)
Theorem ldd_paths_come_from_arrow_lines (out : string) :
  Forall (arrow_target out) (ldd_paths out).
Proof.
  apply List.Forall_forall. intros path Hin. unfold ldd_paths in Hin.
  apply list_elem_of_In, list_elem_of_omap in Hin.
  destruct Hin as (line & Hline & Hs). apply list_elem_of_In in Hline.
  destruct (search_arrow_found _ _ Hs) as (Hg & Hn & Hc).
  split; [exact Hg|]. split; [exact Hn|]. exists line. auto.
Qed.

(** ** The version snapshot *)

Lemma snapshot_paths_app tr1 tr2 :
  snapshot_paths (tr1 ++ tr2)
  = (snapshot_paths tr1 ++ snapshot_paths tr2)%list.
Proof. unfold snapshot_paths. apply flat_map_app. Qed.

Lemma snapshot_writes_app p tr1 tr2 :
  snapshot_writes p (tr1 ++ tr2)
  = (snapshot_writes p tr1 + snapshot_writes p tr2)%nat.
Proof.
  unfold snapshot_writes.
  now rewrite snapshot_paths_app, List.filter_app, length_app.
Qed.

Lemma no_snapshot_writes p tr :
  Forall (not_to p) tr -> snapshot_writes p tr = 0%nat.
Proof.
  unfold snapshot_writes.
  induction 1 as [|e tr He _ IH]; [reflexivity|].
  destruct e; try exact IH. cbn [snapshot_paths flat_map app List.filter].
  cbn [not_to] in He. apply not_eq_sym, String.eqb_neq in He.
  rewrite He. exact IH.
Qed.

(** Snapshot files with different names, or in the other directory. *)
Ltac other_snapshot :=
  cbn [not_to];
  first
    [ exact I
    | unfold version_snapshot, pre_dir, post_dir, path_join;
      rewrite ?string_app_assoc; intros E;
      match type of E with
      | ?d ++ _ = _ => apply (append_inv_head d) in E
      end;
      cbv [String.append] in E; discriminate E ].


Section VersionSnapshot.

Variable H : Host.
Variable A : Agent.
Hypothesis Hopenssl : forall s, found (h_which H s "openssl") = true.

Abbreviation file := (version_snapshot A).

Lemma version_writes_late n o tr1 tr2 :
  Forall (not_to file) tr1 ->
  version_snapshot_writes A n o tr2 ->
  version_snapshot_writes A n o (tr1 ++ tr2).
Proof.
  intros F. unfold version_snapshot_writes.
  now rewrite snapshot_writes_app, (no_snapshot_writes _ _ F).
Qed.

Lemma version_writes_raise e tr1 :
  Forall (not_to file) tr1 ->
  version_snapshot_writes A 1 (@Raise RunResult e) tr1.
Proof.
  intros F. unfold version_snapshot_writes.
  now rewrite (no_snapshot_writes _ _ F).
Qed.

(** With openssl on the search path, [detect_openssl_cli] writes the
    file once. *)
Lemma detect_openssl_cli_writes :
  ends (detect_openssl_cli H A)
       (fun o tr => (exists e, o = Ret e) /\ snapshot_writes file tr = 1%nat).
Proof.
  unfold detect_openssl_cli, which.
  apply (ends_bind_gets_such _ (fun w => found w = true)); [exact Hopenssl|].
  intros w ->. unfold inspect, log_step, log_snapshot_file.
  repeat ends_step. split; [eauto|].
  unfold snapshot_writes. cbn [snapshot_paths flat_map app List.filter].
  unfold version_snapshot. now rewrite String.eqb_refl.
Qed.

Ltac skip_other :=
  apply ends_bind_skip with (P := not_to file);
  [ emits_walk; other_snapshot | intros ?
  | apply version_writes_late | apply version_writes_raise ].

Lemma post_checks_writes strategy :
  ends (post_checks H A strategy) (version_snapshot_writes A 1).
Proof.
  unfold post_checks.
  destruct (detection_total H A (fun _ => False)) as (_ & _ & Happ).
  eapply ends_bind; [apply detect_openssl_cli_writes | |].
  - intros _ tr1 [_ E1].
    assert (Hshift : forall o tr2,
               version_snapshot_writes A 2 o tr2 ->
               version_snapshot_writes A 1 o (tr1 ++ tr2)).
    { intros o tr2. unfold version_snapshot_writes.
      rewrite snapshot_writes_app, E1. destruct o as [[| |]|]; lia. }
    eapply ends_weaken; [|exact Hshift].
    apply ends_bind_total_skip with (P := not_to file);
      [ destruct (given _); emits_walk; other_snapshot
      | destruct (given _);
        [apply raises_bind; [apply Happ | intros _]|]; apply raises_ret
      | intros _ | apply version_writes_late ].
    apply ends_bind_total_skip with (P := not_to file);
      [ emits_walk; other_snapshot
      | apply (raises_of_value _ _ _ (run_smoke_tests_ends H A))
      | intros smoke | apply version_writes_late ].
    apply ends_bind_total_skip with (P := not_to file);
      [ emits_walk; other_snapshot
      | unfold generate_readme; raises_walk
      | intros _ | apply version_writes_late ].
    apply ends_ret. reflexivity.
  - intros e tr1 [[x Ex] _]. discriminate Ex.
Qed.

Lemma decide_and_execute_writes :
  ends (decide_and_execute H A) (version_snapshot_writes A 0).
Proof.
  unfold decide_and_execute.
  apply ends_bind_total_skip with (P := not_to file);
    [ emits_walk; other_snapshot | raises_walk | intros _
    | apply version_writes_late ].
  eapply ends_bind; [apply detect_openssl_cli_writes | |].
  - intros _ tr1 [_ E1].
    assert (Hshift : forall o tr2,
               version_snapshot_writes A 1 o tr2 ->
               version_snapshot_writes A 0 o (tr1 ++ tr2)).
    { intros o tr2. unfold version_snapshot_writes.
      rewrite snapshot_writes_app, E1. destruct o as [[| |]|]; lia. }
    eapply ends_weaken; [|exact Hshift].
    unfold execute_strategy.
    do 4 skip_other.
    destruct (dry_run (args A)).
    + do 2 skip_other. apply ends_ret. reflexivity.
    + apply ends_bind_skip with (P := not_to file);
        [ emits_walk; other_snapshot | intros proceed
        | apply version_writes_late | apply version_writes_raise ].
      destruct proceed; [apply post_checks_writes | apply ends_ret; reflexivity].
  - intros e tr1 [[x Ex] _]. discriminate Ex.
Qed.

End VersionSnapshot.



(** ** The audit trail of mutating commands *)

Lemma last_of_app {X} (l1 l2 : list X) d :
  l2 <> [] -> List.last (l1 ++ l2) d = List.last l2 d.
Proof.
  intros Hne. induction l1 as [|x l1 IH]; [reflexivity|].
  cbn [app List.last]. destruct (l1 ++ l2)%list eqn:E; [|exact IH].
  apply app_eq_nil in E. destruct E as [_ E]. contradiction.
Qed.

Lemma settled_app tr1 tr2 :
  settled tr1 -> settled tr2 -> settled (tr1 ++ tr2).
Proof.
  intros H1 H2. destruct tr2 as [|e tr2]; [now rewrite app_nil_r|].
  unfold settled in *. rewrite last_of_app; [exact H2 | discriminate].
Qed.

Lemma mutations_logged_app tr1 tr2 :
  mutations_logged tr1 -> settled tr1 -> mutations_logged tr2 ->
  mutations_logged (tr1 ++ tr2).
Proof.
  induction tr1 as [|e tr1 IH]; intros L1 S1 L2; [exact L2|].
  assert (Srest : tr1 <> [] -> settled tr1).
  { intros Hne. unfold settled in *. destruct tr1; [contradiction | exact S1]. }
  destruct e; cbn [mutations_logged app] in *;
    try (destruct tr1 as [|e' tr1'];
         [exact L2 | apply IH; [exact L1 | apply Srest; discriminate | exact L2]]).
  destruct L1 as [Hlog L1]. split.
  - intros Hm. destruct tr1 as [|e' tr1'].
    + unfold settled in S1. cbn in S1. congruence.
    + exact (Hlog Hm).
  - destruct tr1 as [|e' tr1']; [exact L2|].
    apply IH; [exact L1 | apply Srest; discriminate | exact L2].
Qed.

Section LogsMutations.

Variable H : Host.
Variable A : Agent.

Lemma lm_quiet {X} (m : M X) :
  (forall s, trace (snd (m s)) = trace s) -> logs_mutations m.
Proof.
  intros Hm s. exists []. rewrite Hm, app_nil_r. repeat split.
Qed.

Lemma lm_ret {X} (a : X) : logs_mutations (ret a).
Proof. now apply lm_quiet. Qed.

Lemma lm_raise {X} e : logs_mutations (@raise X e).
Proof. now apply lm_quiet. Qed.

Lemma lm_gets {X} (f : State -> X) : logs_mutations (gets f).
Proof. now apply lm_quiet. Qed.

Lemma lm_touch p : logs_mutations (touch p).
Proof. now apply lm_quiet. Qed.

Lemma lm_add_artifact p : logs_mutations (add_artifact p).
Proof. now apply lm_quiet. Qed.

Lemma lm_lslpp_owner lib lines : logs_mutations (lslpp_owner lib lines).
Proof. apply lm_quiet, lslpp_owner_silent. Qed.

Lemma lm_emit e : no_process e -> logs_mutations (emit e).
Proof.
  intros He s. exists [e]. split; [reflexivity|].
  destruct e; try contradiction; repeat split.
Qed.

Lemma lm_log_step e : logs_mutations (log_step A e).
Proof.
  intros s. exists [EvLog e]. split; [reflexivity|]. repeat split.
Qed.

Lemma lm_bind {X Y} (m : M X) (k : X -> M Y) :
  logs_mutations m -> (forall a, logs_mutations (k a)) ->
  logs_mutations (bind m k).
Proof.
  intros Hm Hk s. destruct (Hm s) as (tr1 & E1 & L1 & S1).
  unfold bind. destruct (m s) as [[a|e] s1]; cbn [snd] in *.
  - destruct (Hk a s1) as (tr2 & E2 & L2 & S2).
    exists (tr1 ++ tr2)%list. rewrite E2, E1, app_assoc.
    split; [reflexivity|].
    split; [now apply mutations_logged_app | now apply settled_app].
  - exists tr1. auto.
Qed.

Lemma lm_foldM {X B} (f : B -> X -> M B) xs :
  (forall b x, logs_mutations (f b x)) ->
  forall b, logs_mutations (foldM f xs b).
Proof.
  intros Hf. induction xs as [|x xs IH]; intros b; cbn [foldM].
  - apply lm_ret.
  - apply lm_bind; [apply Hf | intros b'; apply IH].
Qed.

(** A command that changes nothing needs no log entry. *)
Lemma lm_run_quiet cmd cwd sudo :
  is_mutating_cmd (with_sudo H sudo cmd) = false ->
  logs_mutations (run_cmd H cmd cwd sudo).
Proof.
  intros Hq s. unfold run_cmd.
  destruct (h_exec H s _ cwd); eexists [_]; (split; [reflexivity|]);
    (split; [cbn [mutations_logged]; split; [congruence | exact I]
            | exact Hq]).
Qed.

(** A command whose result is logged next. *)
Lemma lm_run_logged {Y} cmd cwd sudo (k : CommandResult -> M Y) :
  (forall r, logs_mutations (k r)) ->
  logs_mutations (let! r := run_cmd H cmd cwd sudo in
                  log_step A (entry_of r) >> k r).
Proof.
  intros Hk s. unfold bind at 1. unfold run_cmd.
  destruct (h_exec H s _ cwd);
    unfold log_step, bind, emit, touch; cbn [fst snd fs trace artifacts];
    match goal with
    | |- context [k ?r ?s1] =>
        destruct (Hk r s1) as (tr & E & L & S);
        exists (EvRun (with_sudo H sudo cmd) cwd r :: EvLog (entry_of r) :: tr);
        destruct (k r s1) as [o s2]
    end;
    cbn [fst snd trace] in *; rewrite E, <- !app_assoc;
    (split; [reflexivity|]);
    (split; [cbn [mutations_logged hd_error]; auto|]);
    unfold settled in *;
    (destruct tr as [|e tr']; [exact I|]);
    change (EvRun ?a ?b ?c :: EvLog ?l :: e :: tr')
      with ([EvRun a b c; EvLog l] ++ e :: tr')%list;
    (rewrite last_of_app; [exact S | discriminate]).
Qed.

Lemma lm_run_logged_last cmd cwd sudo :
  logs_mutations (let! r := run_cmd H cmd cwd sudo in log_step A (entry_of r)).
Proof.
  intros s.
  destruct (lm_run_logged cmd cwd sudo (fun _ => ret tt) (fun _ => lm_ret tt) s)
    as (tr & E & L & S).
  exists tr. split; [|split; assumption].
  rewrite <- E. unfold bind, run_cmd, log_step, emit, touch, ret.
  now destruct (h_exec H s _ cwd).
Qed.

End LogsMutations.

Ltac decide_not_mutating :=
  unfold is_mutating_cmd, is_source_build_cmd, is_upgrade_cmd, is_pm_command,
    with_sudo;
  repeat match goal with
         | |- context [if ?b then _ else _] => destruct b
         end;
  cbn [hd tl andb orb negb PyStr.mem existsb String.eqb Ascii.eqb Bool.eqb];
  rewrite ?andb_false_r, ?orb_false_r; reflexivity.

Ltac lm_step :=
  lazymatch goal with
  | |- logs_mutations (ret _) => apply lm_ret
  | |- logs_mutations (raise _) => apply lm_raise
  | |- logs_mutations (gets _) => apply lm_gets
  | |- logs_mutations (touch _) => apply lm_touch
  | |- logs_mutations (add_artifact _) => apply lm_add_artifact
  | |- logs_mutations (emit _) => apply lm_emit; exact I
  | |- logs_mutations (log_step _ _) => apply lm_log_step
  | |- logs_mutations (lslpp_owner _ _) => apply lm_lslpp_owner
  | |- logs_mutations (run_cmd _ _ _ _) => apply lm_run_quiet; decide_not_mutating
  | |- logs_mutations (bind (run_cmd _ _ _ _)
                            (fun r => bind (log_step _ (entry_of r)) _)) =>
      apply lm_run_logged; intros ?
  | |- logs_mutations (bind (run_cmd _ _ _ _)
                            (fun r => log_step _ (entry_of r))) =>
      apply lm_run_logged_last
  | |- logs_mutations (bind _ _) => apply lm_bind; [| intros ?]
  | |- logs_mutations (foldM _ _ _) => apply lm_foldM; intros ? ?
  | |- logs_mutations (if ?b then _ else _) => destruct b
  | |- logs_mutations (match ?x with _ => _ end) => destruct x
  end.

Ltac lm_walk :=
  unfold decide_and_execute, execute_strategy, post_checks, perform_upgrade,
    pm_upgrade, source_build, generate_readme, run_smoke_tests, check_binary,
    upgrade_application_dependencies, upgrade_packages, resolve_packages,
    identify_libraries, otool_line, run_logged, confirm_upgrade,
    resolve_package_owner, after_marker, side_install_from_source,
    si_download, si_extract, si_configure, si_make, si_test, si_install,
    si_register, prepare_backup, archive_backup, backup_tool, write_checksum,
    backup_pattern, backup_lib,
    detect_application_linking, detect_package_managers, detect_openssl_cli,
    inspect, item, copy2, write_file, log_snapshot_file, path_exists, which;
  repeat lm_step.

(** X27. Every command of a run that changes the host (a package-manager
    upgrade, with or without [sudo], or a configure or build command) is
    followed at once by the log entry of its result: nothing is changed
    without a record of how the command ended. *)
Theorem every_mutating_command_is_logged (H : Host) (A : Agent) (s : State) :
  mutations_logged (new_events s (snd (decide_and_execute H A s))).
Proof.
  assert (R : logs_mutations (decide_and_execute H A)) by lm_walk.
  destruct (R s) as (tr & E & L & _). unfold new_events.
  now rewrite E, drop_app_length.
Qed.

(** ** Step 7 with a first-class manager it has no branch for *)

Lemma ends_and {X} (m : M X) Q1 Q2 :
  ends m Q1 -> ends m Q2 -> ends m (fun o tr => Q1 o tr /\ Q2 o tr).
Proof.
  intros H1 H2 s. destruct (H1 s) as (tr1 & E1 & HQ1).
  destruct (H2 s) as (tr2 & E2 & HQ2). exists tr1.
  rewrite E1 in E2. apply app_inv_head in E2. subst tr2. auto.
Qed.

Lemma ends_of_returns_total {X} (m : M X) (Q : X -> Prop) :
  emits (fun _ => True) m -> raises_only (fun _ => False) m -> returns m Q ->
  ends m (fun o _ => exists a, o = Ret a /\ Q a).
Proof.
  intros He Hr Hq s. destruct (He s) as (tr & E & _). exists tr.
  split; [exact E|].
  destruct (fst (m s)) as [a|e] eqn:Eo.
  - exists a. split; [reflexivity | exact (Hq s a Eo)].
  - destruct (Hr s e Eo).
Qed.

(** The pipeline begins by creating its working directory, and raises
    only when that fails or the archive holds no source directory. *)
Lemma side_install_begins H A version prefix :
  ends (side_install_from_source H A version prefix)
       (fun o tr => (exists dir rest, tr = EvMkdtemp dir :: rest)
                    /\ forall e, o = Raise e ->
                                 e = OSError "mkdtemp" \/ e = StopIteration).
Proof.
  apply ends_and.
  - unfold side_install_from_source.
    apply ends_bind_gets. intros tmp. apply ends_bind_emit.
    eapply ends_weaken.
    + apply ends_of_emits with (P := fun _ => True). emits_walk; exact I.
    + intros o tr _. now exists tmp, tr.
  - eapply ends_weaken.
    + apply (ends_of_emits_raises _ (fun _ => True)
               (fun e => e = OSError "mkdtemp" \/ e = StopIteration)).
      * emits_walk; exact I.
      * apply side_install_raises.
    + intros o tr [_ R]. exact R.
Qed.

(** The source build after the confirmation: the pipeline, then the log
    entry of its result. *)
Lemma build_and_log H A :
  ends (let! res := side_install_from_source H A (target_version (args A)) None
        in log_step A (build_entry res) >> ret true)
       build_started.
Proof.
  eapply ends_bind; [apply side_install_begins | |].
  - intros res tr1 [(dir & rest & ->) _]. unfold log_step. repeat ends_step.
    split; [now exists dir, (rest ++ [EvLog (build_entry res)])%list|].
    split; [reflexivity|]. exists res. apply in_or_app. right. now left.
  - intros e tr1 [Hd R]. split; [exact Hd | exact (R e eq_refl)].
Qed.

Lemma confirmed_source_build H A :
  confirms H A ->
  ends (source_build H A)
       (fun o tr => exists answer tr',
          tr = (EvPrompt [source_build_item A] :: answer ++ tr')%list
          /\ Forall is_answer answer /\ (length answer <= 1)%nat
          /\ build_started o tr').
Proof.
  intros Hc. pose proof (build_and_log H A) as Build.
  assert (Forced :
    ends (bind (ret true)
            (fun ok => if negb ok then ret false
                       else let! res := side_install_from_source H A
                                          (target_version (args A)) None
                            in log_step A (build_entry res) >> ret true))
         (fun o tr => exists answer tr',
            (EvPrompt [source_build_item A] :: tr
             = EvPrompt [source_build_item A] :: answer ++ tr')%list
            /\ Forall is_answer answer /\ (length answer <= 1)%nat
            /\ build_started o tr')).
  { apply ends_bind_ret. cbn [negb]. eapply ends_weaken; [exact Build|].
    intros o tr B. exists [], tr.
    split; [reflexivity|]. split; [constructor|]. split; [cbn; lia | exact B]. }
  unfold source_build, confirm_upgrade. cbv zeta. fold (build_entry).
  apply ends_bind_assoc, ends_bind_emit.
  destruct (force (args A)) eqn:Ef; [exact Forced|].
  destruct Hc as [Hc|Hc]; [congruence|].
  apply ends_bind_assoc.
  apply (ends_bind_gets_such _
           (fun line => exists l, line = Some l
              /\ String.eqb (PyStr.lower (PyStr.strip l)) "y" = true)).
  { exact Hc. }
  intros line (l & -> & Ey).
  apply ends_bind_assoc, ends_bind_emit, ends_bind_ret.
  rewrite Ey. cbn [negb]. eapply ends_weaken; [exact Build|].
  intros o tr B. exists [EvInput (Some l)], tr.
  split; [reflexivity|]. split; [repeat constructor|].
  split; [cbn; lia | exact B].
Qed.

Lemma post_checks_done H A strategy :
  ends (post_checks H A strategy)
       (fun o _ => exists res, o = Ret res /\ exists success, res = Done success).
Proof.
  apply ends_of_returns_total.
  - emits_walk; exact I.
  - apply post_checks_total.
  - unfold post_checks. do 4 (apply returns_bind; intros ?).
    apply returns_ret. eauto.
Qed.


(** Step 7 on the SUSE-like host, where the detected managers are zypper
    and rpm, under [--force]: the commands are those of the source build,
    none of zypper's. *)
Example suse_step7_commands :
  fst suse_step7 = Ret (Done false)
  /\ commands (new_events empty_state (snd suse_step7))
     = [["bash"; "-lc";
         "curl -fL https://www.openssl.org/source/openssl-3.0.8.tar.gz -o /tmp3k2xq9/openssl-3.0.8.tar.gz"];
        ["tar"; "xzf"; "/tmp3k2xq9/openssl-3.0.8.tar.gz"; "-C"; "/tmp3k2xq9"];
        ["./config"; "--prefix=/opt/openssl-3.0.8"; "shared"];
        ["make"; "-j"; "4"]; ["make"; "test"];
        ["make"; "install"; "PREFIX=/opt/openssl-3.0.8"]].
Proof. split; vm_compute; reflexivity. Qed.

